(** * Photo Grid: the layout planner, chunking and page orchestration

    A shallow embedding of [src/photo_grid.py].  The Python values the
    program computes with are modelled directly: [int] is [Z], [float] is
    an IEEE-754 binary64 number ([PrimFloat.float]), [str] is [string]
    (one [ascii] per character, read as the code points U+0000..U+00FF),
    [bytes] is [list Byte.byte], lists are lists.  A pure function that
    can raise returns a [result]; the handlers, which talk to the
    operating system and to the toolkit, run in a small state-and-exception
    monad [M] that also records, in order, what they did. *)

From Stdlib Require Import ZArith Floats Ascii String DecimalString.
From Stdlib Require Import DecimalPos DecimalZ Lia.
From stdpp Require Import base list strings.

Local Open Scope string_scope.
Local Open Scope list_scope.
Local Open Scope Z_scope.
Local Set Warnings "-inexact-float".

(** ** Python values *)

Module Py.

(** The built-in exceptions the modelled code can raise; the last three
    are raised only by a replacement field that [str.format] has to
    evaluate beyond its name. *)
Inductive error : Type :=
| IndexError
| KeyError
| ValueError
| OverflowError
| TypeError
| AttributeError
| MemoryError.

(** What a pure computation gives: a value, or a built-in exception. *)
Inductive result (A : Type) : Type :=
| Ok (a : A)
| Raise (e : error).

Arguments Ok {A} a.
Arguments Raise {A} e.

#[global] Instance result_ret : MRet result := fun _ a => Ok a.
#[global] Instance result_bind : MBind result := fun _ _ f m =>
  match m with
  | Ok a => f a
  | Raise e => Raise e
  end.

#[global] Instance result_fmap : FMap result := fun _ _ f m =>
  match m with
  | Ok a => Ok (f a)
  | Raise e => Raise e
  end.

(** Paper dimensions mix [int] and [float] literals. *)
Inductive number : Type :=
| PyInt (z : Z)
| PyFloat (x : float).

(** [float(z)]: round to nearest, ties to even; too large an [int]
    raises. *)
Definition float_of_int (z : Z) : result float :=
  let x := SF2Prim (binary_normalize prec emax z 0 false) in
  if is_infinity x then Raise OverflowError else Ok x.

(** [a * b] *)
Definition mul (a b : number) : result number :=
  match a, b with
  | PyInt x, PyInt y => Ok (PyInt (x * y))
  | PyInt x, PyFloat y => fx ← float_of_int x; Ok (PyFloat (fx * y)%float)
  | PyFloat x, PyInt y => fy ← float_of_int y; Ok (PyFloat (x * fy)%float)
  | PyFloat x, PyFloat y => Ok (PyFloat (x * y)%float)
  end.

(** [int(x)] on a float truncates toward zero; infinities and NaN
    raise. *)
Definition int_of_float (x : float) : result Z :=
  match Prim2SF x with
  | S754_zero _ => Ok 0
  | S754_finite s m e =>
      let a := Z.shiftl (Z.pos m) e in
      Ok (if s then - a else a)
  | S754_infinity _ => Raise OverflowError
  | S754_nan => Raise ValueError
  end.

(** [int(x)] on a number. *)
Definition int_of_number (x : number) : result Z :=
  match x with
  | PyInt z => Ok z
  | PyFloat f => int_of_float f
  end.

(** [str(z)] *)
Definition str (z : Z) : string := NilZero.string_of_int (Z.to_int z).

(** [round(x)] with one argument: the nearest integer, ties to even. *)
Definition round_float (x : float) : result Z :=
  match Prim2SF x with
  | S754_zero _ => Ok 0
  | S754_finite s m e =>
      let a :=
        if 0 <=? e then Z.shiftl (Z.pos m) e
        else
          let q := Z.shiftr (Z.pos m) (- e) in
          let r := Z.pos m - Z.shiftl q (- e) in
          let half := Z.shiftl 1 (- e - 1) in
          if (half <? r) || ((r =? half) && Z.odd q) then q + 1 else q in
      Ok (if s then - a else a)
  | S754_infinity _ => Raise OverflowError
  | S754_nan => Raise ValueError
  end.

Definition round (x : number) : result Z :=
  match x with
  | PyInt z => Ok z
  | PyFloat f => round_float f
  end.

(** Whitespace as [str.isspace] sees it, for code points below 256. *)
Definition isspace (c : ascii) : bool :=
  let n := nat_of_ascii c in
  ((9 <=? n)%nat && (n <=? 13)%nat) || ((28 <=? n)%nat && (n <=? 32)%nat)
  || (n =? 133)%nat || (n =? 160)%nat.

(** [s.lstrip()] and [s.rstrip()] *)
Fixpoint lstrip (s : string) : string :=
  match s with
  | String c r => if isspace c then lstrip r else s
  | EmptyString => EmptyString
  end.

Fixpoint rstrip (s : string) : string :=
  match s with
  | String c r =>
      match rstrip r with
      | EmptyString => if isspace c then EmptyString else String c EmptyString
      | r' => String c r'
      end
  | EmptyString => EmptyString
  end.

(** [s.strip()] *)
Definition strip (s : string) : string := rstrip (lstrip s).

(** Truthiness of a [str]. *)
Definition nonempty (s : string) : bool :=
  match s with
  | EmptyString => false
  | String _ _ => true
  end.

(** [a or b] on strings. *)
Definition str_or (a b : string) : string := if nonempty a then a else b.

(** [s.split(sep)] for a one-character separator. *)
Fixpoint split (sep : ascii) (s : string) : list string :=
  match s with
  | EmptyString => [EmptyString]
  | String c r =>
      if Ascii.eqb c sep then EmptyString :: split sep r
      else
        match split sep r with
        | p :: ps => String c p :: ps
        | [] => [String c EmptyString]
        end
  end.

(** [s[:n]] for [n] not negative. *)
Definition prefix_of (n : nat) (s : string) : string := substring 0 n s.

(** [s.lower()] for code points below 256. *)
Definition lower_char (c : ascii) : ascii :=
  let n := nat_of_ascii c in
  if ((65 <=? n)%nat && (n <=? 90)%nat)
     || ((192 <=? n)%nat && (n <=? 222)%nat && negb (n =? 215)%nat)
  then ascii_of_nat (n + 32) else c.

Fixpoint lower (s : string) : string :=
  match s with
  | String c r => String (lower_char c) (lower r)
  | EmptyString => EmptyString
  end.

(** [s.endswith(t)] *)
Definition endswith (s t : string) : bool :=
  let n := String.length s in
  let m := String.length t in
  (m <=? n)%nat && String.eqb (substring (n - m) m s) t.

(** [sep.join(l)] *)
Fixpoint join (sep : string) (l : list string) : string :=
  match l with
  | [] => EmptyString
  | [a] => a
  | a :: r => a +:+ sep +:+ join sep r
  end.

(** [s.rfind(c)] for a one-character needle; [None] stands for -1. *)
Fixpoint rfind (c : ascii) (s : string) : option nat :=
  match s with
  | EmptyString => None
  | String a r =>
      match rfind c r with
      | Some i => Some (S i)
      | None => if Ascii.eqb a c then Some 0%nat else None
      end
  end.

(** What follows the argument name in a replacement field: the
    attribute and index lookups, the conversion after [!] and the format
    specification after [:]. *)
Record field : Type := {
  accessors : string;
  conversion : option ascii;
  format_spec : string
}.

(** Where [str.format] is in a format string: in literal text, after a
    brace that may be the first of a doubled one, or somewhere in a
    replacement field. *)
Inductive scanning : Type :=
| Literal
| Opened
| Closed
| InName (name : string)
| InIndex (name : string)
| AtConversion (name : string)
| AfterConversion (name : string) (conv : ascii)
| InSpec (name : string) (conv : option ascii) (spec : string) (depth : nat).

(** [s + c] *)
Definition snoc (s : string) (c : ascii) : string := s +:+ String c "".

(** The argument name of a field name, which ends at the first [.] or
    [[], and the lookups after it. *)
Fixpoint split_name (name : string) : string * string :=
  match name with
  | EmptyString => (EmptyString, EmptyString)
  | String c r =>
      if Ascii.eqb c "." || Ascii.eqb c "[" then (EmptyString, name)
      else let '(first, rest) := split_name r in (String c first, rest)
  end.

Definition decimal (c : ascii) : bool :=
  let n := nat_of_ascii c in (48 <=? n)%nat && (n <=? 57)%nat.

Fixpoint all_decimal (s : string) : bool :=
  match s with
  | EmptyString => true
  | String c r => decimal c && all_decimal r
  end.

(** The text of one replacement field of [pattern.format(page=n)].  An
    empty or numeric argument name is a position, and there is no
    positional argument (a number above [sys.maxsize], here that of a
    64-bit build, is refused first); any other name than [page] is a key
    that is missing.  For [page] itself the bare field, the conversions
    [!s], [!r] and [!a], and the specifications [] and [d] all give
    [str(page)], another conversion raises, and whatever else the field
    asks for is left to [render]. *)
Definition replace_field (render : field -> Z -> result string) (page : Z)
  (name : string) (conv : option ascii) (spec : string) : result string :=
  let '(first, rest) := split_name name in
  let rendered :=
    render {| accessors := rest; conversion := conv; format_spec := spec |}
      page in
  if negb (nonempty first) then Raise IndexError
  else if all_decimal first then
    match NilEmpty.uint_of_string first with
    | Some d =>
        if 2 ^ 63 - 1 <? Z.of_uint d then Raise ValueError
        else Raise IndexError
    | None => Raise IndexError
    end
  else if negb (String.eqb first "page") then Raise KeyError
  else if nonempty rest then rendered
  else
    match conv with
    | None =>
        if negb (nonempty spec) || String.eqb spec "d" then Ok (str page)
        else rendered
    | Some c =>
        if Ascii.eqb c "s" || Ascii.eqb c "r" || Ascii.eqb c "a" then
          if negb (nonempty spec) then Ok (str page) else rendered
        else Raise ValueError
    end.

(** What a character does in a field name: a [{] is refused, a [[] opens
    an index, inside which nothing is special, and [}], [:] and [!] end
    the name. *)
Definition name_step (render : field -> Z -> result string) (page : Z)
  (name : string) (c : ascii) : result (string * scanning) :=
  if Ascii.eqb c "{" then Raise ValueError
  else if Ascii.eqb c "[" then Ok (EmptyString, InIndex (snoc name c))
  else if Ascii.eqb c "}" then
    text ← replace_field render page name None EmptyString;
    Ok (text, Literal)
  else if Ascii.eqb c ":" then Ok (EmptyString, InSpec name None EmptyString 0)
  else if Ascii.eqb c "!" then Ok (EmptyString, AtConversion name)
  else Ok (EmptyString, InName (snoc name c)).

(** One character of the format string: the text it adds to the result
    and where the scan is afterwards.  A field is replaced as soon as it
    is closed, before the rest of the string is looked at. *)
Definition step (render : field -> Z -> result string) (page : Z)
  (st : scanning) (c : ascii) : result (string * scanning) :=
  match st with
  | Literal =>
      if Ascii.eqb c "{" then Ok (EmptyString, Opened)
      else if Ascii.eqb c "}" then Ok (EmptyString, Closed)
      else Ok (String c EmptyString, Literal)
  | Opened =>
      if Ascii.eqb c "{" then Ok (String c EmptyString, Literal)
      else name_step render page EmptyString c
  | Closed =>
      if Ascii.eqb c "}" then Ok (String c EmptyString, Literal)
      else Raise ValueError
  | InName name => name_step render page name c
  | InIndex name =>
      Ok (EmptyString,
          if Ascii.eqb c "]" then InName (snoc name c)
          else InIndex (snoc name c))
  | AtConversion name => Ok (EmptyString, AfterConversion name c)
  | AfterConversion name conv =>
      if Ascii.eqb c "}" then
        text ← replace_field render page name (Some conv) EmptyString;
        Ok (text, Literal)
      else if Ascii.eqb c ":" then
        Ok (EmptyString, InSpec name (Some conv) EmptyString 0)
      else Raise ValueError
  | InSpec name conv spec depth =>
      if Ascii.eqb c "{" then
        Ok (EmptyString, InSpec name conv (snoc spec c) (S depth))
      else if Ascii.eqb c "}" then
        match depth with
        | O =>
            text ← replace_field render page name conv spec;
            Ok (text, Literal)
        | S depth' => Ok (EmptyString, InSpec name conv (snoc spec c) depth')
        end
      else Ok (EmptyString, InSpec name conv (snoc spec c) depth)
  end.

(** The scan of a format string from [st] on; a string that ends
    anywhere else than in literal text raises. *)
Fixpoint scan (render : field -> Z -> result string) (page : Z)
  (st : scanning) (s : string) : result string :=
  match s with
  | EmptyString =>
      match st with
      | Literal => Ok EmptyString
      | _ => Raise ValueError
      end
  | String c r =>
      '(text, st') ← step render page st c;
      String.append text <$> scan render page st' r
  end.

(** [pattern.format(page=n)] *)
Definition format_page (render : field -> Z -> result string)
  (pattern : string) (page : Z) : result string :=
  scan render page Literal pattern.

(** The digit groups of an integer literal: underscores are allowed only
    one at a time and only between two other characters. *)
Fixpoint ungroup (after_digit : bool) (s : string) : option string :=
  match s with
  | EmptyString => if after_digit then Some EmptyString else None
  | String c r =>
      if Ascii.eqb c "_" then
        if after_digit then ungroup false r else None
      else String c <$> ungroup true r
  end.

(** The most digits [int] reads from a string: the default of
    [sys.set_int_max_str_digits], in CPython 3.11 and later and in the
    later releases of 3.7 to 3.10. *)
Definition max_str_digits : nat := 4300.

(** The value of a run of digit groups; more digits than
    [max_str_digits], or anything else than digits, raises. *)
Definition digits_value (s : string) : result Z :=
  match ungroup false s with
  | Some ds =>
      if (max_str_digits <? String.length ds)%nat then Raise ValueError
      else
        match NilEmpty.uint_of_string ds with
        | Some d => Ok (Z.of_uint d)
        | None => Raise ValueError
        end
  | None => Raise ValueError
  end.

(** The blanks [int] skips around a literal: the six of ASCII, and the
    two other blanks below 256.  The separators U+001C..U+001F, which
    [str.strip] removes, are not among them. *)
Definition isblank (c : ascii) : bool :=
  let n := nat_of_ascii c in
  ((9 <=? n)%nat && (n <=? 13)%nat) || (n =? 32)%nat
  || (n =? 133)%nat || (n =? 160)%nat.

Fixpoint skip_blanks (s : string) : string :=
  match s with
  | String c r => if isblank c then skip_blanks r else s
  | EmptyString => EmptyString
  end.

Fixpoint drop_blanks (s : string) : string :=
  match s with
  | String c r =>
      match drop_blanks r with
      | EmptyString => if isblank c then EmptyString else String c EmptyString
      | r' => String c r'
      end
  | EmptyString => EmptyString
  end.

(** [int(s)] on a string, base 10: the blanks around the literal are
    skipped, a sign may come first, and anything else than digits
    raises. *)
Definition int_of_str (s : string) : result Z :=
  match drop_blanks (skip_blanks s) with
  | String "-" r => v ← digits_value r; Ok (- v)
  | String "+" r => digits_value r
  | t => digits_value t
  end.

(** [range(0, stop, step)] as the list of its elements. *)
Definition range0 (stop step : Z) : result (list Z) :=
  if step =? 0 then Raise ValueError
  else if 0 <? step then
    Ok ((fun k => Z.of_nat k * step) <$> seq 0 (Z.to_nat ((stop + step - 1) / step)))
  else
    Ok ((fun k => Z.of_nat k * step) <$> seq 0 (Z.to_nat ((stop + step + 1) / step))).

(** The bound of a slice, as Python clamps it for a list of length [n]. *)
Definition slice_bound (n i : Z) : Z :=
  if i <? 0 then Z.max 0 (i + n) else Z.min i n.

(** [l[lo:hi]] *)
Definition slice {A} (l : list A) (lo hi : Z) : list A :=
  let n := Z.of_nat (length l) in
  let a := slice_bound n lo in
  let b := slice_bound n hi in
  take (Z.to_nat (b - a)) (drop (Z.to_nat a) l).

(** [l[i]] for an index that is not negative. *)
Definition index {A} (l : list A) (i : nat) : result A :=
  match l !! i with
  | Some a => Ok a
  | None => Raise IndexError
  end.

(** [d[k]] on a dict kept in insertion order. *)
Fixpoint getitem {V} (d : list (string * V)) (k : string) : result V :=
  match d with
  | [] => Raise KeyError
  | (k', v) :: d' => if String.eqb k' k then Ok v else getitem d' k
  end.

End Py.

Import Py.

(** ** Module constants *)

(** Paper sizes in inches (width x height, portrait orientation). *)
Definition PAPERS : list (string * (number * number)) :=
  [ ("4 x 6 in", (PyInt 4, PyInt 6));
    ("5 x 7 in", (PyInt 5, PyInt 7));
    ("A5", (PyFloat 5.83, PyFloat 8.27));
    ("A4", (PyFloat 8.27, PyFloat 11.69));
    ("A3", (PyFloat 11.69, PyFloat 16.54));
    ("Letter", (PyFloat 8.5, PyInt 11));
    ("Legal", (PyFloat 8.5, PyInt 14));
    ("Square 8 in", (PyInt 8, PyInt 8));
    ("Square 12 in", (PyInt 12, PyInt 12)) ].

Definition PAPER_NAMES : list string := PAPERS.*1.

(** Layout presets: label -> (columns, rows); (0, 0) = auto. *)
Definition LAYOUTS : list (string * (Z * Z)) :=
  [ ("Full Page (1)", (1, 1));
    ("2 per page", (1, 2));
    ("2 x 2 (4)", (2, 2));
    ("3 x 3 (9)", (3, 3));
    ("4 x 4 (16)", (4, 4));
    ("5 x 5 (25)", (5, 5));
    ("Contact Sheet", (0, 0)) ].

Definition LAYOUT_NAMES : list string := LAYOUTS.*1.

(** The choices of the DPI row, in the order of its model. *)
Definition DPI_CHOICES : list Z := [150; 300; 600].

(** ** The configuration form and the settings computed from it *)

(** What the widgets of the window hold when a handler reads them:
    [get_selected()] of the combo rows, [get_active()] of the switch,
    [get_value()] of the spin rows, [get_text()] of the entry rows. *)
Record Form : Type := {
  paper_row : nat;
  orient_row : nat;
  dpi_row : nat;
  pdf_row : bool;
  layout_row : nat;
  fill_row : nat;
  border_row : float;
  spacing_row : float;
  margin_row : float;
  bg_row : string;
  border_color_row : string
}.

(** The dict [_gather_settings] returns. *)
Record Settings : Type := {
  tile : string;
  cell_w : Z;
  cell_h : Z;
  border : Z;
  spacing : Z;
  margin : Z;
  bg : string;
  border_color : string;
  canvas_w : Z;
  canvas_h : Z;
  dpi : Z;
  fill : bool;
  pdf : bool
}.

(** [dpi_override or choice]: an override of [None] or [0] is falsy. *)
Definition override_or (dpi_override : option Z) (choice : result Z) : result Z :=
  match dpi_override with
  | Some d => if d =? 0 then choice else Ok d
  | None => choice
  end.

(** The cell size derived from paper, margins and borders, with the tile
    spec: the [if cols > 0 and rows > 0: ... else: ...] block of
    [_gather_settings]. *)
Definition cell_size (canvas_w canvas_h cols rows border spacing margin : Z)
  : string * Z * Z :=
  if (0 <? cols) && (0 <? rows) then
    let cell_w := (canvas_w - 2 * margin - cols * 2 * (border + spacing)) / cols in
    let cell_h := (canvas_h - 2 * margin - rows * 2 * (border + spacing)) / rows in
    let cell_w := Z.max cell_w 64 in
    let cell_h := Z.max cell_h 64 in
    (str cols +:+ "x" +:+ str rows, cell_w, cell_h)
  else
    let cell_w := (canvas_w - 2 * margin) / 6 in
    let cell_h := cell_w in
    ("", cell_w, cell_h).

(** Read all UI values and compute montage parameters. *)
Definition _gather_settings (self : Form) (dpi_override : option Z)
  : result Settings :=
  paper_name ← index PAPER_NAMES (paper_row self);
  '(pw, ph) ← getitem PAPERS paper_name;
  let '(pw, ph) := if (orient_row self =? 1)%nat then (ph, pw) else (pw, ph) in
  dpi ← override_or dpi_override (index DPI_CHOICES (dpi_row self));
  layout_name ← index LAYOUT_NAMES (layout_row self);
  '(cols, rows) ← getitem LAYOUTS layout_name;
  border ← int_of_float (border_row self);
  spacing ← int_of_float (spacing_row self);
  margin ← int_of_float (margin_row self);
  let bg := str_or (strip (bg_row self)) "white" in
  let border_color := str_or (strip (border_color_row self)) "gray" in
  let fill := (fill_row self =? 1)%nat in
  let pdf := pdf_row self in
  w ← mul pw (PyInt dpi);
  canvas_w ← int_of_number w;
  h ← mul ph (PyInt dpi);
  canvas_h ← int_of_number h;
  let '(tile, cell_w, cell_h) :=
    cell_size canvas_w canvas_h cols rows border spacing margin in
  Ok {| tile := tile; cell_w := cell_w; cell_h := cell_h;
        border := border; spacing := spacing; margin := margin;
        bg := bg; border_color := border_color;
        canvas_w := canvas_w; canvas_h := canvas_h;
        dpi := dpi; fill := fill; pdf := pdf |}.

(** Split images into per-page chunks based on grid layout. *)
Definition _chunk_images (images : list string) (s : Settings)
  : result (list (list string)) :=
  if nonempty (tile s) then
    match split "x" (tile s) with
    | [c; r] =>
        cols ← int_of_str c;
        rows ← int_of_str r;
        let per_page := cols * rows in
        starts ← range0 (Z.of_nat (length images)) per_page;
        Ok (fmap (M:=list) (fun i => slice images i (i + per_page)) starts)
    | _ => Raise ValueError
    end
  else Ok [images].

(** The form as the window first shows it: A4, portrait, 300 dpi, 2 x 2,
    border 2, spacing 4, margin 20. *)
Definition default_form : Form :=
  {| paper_row := 3; orient_row := 0; dpi_row := 1; pdf_row := false;
     layout_row := 2; fill_row := 0;
     border_row := 2; spacing_row := 4; margin_row := 20;
     bg_row := "white"; border_color_row := "black" |}.

(** ** pathlib *)

Module Pathlib.

(** A [PurePosixPath]: the root and the components after it; redundant
    separators and single dots are dropped when a string is parsed. *)
Record PurePath : Type := { root : string; parts : list string }.

Definition is_component (c : string) : bool :=
  nonempty c && negb (String.eqb c ".").

Definition root_of (s : string) : string :=
  match s with
  | String "/" (String "/" (String "/" _)) => "/"
  | String "/" (String "/" _) => "//"
  | String "/" _ => "/"
  | _ => ""
  end.

(** [Path(s)] *)
Definition Path (s : string) : PurePath :=
  {| root := root_of s; parts := List.filter is_component (split "/" s) |}.

(** [str(p)] *)
Definition to_str (p : PurePath) : string :=
  match root p, parts p with
  | EmptyString, [] => "."
  | r, ps => r +:+ join "/" ps
  end.

(** [p / segment] *)
Definition joinpath (p : PurePath) (segment : string) : PurePath :=
  let q := Path segment in
  if nonempty (root q) then q
  else {| root := root p; parts := parts p ++ parts q |}.

(** [p.name] *)
Definition name (p : PurePath) : string := List.last (parts p) "".

(** [p.suffix]: the final component from its last dot on, when that dot
    is neither its first nor its last character. *)
Definition suffix (p : PurePath) : string :=
  let n := name p in
  match rfind "." n with
  | Some i =>
      if (0 <? i)%nat && (i <? String.length n - 1)%nat
      then substring i (String.length n - i) n else ""
  | None => ""
  end.

(** [p.stem]: the final component without its suffix. *)
Definition stem (p : PurePath) : string :=
  let n := name p in
  match rfind "." n with
  | Some i =>
      if (0 <? i)%nat && (i <? String.length n - 1)%nat
      then substring 0 i n else n
  | None => n
  end.

(** [p.with_name(new)] *)
Definition with_name (p : PurePath) (new : string) : result PurePath :=
  if negb (nonempty (name p)) then Raise ValueError
  else
    let q := Path new in
    if negb (nonempty new) || endswith new "/" || nonempty (root q)
       || negb (length (parts q) =? 1)%nat
    then Raise ValueError
    else Ok {| root := root p; parts := removelast (parts p) ++ [new] |}.

End Pathlib.

(** ** The operating system and the toolkit *)

(** What [subprocess.run(..., capture_output=True)] hands back. *)
Record CompletedProcess : Type := {
  returncode : Z;
  stdout : list Byte.byte;
  stderr : list Byte.byte
}.

(** The environment a handler runs in: the state of the machine
    ([World]), the command search path ([shutil.which]), temporary
    directories ([tempfile.mkdtemp]), child processes (what running a
    command line on some input does to the machine, and what the process
    hands back), the decoding of diagnostic output
    ([bytes.decode("utf-8", errors="replace")], one character of the
    result per element of the string), and the part of [str.format] that
    [Py.replace_field] does not interpret: what a replacement field on
    the page number gives when it has attribute or index lookups or a
    format specification to apply. *)
Class OS : Type := {
  World : Type;
  which : World -> string -> option string;
  mkdtemp : World -> string -> World * string;
  spawn : World -> list string -> option (list Byte.byte)
          -> World * CompletedProcess;
  decode : list Byte.byte -> string;
  format_field : Py.field -> Z -> result string
}.

(** What can be raised where child processes are run: a built-in
    exception, or [subprocess.CalledProcessError]. *)
Inductive exn : Type :=
| Builtin (e : error)
| CalledProcessError (cmd : list string) (returncode : Z)
    (output stderr : list Byte.byte).

(** How a handler, or a part of one, ends. *)
Inductive outcome (A : Type) : Type :=
| Return (a : A)
| Throw (e : exn).

Arguments Return {A} a.
Arguments Throw {A} e.

(** What a handler does that can be seen from outside, in order: a toast
    on the overlay, a child process with its command line, its input and
    what it handed back, the save dialog being opened, the preview window
    being presented or closed. *)
Inductive Event : Type :=
| Toast (title : string)
| Run (cmd : list string) (input : option (list Byte.byte))
    (r : CompletedProcess)
| SaveDialog (initial_name : string) (s : Settings)
| PresentPreview (pages : list string) (shown : string)
| ClosePreview.

(** The fields of the window the handlers read: the image list and the
    form. *)
Record Window : Type := {
  images : list string;
  form : Form
}.

(** The mutable part: the machine, and the fields of the window that
    track the preview ([_preview_win] is whether one is open). *)
Record State `{OS} : Type := {
  os : World;
  _preview_win : bool;
  _preview_pages : list string;
  _preview_idx : Z
}.

(** Computations that log events, change the state and may raise. *)
Definition M `{OS} (A : Type) : Type :=
  State -> list Event * State * outcome A.

#[global] Instance M_ret `{OS} : MRet M := fun _ a st => ([], st, Return a).
#[global] Instance M_bind `{OS} : MBind M := fun _ _ f m st =>
  match m st with
  | (evs, st', Return a) =>
      let '(evs', st'', r) := f a st' in (evs ++ evs', st'', r)
  | (evs, st', Throw e) => (evs, st', Throw e)
  end.

(** A pure computation inside a handler. *)
Definition lift `{OS} {A} (r : result A) : M A := fun st =>
  match r with
  | Ok a => ([], st, Return a)
  | Raise e => ([], st, Throw (Builtin e))
  end.

(** Records an event. *)
Definition emit `{OS} (e : Event) : M unit := fun st => ([e], st, Return tt).

(** Reads, and replaces, the state. *)
Definition get `{OS} : M State := fun st => ([], st, Return st).

Definition put `{OS} (st : State) : M unit := fun _ => ([], st, Return tt).

(** [try: body except subprocess.CalledProcessError as e: handler(e.stderr)] *)
Definition try_except `{OS} {A} (body : M A) (handler : list Byte.byte -> M A)
  : M A := fun st =>
  match body st with
  | (evs, st', Throw (CalledProcessError _ _ _ err)) =>
      let '(evs', st'', r) := handler err st' in (evs ++ evs', st'', r)
  | out => out
  end.

(** [self.toast_overlay.add_toast(Adw.Toast(title=...))] *)
Definition add_toast `{OS} (title : string) : M unit := emit (Toast title).

(** [shutil.which(prog)] *)
Definition shutil_which `{OS} (prog : string) : M (option string) :=
  fun st => ([], st, Return (which (os st) prog)).

(** [tempfile.mkdtemp(prefix=...)] *)
Definition tempfile_mkdtemp `{OS} (prefix : string) : M string := fun st =>
  let '(w, dir) := mkdtemp (os st) prefix in
  ([], {| os := w; _preview_win := _preview_win st;
          _preview_pages := _preview_pages st;
          _preview_idx := _preview_idx st |}, Return dir).

(** [subprocess.run(cmd, input=..., capture_output=True, check=True)] *)
Definition subprocess_run `{OS} (cmd : list string)
  (input : option (list Byte.byte)) : M CompletedProcess := fun st =>
  let '(w, r) := spawn (os st) cmd input in
  ([Run cmd input r],
   {| os := w; _preview_win := _preview_win st;
      _preview_pages := _preview_pages st;
      _preview_idx := _preview_idx st |},
   if returncode r =? 0 then Return r
   else Throw (CalledProcessError cmd (returncode r) (stdout r) (stderr r))).

(** ** The handlers of the window *)

Import Pathlib.

Definition _check_ready `{OS} (self : Window) : M bool :=
  if bool_decide (images self = []) then
    _ ← add_toast "Add some images first"; mret false
  else
    found ← shutil_which "magick";
    if negb (nonempty (default "" found)) then
      _ ← add_toast "ImageMagick not found - install it first"; mret false
    else mret true.

(** The compose stage of [_run_montage]. *)
Definition cmd1 (imgs : list string) (s : Settings) : list string :=
  ["magick"; "montage"] ++ imgs
   ++ (if fill s then
         [ "-resize"; str (cell_w s) +:+ "x" +:+ str (cell_h s) +:+ "^";
           "-gravity"; "center";
           "-extent"; str (cell_w s) +:+ "x" +:+ str (cell_h s);
           "-geometry"; "+" +:+ str (spacing s) +:+ "+" +:+ str (spacing s) ]
       else
         [ "-geometry";
           str (cell_w s) +:+ "x" +:+ str (cell_h s)
             +:+ "+" +:+ str (spacing s) +:+ "+" +:+ str (spacing s) ])
   ++ (if nonempty (tile s) then ["-tile"; tile s] else [])
   ++ ["-border"; str (border s)]
   ++ ["-bordercolor"; border_color s]
   ++ ["-background"; bg s]
   ++ ["png:-"].

(** The fit-to-canvas stage of [_run_montage]. *)
Definition cmd2 (s : Settings) (dest : string) : list string :=
  [ "magick"; "-"; "-gravity"; "center"; "-background"; bg s;
    "-extent"; str (canvas_w s) +:+ "x" +:+ str (canvas_h s);
    "-units"; "PixelsPerInch"; "-density"; str (dpi s); dest ].

(** Run montage for one page, center on canvas, save. *)
Definition _run_montage `{OS} (imgs : list string) (s : Settings)
  (dest : string) : M unit :=
  r1 ← subprocess_run (cmd1 imgs s) None;
  _ ← subprocess_run (cmd2 s dest) (Some (stdout r1));
  mret tt.

(** The loop of [_run_all_pages]: [i] counts the chunks already done. *)
Fixpoint run_pages `{OS} (s : Settings) (dest_pattern : string) (i : Z)
  (chunks : list (list string)) (paths : list string) : M (list string) :=
  match chunks with
  | [] => mret paths
  | chunk :: rest =>
      dest ← lift (format_page format_field dest_pattern (i + 1));
      _ ← _run_montage chunk s dest;
      run_pages s dest_pattern (i + 1) rest (paths ++ [dest])
  end.

(** Generate all pages. Returns list of output file paths. *)
Definition _run_all_pages `{OS} (self : Window) (s : Settings)
  (dest_pattern : string) : M (list string) :=
  chunks ← lift (_chunk_images (images self) s);
  run_pages s dest_pattern 0 chunks [].

(** [self._preview_win.close()], which runs [_on_preview_close]. *)
Definition close_preview `{OS} : M unit :=
  st ← get;
  _ ← emit ClosePreview;
  put {| os := os st; _preview_win := false; _preview_pages := [];
         _preview_idx := _preview_idx st |}.

Definition _show_preview `{OS} (pages : list string) : M unit :=
  st ← get;
  _ ← (if _preview_win st then close_preview else mret tt);
  st ← get;
  _ ← put {| os := os st; _preview_win := true; _preview_pages := pages;
             _preview_idx := 0 |};
  first ← lift (index pages 0);
  emit (PresentPreview pages first).

(** The text of the error toast: the diagnostic output, decoded, stripped
    and cut to 120 characters. *)
Definition error_excerpt `{OS} (err : list Byte.byte) : string :=
  prefix_of 120 (strip (decode err)).

Definition error_toast `{OS} (err : list Byte.byte) : M unit :=
  add_toast ("Error: " +:+ error_excerpt err).

Definition _on_preview `{OS} (self : Window) : M unit :=
  ready ← _check_ready self;
  if negb ready then mret tt
  else
    s ← lift (_gather_settings (form self) (Some 72));
    tmpdir ← tempfile_mkdtemp "photogrid_";
    let pattern := to_str (joinpath (Path tmpdir) "page-{page}.png") in
    pages ← try_except
              (pages ← _run_all_pages self s pattern; mret (Some pages))
              (fun err => _ ← error_toast err; mret None);
    match pages with
    | Some pages => _show_preview pages
    | None => mret tt
    end.

Definition _on_generate `{OS} (self : Window) : M unit :=
  ready ← _check_ready self;
  if negb ready then mret tt
  else
    s ← lift (_gather_settings (form self) None);
    let name := if pdf s then "grid.pdf" else "grid.jpg" in
    emit (SaveDialog name s).

(** The loop of the last branch of [_on_save_ready], one file per chunk;
    [i] is the number of the next page. *)
Fixpoint save_pages `{OS} (s : Settings) (p : PurePath) (stem ext : string)
  (i : Z) (chunks : list (list string)) : M unit :=
  match chunks with
  | [] => mret tt
  | chunk :: rest =>
      q ← lift (with_name p (stem +:+ "-" +:+ str i +:+ ext));
      _ ← _run_montage chunk s (to_str q);
      save_pages s p stem ext (i + 1) rest
  end.

(** [dest] is the path the save dialog returned, [None] when it was
    cancelled. *)
Definition _on_save_ready `{OS} (self : Window) (dest : option string)
  (s : Settings) : M unit :=
  match dest with
  | None => mret tt
  | Some dest =>
      chunks ← lift (_chunk_images (images self) s);
      try_except
        (_ ← (if pdf s then
                tmpdir ← tempfile_mkdtemp "photogrid_pdf_";
                let pattern :=
                  to_str (joinpath (Path tmpdir) "page-{page}.png") in
                page_files ← _run_all_pages self s pattern;
                let dest :=
                  if negb (endswith (lower dest) ".pdf")
                  then dest +:+ ".pdf" else dest in
                let cmd :=
                  ["magick"] ++ page_files
                  ++ ["-units"; "PixelsPerInch"; "-density"; str (dpi s);
                      dest] in
                _ ← subprocess_run cmd None;
                add_toast ("Saved " +:+ str (Z.of_nat (length page_files))
                           +:+ "-page PDF")
              else if (length chunks =? 1)%nat then
                chunk ← lift (index chunks 0);
                _ ← _run_montage chunk s dest;
                add_toast ("Saved to " +:+ name (Path dest))
              else
                let p := Path dest in
                let stem := stem p in
                let ext := str_or (suffix p) ".jpg" in
                _ ← save_pages s p stem ext 1 chunks;
                add_toast ("Saved " +:+ str (Z.of_nat (length chunks))
                           +:+ " files"));
         st ← get;
         if _preview_win st then close_preview else mret tt)
        error_toast
  end.

(** ** A scripted machine for the examples *)

(** ImageMagick is on the search path when [installed]; the world counts
    the child processes started so far, and the one numbered [fail_at]
    exits with status 1 and the diagnostic [diag].  [format_field] is
    never consulted: the patterns of the examples have no field on the
    page number but [{page}] itself. *)
Definition scripted_os (installed : bool) (fail_at : option nat)
  (diag : string) : OS :=
  {| World := nat;
     which := fun _ prog =>
       if installed && String.eqb prog "magick"
       then Some "/usr/bin/magick" else None;
     mkdtemp := fun w prefix => (w, "/tmp/" +:+ prefix +:+ "x7k2m9qa");
     spawn := fun w _ _ =>
       (S w,
        if bool_decide (fail_at = Some w)
        then {| returncode := 1; stdout := [];
                stderr := list_byte_of_string diag |}
        else {| returncode := 0; stdout := []; stderr := [] |});
     decode := string_of_list_byte;
     format_field := fun _ _ => Raise ValueError |}.

Definition initial_state (os : OS) (w : @World os) : @State os :=
  {| os := w; _preview_win := false; _preview_pages := [];
     _preview_idx := 0 |}.

Definition nine_images : list string :=
  ["/p/1.jpg"; "/p/2.jpg"; "/p/3.jpg"; "/p/4.jpg"; "/p/5.jpg";
   "/p/6.jpg"; "/p/7.jpg"; "/p/8.jpg"; "/p/9.jpg"].

(** The contact-sheet layout on 4 x 6 in paper, otherwise the defaults. *)
Definition contact_form : Form :=
  {| paper_row := 0; orient_row := 0; dpi_row := 1; pdf_row := false;
     layout_row := 6; fill_row := 0;
     border_row := 2; spacing_row := 4; margin_row := 20;
     bg_row := "white"; border_color_row := "black" |}.

(** ** Definitions for the statements and the proofs *)

(** [p] holds of every character of [s]. *)
Fixpoint all_chars (p : ascii -> bool) (s : string) : bool :=
  match s with
  | EmptyString => true
  | String c r => p c && all_chars p r
  end.

(** The ten decimal digits. *)
Definition isdigit (c : ascii) : bool :=
  let n := nat_of_ascii c in (48 <=? n)%nat && (n <=? 57)%nat.

(** A character that is neither whitespace nor one of the separators the
    program splits or groups on. *)
Definition plain (c : ascii) : bool :=
  negb (isspace c) && negb (Ascii.eqb c "_") && negb (Ascii.eqb c "x")
  && negb (Ascii.eqb c "/").

(** A tile spec that reads as [C] columns by [R] rows: two integer
    literals with one [x] between them, as [_chunk_images] takes it apart.
    Both ["2x2"], which the planner writes, and ["2 x 2"] read as 2 by 2. *)
Definition reads_as (t : string) (C R : Z) : Prop :=
  exists c r, split "x" t = [c; r] /\ int_of_str c = Ok C /\ int_of_str r = Ok R.

(** The ceiling of [a / b]. *)
Definition ceil_div (a b : Z) : Z := - ((- a) / b).

(** The consecutive groups of [p] elements of [l], [m] of them. *)
Definition groups {A} (p m : nat) (l : list A) : list (list A) :=
  (fun k : nat => take p (drop (k * p) l)) <$> seq 0 m.

(** The paper dimensions a form selects, in inches, width first, after
    the orientation swap. *)
Definition paper_inches (self : Form) : result (number * number) :=
  paper_name ← index PAPER_NAMES (paper_row self);
  '(pw, ph) ← getitem PAPERS paper_name;
  Ok (if (orient_row self =? 1)%nat then (ph, pw) else (pw, ph)).

(** The grid shape a form selects: (columns, rows). *)
Definition grid_shape (self : Form) : result (Z * Z) :=
  layout_name ← index LAYOUT_NAMES (layout_row self);
  getitem LAYOUTS layout_name.

(** [int(inches * dpi)] *)
Definition pixels (inches : number) (dpi : Z) : result Z :=
  x ← mul inches (PyInt dpi); int_of_number x.

(** Takes a successful chain of binds in [H] apart, step by step. *)
Ltac bind_inv H :=
  unfold mbind, result_bind in H;
  repeat match type of H with
    | match ?m with Ok _ => _ | Raise _ => _ end = Ok _ =>
        let E := fresh "E" in
        destruct m as [?|?] eqn:E; cbv beta iota in H; [|discriminate H]
    | (let '(_, _) := ?p in _) = Ok _ =>
        let E := fresh "E" in destruct p eqn:E; cbv beta iota in H
    end.

(** The paper sizes read as exact decimals, in hundredths of an inch. *)
Definition PAPERS_EXACT : list (string * (Z * Z)) :=
  [ ("4 x 6 in", (400, 600));
    ("5 x 7 in", (500, 700));
    ("A5", (583, 827));
    ("A4", (827, 1169));
    ("A3", (1169, 1654));
    ("Letter", (850, 1100));
    ("Legal", (850, 1400));
    ("Square 8 in", (800, 800));
    ("Square 12 in", (1200, 1200)) ].

(** [paper_inches] in hundredths of an inch. *)
Definition paper_exact (self : Form) : result (Z * Z) :=
  paper_name ← index PAPER_NAMES (paper_row self);
  '(pw, ph) ← getitem PAPERS_EXACT paper_name;
  Ok (if (orient_row self =? 1)%nat then (ph, pw) else (pw, ph)).

(** The resolutions the handlers plan with: the choices of the DPI row,
    and 72 for previews. *)
Definition PLANNED_DPI : list Z := 72 :: DPI_CHOICES.

(** Whether [int(inches * d)] is [v]. *)
Definition pixels_eqb (inches : number) (d v : Z) : bool :=
  match pixels inches d with
  | Ok u => u =? v
  | Raise _ => false
  end.

(** Whether, for the paper numbered [i], truncating the floating-point
    product gives the floor of the exact product, at every planned
    resolution. *)
Definition paper_agrees (i : nat) : bool :=
  match index PAPER_NAMES i with
  | Ok n =>
      match getitem PAPERS n, getitem PAPERS_EXACT n with
      | Ok (a, b), Ok (x, y) =>
          forallb (fun d => pixels_eqb a d (x * d / 100)
                            && pixels_eqb b d (y * d / 100)) PLANNED_DPI
          && (400 <=? x) && (400 <=? y)
      | _, _ => false
      end
  | Raise _ => true
  end.

(** The canvas as the sentence about rounding has it:
    [round(width_in * dpi)] by [round(height_in * dpi)]. *)
Definition rounded_canvas (self : Form) (d : Z) : result (Z * Z) :=
  '(pw, ph) ← paper_inches self;
  w ← mul pw (PyInt d);
  cw ← round w;
  h ← mul ph (PyInt d);
  ch ← round h;
  Ok (cw, ch).

(** The canvas [_gather_settings] computes. *)
Definition planned_canvas (self : Form) (o : option Z) : result (Z * Z) :=
  s ← _gather_settings self o; Ok (canvas_w s, canvas_h s).

(** A4, portrait, 150 dpi. *)
Definition a4_draft_form : Form :=
  {| paper_row := 3; orient_row := 0; dpi_row := 0; pdf_row := false;
     layout_row := 2; fill_row := 0;
     border_row := 2; spacing_row := 4; margin_row := 20;
     bg_row := "white"; border_color_row := "black" |}.

(** 4 x 6 in at 150 dpi on a 2 x 2 grid, with border 50, spacing 50 and
    margin 200: more than the canvas holds. *)
Definition tight_form : Form :=
  {| paper_row := 0; orient_row := 0; dpi_row := 0; pdf_row := false;
     layout_row := 2; fill_row := 0;
     border_row := 50; spacing_row := 50; margin_row := 200;
     bg_row := "white"; border_color_row := "black" |}.

(** The form with another choice in the DPI row. *)
Definition with_dpi_row (k : nat) (self : Form) : Form :=
  {| paper_row := paper_row self; orient_row := orient_row self;
     dpi_row := k; pdf_row := pdf_row self;
     layout_row := layout_row self; fill_row := fill_row self;
     border_row := border_row self; spacing_row := spacing_row self;
     margin_row := margin_row self;
     bg_row := bg_row self; border_color_row := border_color_row self |}.

(** What [_gather_settings] gives on [a4_draft_form]. *)
Definition a4_draft_settings : Settings :=
  {| tile := "2x2"; cell_w := 588; cell_h := 844; border := 2; spacing := 4;
     margin := 20; bg := "white"; border_color := "black";
     canvas_w := 1240; canvas_h := 1753; dpi := 150; fill := false;
     pdf := false |}.

(** A child process that exited with status 0, or any other event. *)
Definition succeeded (e : Event) : Prop :=
  match e with
  | Run _ _ r => returncode r = 0
  | _ => True
  end.

(** The text the handlers show for a failed child process. *)
Definition error_title `{OS} (r : CompletedProcess) : string :=
  "Error: " +:+ error_excerpt (stderr r).

(** What running a computation leaves behind: if a child process failed,
    it is the last thing that happened and its exception is what
    propagates; otherwise every child process succeeded. *)
Definition tidy `{OS} {A} (out : list Event * State * outcome A) : Prop :=
  match out with
  | (evs, _, Throw (CalledProcessError c _ _ err)) =>
      exists pre i r,
        evs = pre ++ [Run c i r] /\ Forall succeeded pre
        /\ returncode r <> 0 /\ stderr r = err
  | (evs, _, _) => Forall succeeded evs
  end.

(** What a handler leaves behind: a failed child process is followed by
    its error toast and by nothing else, and none failed before it. *)
Definition settled `{OS} (out : list Event * State * outcome unit) : Prop :=
  forall pre c i r post,
    out.1.1 = pre ++ Run c i r :: post -> returncode r <> 0 ->
    Forall succeeded pre /\ post = [Toast (error_title r)]
    /\ out.2 = Return tt.

(** Every event of a computation satisfies [P]. *)
Definition emits `{OS} {A} (P : Event -> Prop) (m : M A) : Prop :=
  forall st, Forall P (m st).1.1.

(** A computation that starts no failing child process and lets no
    [CalledProcessError] out. *)
Definition calm `{OS} {A} (m : M A) : Prop :=
  forall st,
    Forall succeeded (m st).1.1
    /\ forall c rc o err, (m st).2 <> Throw (CalledProcessError c rc o err).

(** ImageMagick installed; the fourth child process fails. *)
Definition failing_os : OS := scripted_os true (Some 3%nat) "  montage: boom  ".

(** ImageMagick installed; every child process succeeds. *)
Definition working_os : OS := scripted_os true None "".

(** ImageMagick not installed. *)
Definition bare_os : OS := scripted_os false None "".

(** The window with nine images and the default form. *)
Definition nine_window : Window :=
  {| images := nine_images; form := default_form |}.

(** The window before any image is added. *)
Definition empty_window : Window := {| images := []; form := default_form |}.

(** The toast [_check_ready] shows when the window is not ready. *)
Definition not_ready_title (self : Window) : string :=
  if bool_decide (images self = []) then "Add some images first"
  else "ImageMagick not found - install it first".

(** A child process whose command line is built from the settings of a
    preview, or any other event. *)
Definition planned_at_72 (self : Window) (e : Event) : Prop :=
  match e with
  | Run c _ _ =>
      exists s,
        _gather_settings (form self) (Some 72) = Ok s /\ dpi s = 72
        /\ ((exists imgs, c = cmd1 imgs s) \/ (exists dest, c = cmd2 s dest))
  | _ => True
  end.

(** Any character but the path separator. *)
Definition noslash (c : ascii) : bool := negb (Ascii.eqb c "/").

(** The name of page [i] beside [dest]: [f"{stem}-{i}{ext}"]. *)
Definition page_name (dest : string) (i : Z) : string :=
  stem (Path dest) +:+ "-" +:+ str i
  +:+ str_or (suffix (Path dest)) ".jpg".

(** The sibling of [dest] with that name. *)
Definition page_path (dest : string) (i : Z) : string :=
  to_str {| root := root (Path dest);
            parts := removelast (parts (Path dest)) ++ [page_name dest i] |}.

(** The path the sentence about inserting the index describes: the
    destination with ["-i"] between its stem and its extension. *)
Definition inserted_path (dest : string) (i : Z) : string :=
  to_str {| root := root (Path dest);
            parts := removelast (parts (Path dest))
                     ++ [stem (Path dest) +:+ "-" +:+ str i
                         +:+ suffix (Path dest)] |}.

(** The two child processes that render one chunk to [dest]. *)
Definition page_events (s : Settings) (chunk : list string) (dest : string)
  (rs : CompletedProcess * CompletedProcess) : list Event :=
  [Run (cmd1 chunk s) None rs.1; Run (cmd2 s dest) (Some (stdout rs.1)) rs.2].

(** The child processes that render the chunks to the numbered siblings
    of [dest], from page [i] on. *)
Fixpoint pages_events (s : Settings) (dest : string) (i : Z)
  (chunks : list (list string))
  (results : list (CompletedProcess * CompletedProcess)) : list Event :=
  match chunks, results with
  | chunk :: cs, rs :: rest =>
      page_events s chunk (page_path dest i) rs
      ++ pages_events s dest (i + 1) cs rest
  | _, _ => []
  end.

(** The files written: the last argument of every child process that is
    fed the composed image. *)
Definition output_files (evs : list Event) : list string :=
  omap (fun e => match e with
                 | Run cmd (Some _) _ => last cmd
                 | _ => None
                 end) evs.

(** The preview window once [close_preview] has run. *)
Definition closed `{OS} (st : State) : State :=
  {| os := os st; _preview_win := false; _preview_pages := [];
     _preview_idx := _preview_idx st |}.

(** What [_gather_settings] gives on [default_form]. *)
Definition default_settings : Settings :=
  {| tile := "2x2"; cell_w := 1208; cell_h := 1721; border := 2; spacing := 4;
     margin := 20; bg := "white"; border_color := "black";
     canvas_w := 2481; canvas_h := 3507; dpi := 300; fill := false;
     pdf := false |}.

(** What [_gather_settings] gives on [contact_form] for a preview. *)
Definition contact_settings : Settings :=
  {| tile := ""; cell_w := 41; cell_h := 41; border := 2; spacing := 4;
     margin := 20; bg := "white"; border_color := "black";
     canvas_w := 288; canvas_h := 432; dpi := 72; fill := false;
     pdf := false |}.

(** The chunks of [nine_images] on a 2 x 2 grid. *)
Definition nine_chunks : list (list string) :=
  [ ["/p/1.jpg"; "/p/2.jpg"; "/p/3.jpg"; "/p/4.jpg"];
    ["/p/5.jpg"; "/p/6.jpg"; "/p/7.jpg"; "/p/8.jpg"];
    ["/p/9.jpg"] ].

(** ** The image list of the window *)

Module ImageList.

(** A row of the list box: [Adw.ActionRow(title=Path(path).name,
    subtitle=path)].  Rows are told apart by what they show. *)
Record ActionRow : Type := { title : string; subtitle : string }.

#[global] Instance ActionRow_eq_dec : EqDecision ActionRow.
Proof. solve_decision. Defined.

(** The part of the window the file handlers change: [self.images], the
    rows of [self.listbox], and the visible child of [self.img_stack]. *)
Record t : Type := {
  images : list string;
  listbox : list ActionRow;
  img_stack : string
}.

(** The window as [__init__] leaves it. *)
Definition initial : t :=
  {| images := []; listbox := []; img_stack := "empty" |}.

(** [l.remove(x)]: drops the first element equal to [x]; raises when
    there is none. *)
Fixpoint remove (x : string) (l : list string) : result (list string) :=
  match l with
  | [] => Raise ValueError
  | y :: r => if bool_decide (y = x) then Ok r else cons y <$> remove x r
  end.

(** [self.listbox.remove(row)]: a row that is not in the box is left
    alone. *)
Fixpoint remove_row (row : ActionRow) (l : list ActionRow) : list ActionRow :=
  match l with
  | [] => []
  | y :: r => if bool_decide (y = row) then r else y :: remove_row row r
  end.

Definition _update_visibility (self : t) : t :=
  {| images := images self; listbox := listbox self;
     img_stack := match images self with [] => "empty" | _ => "list" end |}.

(** The row [_add_image_row] builds for a path. *)
Definition row_of (path : string) : ActionRow :=
  {| title := Pathlib.name (Pathlib.Path path); subtitle := path |}.

Definition _add_image_row (self : t) (path : string) : t :=
  {| images := images self; listbox := listbox self ++ [row_of path];
     img_stack := img_stack self |}.

(** One turn of the loop of [_on_files_ready]; [path] is what
    [get_path()] gave, [None] for a file without a local path. *)
Definition add_file (self : t) (path : option string) : t :=
  match path with
  | Some p =>
      if nonempty p && negb (bool_decide (p ∈ images self)) then
        _add_image_row
          {| images := images self ++ [p]; listbox := listbox self;
             img_stack := img_stack self |} p
      else self
  | None => self
  end.

(** [files] is what the dialog returned, [None] when it was cancelled. *)
Definition _on_files_ready (self : t) (files : option (list (option string)))
  : t :=
  match files with
  | None => self
  | Some files => _update_visibility (foldl add_file self files)
  end.

(** [path] and [row] are the ones the button of the row was connected
    with. *)
Definition _on_remove_image (self : t) (path : string) (row : ActionRow)
  : result t :=
  imgs ← remove path (images self);
  Ok (_update_visibility
        {| images := imgs; listbox := remove_row row (listbox self);
           img_stack := img_stack self |}).

(** The loop of [_on_clear]: the first row is removed until none is
    left. *)
Fixpoint clear_rows (l : list ActionRow) : list ActionRow :=
  match l with
  | [] => []
  | _ :: rest => clear_rows rest
  end.

Definition _on_clear (self : t) : t :=
  _update_visibility
    {| images := []; listbox := clear_rows (listbox self);
       img_stack := img_stack self |}.

(** What the handlers keep true: no path twice, none empty, one row per
    image in the same order, and the list shown exactly when there is an
    image. *)
Definition consistent (self : t) : Prop :=
  NoDup (images self)
  /\ Forall (fun p => nonempty p = true) (images self)
  /\ listbox self = row_of <$> images self
  /\ img_stack self = match images self with [] => "empty" | _ => "list" end.

(** The paths of a selection that [_on_files_ready] takes up, in order:
    those with a name that are neither in the list nor earlier in the
    selection. *)
Fixpoint fresh (seen : list string) (files : list (option string))
  : list string :=
  match files with
  | [] => []
  | Some p :: rest =>
      if nonempty p && negb (bool_decide (p ∈ seen))
      then p :: fresh (seen ++ [p]) rest else fresh seen rest
  | None :: rest => fresh seen rest
  end.

End ImageList.

(** ** Paging through the preview *)

Module PreviewNav.

(** The navigation widgets of the header bar, which exist together: the
    text of [_page_label] and whether [_prev_btn] and [_next_btn] are
    sensitive. *)
Record NavBar : Type := {
  page_label : string;
  prev_sensitive : bool;
  next_sensitive : bool
}.

(** The fields of the window the navigation works on;
    [_preview_picture] is the file shown, [nav] is [None] where the
    source has [_prev_btn = _next_btn = _page_label = None]. *)
Record t : Type := {
  _preview_pages : list string;
  _preview_idx : Z;
  _preview_picture : string;
  nav : option NavBar
}.

(** [l[i]] for any integer index: negative ones count from the end. *)
Definition item {A} (l : list A) (i : Z) : result A :=
  let n := Z.of_nat (length l) in
  if i <? 0 then
    if i + n <? 0 then Raise IndexError else index l (Z.to_nat (i + n))
  else index l (Z.to_nat i).

Definition _update_preview_nav (self : t) : t :=
  match nav self with
  | None => self
  | Some _ =>
      let n := Z.of_nat (length (_preview_pages self)) in
      let i := _preview_idx self in
      {| _preview_pages := _preview_pages self;
         _preview_idx := _preview_idx self;
         _preview_picture := _preview_picture self;
         nav := Some {| page_label := str (i + 1) +:+ " / " +:+ str n;
                        prev_sensitive := 0 <? i;
                        next_sensitive := i <? n - 1 |} |}
  end.

Definition _on_preview_nav (self : t) (direction : Z) : result t :=
  let idx :=
    Z.max 0 (Z.min (_preview_idx self + direction)
               (Z.of_nat (length (_preview_pages self)) - 1)) in
  shown ← item (_preview_pages self) idx;
  Ok (_update_preview_nav
        {| _preview_pages := _preview_pages self; _preview_idx := idx;
           _preview_picture := shown; nav := nav self |}).

(** What [_show_preview] sets up for the navigation: the pages, the
    index, the widgets when there is more than one page, the first page
    in the picture. *)
Definition _show_preview (pages : list string) : result t :=
  let nav :=
    if (1 <? length pages)%nat then
      Some {| page_label := "1 / " +:+ str (Z.of_nat (length pages));
              prev_sensitive := true; next_sensitive := true |}
    else None in
  shown ← item pages 0;
  Ok (_update_preview_nav
        {| _preview_pages := pages; _preview_idx := 0;
           _preview_picture := shown; nav := nav |}).

(** Clicks on the buttons, one after the other. *)
Fixpoint clicks (self : t) (directions : list Z) : result t :=
  match directions with
  | [] => Ok self
  | d :: rest => self' ← _on_preview_nav self d; clicks self' rest
  end.

(** What the navigation keeps true: the index is that of a page, that
    page is the one shown, and the widgets, which exist exactly when
    there is more than one page, say where one is. *)
Definition consistent (self : t) : Prop :=
  let n := Z.of_nat (length (_preview_pages self)) in
  let i := _preview_idx self in
  0 <= i < n
  /\ _preview_pages self !! Z.to_nat i = Some (_preview_picture self)
  /\ nav self
     = if (1 <? length (_preview_pages self))%nat then
         Some {| page_label := str (i + 1) +:+ " / " +:+ str n;
                 prev_sensitive := 0 <? i;
                 next_sensitive := i <? n - 1 |}
       else None.

(** A preview of two pages, on the first. *)
Definition two_pages : t :=
  {| _preview_pages := ["a.png"; "b.png"]; _preview_idx := 0;
     _preview_picture := "a.png";
     nav := Some {| page_label := "1 / 2"; prev_sensitive := false;
                    next_sensitive := true |} |}.

End PreviewNav.

(** ** More definitions for the statements *)

(** The form with another choice in the orientation row. *)
Definition with_orient_row (k : nat) (self : Form) : Form :=
  {| paper_row := paper_row self; orient_row := k;
     dpi_row := dpi_row self; pdf_row := pdf_row self;
     layout_row := layout_row self; fill_row := fill_row self;
     border_row := border_row self; spacing_row := spacing_row self;
     margin_row := margin_row self;
     bg_row := bg_row self; border_color_row := border_color_row self |}.

(** The width (or height) the planner accounts for: [n] cells of side
    [cell], each with border and spacing on both sides, between the two
    margins. *)
Definition tiled (n cell border spacing margin : Z) : Z :=
  n * (cell + 2 * (border + spacing)) + 2 * margin.

(** The settings with another tile spec. *)
Definition with_tile (t : string) (s : Settings) : Settings :=
  {| tile := t; cell_w := cell_w s; cell_h := cell_h s;
     border := border s; spacing := spacing s; margin := margin s;
     bg := bg s; border_color := border_color s;
     canvas_w := canvas_w s; canvas_h := canvas_h s; dpi := dpi s;
     fill := fill s; pdf := pdf s |}.

(** The form with other texts in the two colour rows. *)
Definition with_colors (b c : string) (self : Form) : Form :=
  {| paper_row := paper_row self; orient_row := orient_row self;
     dpi_row := dpi_row self; pdf_row := pdf_row self;
     layout_row := layout_row self; fill_row := fill_row self;
     border_row := border_row self; spacing_row := spacing_row self;
     margin_row := margin_row self;
     bg_row := b; border_color_row := c |}.

(** A string that does not begin with whitespace. *)
Definition starts_solid (s : string) : bool :=
  match s with
  | String c _ => negb (isspace c)
  | EmptyString => true
  end.

(** Any character but a brace. *)
Definition nobrace (c : ascii) : bool :=
  negb (Ascii.eqb c "{") && negb (Ascii.eqb c "}").

(** What [str(Path(t) / name)] puts before [name]: the root of [t] and
    its components, each followed by the separator. *)
Definition dir_prefix (t : string) : string :=
  root (Path t) +:+ foldr (fun p acc => p +:+ "/" +:+ acc) "" (parts (Path t)).

(** The file of page [i] in the temporary directory [t]. *)
Definition temp_page (t : string) (i : Z) : string :=
  dir_prefix t +:+ "page-" +:+ str i +:+ ".png".

(** The files of [n] pages in the temporary directory [t]. *)
Definition temp_pages (t : string) (n : nat) : list string :=
  (fun k : nat => temp_page t (1 + Z.of_nat k)) <$> seq 0 n.

(** The child processes that render each chunk to the file beside it. *)
Fixpoint render_events (s : Settings) (jobs : list (list string * string))
  (results : list (CompletedProcess * CompletedProcess)) : list Event :=
  match jobs, results with
  | (chunk, dest) :: js, rs :: rest =>
      page_events s chunk dest rs ++ render_events s js rest
  | _, _ => []
  end.

(** The destination of a document: the path chosen in the dialog, with
    [.pdf] added unless it ends with it already, in either case. *)
Definition pdf_dest (dest : string) : string :=
  if negb (endswith (lower dest) ".pdf") then dest +:+ ".pdf" else dest.

(** The command line that merges the pages into the document. *)
Definition merge_cmd (s : Settings) (pages : list string) (dest : string)
  : list string :=
  ["magick"] ++ pages
  ++ ["-units"; "PixelsPerInch"; "-density"; str (dpi s); pdf_dest dest].

(** Whether an event is a child process. *)
Definition is_run (e : Event) : bool :=
  match e with
  | Run _ _ _ => true
  | _ => false
  end.

(** Whether ImageMagick is on the search path of the machine. *)
Definition magick_found `{OS} (st : State) : bool :=
  nonempty (default "" (which (os st) "magick")).

(** The window with nine images and the contact-sheet form. *)
Definition contact_window : Window :=
  {| images := nine_images; form := contact_form |}.

(** The settings of a document at the default choices. *)
Definition document_settings : Settings :=
  {| tile := "2x2"; cell_w := 1208; cell_h := 1721; border := 2; spacing := 4;
     margin := 20; bg := "white"; border_color := "black";
     canvas_w := 2481; canvas_h := 3507; dpi := 300; fill := false;
     pdf := true |}.

(** What [_gather_settings] gives on [default_form] for a preview. *)
Definition preview_settings : Settings :=
  {| tile := "2x2"; cell_w := 265; cell_h := 388; border := 2; spacing := 4;
     margin := 20; bg := "white"; border_color := "black";
     canvas_w := 595; canvas_h := 841; dpi := 72; fill := false;
     pdf := false |}.

(** The fields of the window that track the preview are in [st'] what
    they are in [st]. *)
Definition same_preview `{OS} (st st' : State) : Prop :=
  _preview_win st' = _preview_win st
  /\ _preview_pages st' = _preview_pages st
  /\ _preview_idx st' = _preview_idx st.

(** A computation that leaves the preview alone. *)
Definition keeps `{OS} {A} (m : M A) : Prop :=
  forall st, same_preview st (m st).1.2.

(** A handler that leaves the preview alone whenever one of its child
    processes fails. *)
Definition spares `{OS} (m : M unit) : Prop :=
  forall st, ~ Forall succeeded (m st).1.1 -> same_preview st (m st).1.2.


(** A preview is open on two pages, the second one shown. *)
Definition previewing (os : OS) (w : @World os) : @State os :=
  {| os := w; _preview_win := true;
     _preview_pages := ["/tmp/old/page-1.png"; "/tmp/old/page-2.png"];
     _preview_idx := 1 |}.

(** * Properties *)

(** ** Strings and integers *)

Lemma all_chars_impl (p q : ascii -> bool) s :
  (forall c, p c = true -> q c = true) ->
  all_chars p s = true -> all_chars q s = true.
Proof.
  intros Hpq. induction s as [|c r IH]; simpl; [done|].
  rewrite !andb_true_iff. intros [? ?]. auto.
Qed.

Lemma all_chars_app p s t :
  all_chars p (s +:+ t) = all_chars p s && all_chars p t.
Proof.
  induction s as [|c r IH]; simpl; [done|]. by rewrite IH, andb_assoc.
Qed.

Lemma isdigit_plain c : isdigit c = true -> plain c = true.
Proof. destruct c as [[] [] [] [] [] [] [] []]; vm_compute; congruence. Qed.

Lemma digits_of_uint d : all_chars isdigit (NilEmpty.string_of_uint d) = true.
Proof. induction d; simpl; auto. Qed.

Lemma uint_string_nonempty d :
  d <> Decimal.Nil -> nonempty (NilEmpty.string_of_uint d) = true.
Proof. destruct d; simpl; congruence. Qed.

Lemma lstrip_plain s : all_chars plain s = true -> lstrip s = s.
Proof.
  destruct s as [|c r]; simpl; [done|].
  rewrite andb_true_iff. intros [Hc _].
  unfold plain in Hc. destruct (isspace c); [discriminate | reflexivity].
Qed.

Lemma rstrip_plain s : all_chars plain s = true -> rstrip s = s.
Proof.
  induction s as [|c r IH]; simpl; [done|].
  rewrite andb_true_iff. intros [Hc Hr]. rewrite (IH Hr).
  destruct r; [|reflexivity].
  unfold plain in Hc. destruct (isspace c); [discriminate | reflexivity].
Qed.

Lemma strip_plain s : all_chars plain s = true -> strip s = s.
Proof.
  intros Hs. unfold strip. rewrite (lstrip_plain s Hs). by apply rstrip_plain.
Qed.

Lemma isblank_isspace c : isblank c = true -> isspace c = true.
Proof. destruct c as [[] [] [] [] [] [] [] []]; vm_compute; congruence. Qed.

Lemma skip_blanks_plain s : all_chars plain s = true -> skip_blanks s = s.
Proof.
  destruct s as [|c r]; simpl; [done|].
  rewrite andb_true_iff. intros [Hc _].
  unfold plain in Hc. destruct (isblank c) eqn:E; [|reflexivity].
  by rewrite (isblank_isspace c E) in Hc.
Qed.

Lemma drop_blanks_plain s : all_chars plain s = true -> drop_blanks s = s.
Proof.
  induction s as [|c r IH]; simpl; [done|].
  rewrite andb_true_iff. intros [Hc Hr]. rewrite (IH Hr).
  destruct r; [|reflexivity].
  unfold plain in Hc. destruct (isblank c) eqn:E; [|reflexivity].
  by rewrite (isblank_isspace c E) in Hc.
Qed.

Lemma ungroup_plain s b :
  all_chars plain s = true -> (b = true \/ nonempty s = true) ->
  ungroup b s = Some s.
Proof.
  revert b. induction s as [|c r IH]; simpl; intros b Hs Hb.
  - destruct Hb as [-> | ?]; [reflexivity | discriminate].
  - apply andb_true_iff in Hs as [Hc Hr].
    assert (Ascii.eqb c "_" = false) as ->.
    { unfold plain in Hc. destruct (Ascii.eqb c "_"); [|done].
      rewrite andb_false_r in Hc. discriminate. }
    rewrite (IH true Hr); [reflexivity | by left].
Qed.

Lemma split_plain (sep : ascii) s :
  all_chars (fun c => negb (Ascii.eqb c sep)) s = true -> split sep s = [s].
Proof.
  induction s as [|c r IH]; simpl; [done|].
  rewrite andb_true_iff. intros [Hc Hr]. rewrite (IH Hr).
  destruct (Ascii.eqb c sep); [discriminate | reflexivity].
Qed.

Lemma split_app (sep : ascii) s t :
  all_chars (fun c => negb (Ascii.eqb c sep)) s = true ->
  split sep (s +:+ String sep t) = s :: split sep t.
Proof.
  induction s as [|c r IH]; simpl.
  - intros _. by rewrite Ascii.eqb_refl.
  - rewrite andb_true_iff. intros [Hc Hr]. rewrite (IH Hr).
    destruct (Ascii.eqb c sep); [discriminate | reflexivity].
Qed.

Lemma split_no_sep (sep : ascii) (s : string) :
  Forall (fun p => all_chars (fun c => negb (Ascii.eqb c sep)) p = true)
    (split sep s).
Proof.
  induction s as [|c r IH]; simpl.
  - by repeat constructor.
  - destruct (Ascii.eqb c sep) eqn:E.
    + by constructor.
    + destruct (split sep r) as [|p ps].
      * repeat constructor. simpl. by rewrite E.
      * inversion IH; subst. constructor; [|assumption]. simpl. by rewrite E.
Qed.

Lemma all_chars_substring p (s : string) :
  all_chars p s = true -> forall n m, all_chars p (substring n m s) = true.
Proof.
  induction s as [|c r IH]; intros Hs n m.
  - by destruct n, m.
  - simpl in Hs. apply andb_true_iff in Hs as [Hc Hr].
    destruct n as [|n]; [destruct m as [|m]|]; simpl; auto.
    rewrite Hc. by apply IH.
Qed.

Lemma append_empty_r (s : string) : s +:+ "" = s.
Proof.
  induction s as [|c r IH]; [reflexivity|].
  change (String c (r +:+ "") = String c r). by rewrite IH.
Qed.

Lemma substring_all (s : string) : substring 0 (String.length s) s = s.
Proof. induction s as [|c r IH]; simpl; [reflexivity | by rewrite IH]. Qed.

Lemma substring_split (s : string) (i : nat) :
  substring 0 i s +:+ substring i (String.length s - i) s = s.
Proof.
  revert i. induction s as [|c r IH]; intros [|i]; try reflexivity.
  - rewrite Nat.sub_0_r, substring_all. by destruct c.
  - simpl.
    change (String c (substring 0 i r +:+ substring i (String.length r - i) r)
            = String c r).
    by rewrite IH.
Qed.

Lemma prefix_of_length n s : (String.length (prefix_of n s) <= n)%nat.
Proof.
  unfold prefix_of. revert s. induction n as [|n IH]; intros [|c s]; simpl; try lia.
  specialize (IH s). lia.
Qed.

Lemma digits_value_uint d :
  d <> Decimal.Nil ->
  (String.length (NilEmpty.string_of_uint d) <= max_str_digits)%nat ->
  digits_value (NilEmpty.string_of_uint d) = Ok (Z.of_uint d).
Proof.
  intros Hd Hlen. unfold digits_value.
  rewrite ungroup_plain.
  - destruct (Nat.ltb_spec max_str_digits
                (String.length (NilEmpty.string_of_uint d))); [lia|].
    by rewrite NilEmpty.usu.
  - eapply all_chars_impl; [apply isdigit_plain | apply digits_of_uint].
  - right. by apply uint_string_nonempty.
Qed.

Lemma of_uint_pos p : Z.of_uint (Pos.to_uint p) = Z.pos p.
Proof. unfold Z.of_uint. by rewrite DecimalPos.Unsigned.of_to. Qed.

Lemma str_pos p : str (Z.pos p) = NilEmpty.string_of_uint (Pos.to_uint p).
Proof.
  unfold str. simpl. unfold NilZero.string_of_uint.
  pose proof (DecimalPos.Unsigned.to_uint_nonnil p).
  destruct (Pos.to_uint p); congruence.
Qed.

Lemma str_neg p :
  str (Z.neg p) = String "-" (NilEmpty.string_of_uint (Pos.to_uint p)).
Proof.
  unfold str. simpl. unfold NilZero.string_of_uint.
  pose proof (DecimalPos.Unsigned.to_uint_nonnil p).
  destruct (Pos.to_uint p); congruence.
Qed.

Lemma str_nonneg_plain z : 0 <= z -> all_chars plain (str z) = true.
Proof.
  intros Hz. destruct z as [|p|p]; [reflexivity| |lia].
  rewrite str_pos.
  eapply all_chars_impl; [apply isdigit_plain | apply digits_of_uint].
Qed.

Lemma str_nonempty z : nonempty (str z) = true.
Proof.
  destruct z as [|p|p]; [reflexivity| |by rewrite str_neg].
  rewrite str_pos. apply uint_string_nonempty.
  apply DecimalPos.Unsigned.to_uint_nonnil.
Qed.

(** [int(str(z)) == z], for [z] not negative and within the digit
    limit. *)
Lemma int_of_str_str z :
  0 <= z -> (String.length (str z) <= max_str_digits)%nat ->
  int_of_str (str z) = Ok z.
Proof.
  intros Hz Hlen. destruct z as [|p|p]; [reflexivity| |lia].
  unfold int_of_str.
  rewrite skip_blanks_plain, drop_blanks_plain
    by (apply str_nonneg_plain; lia).
  rewrite str_pos in Hlen |- *.
  pose proof (DecimalPos.Unsigned.to_uint_nonnil p) as Hn.
  rewrite <- (of_uint_pos p).
  rewrite <- (digits_value_uint _ Hn Hlen).
  destruct (Pos.to_uint p) as [|u|u|u|u|u|u|u|u|u|u]; try congruence;
    reflexivity.
Qed.

Lemma str_digit z :
  0 <= z <= 9 -> (String.length (str z) <= max_str_digits)%nat.
Proof.
  intros Hz.
  assert (z = 0 \/ z = 1 \/ z = 2 \/ z = 3 \/ z = 4 \/ z = 5 \/ z = 6
          \/ z = 7 \/ z = 8 \/ z = 9) as Hcases by lia.
  apply Nat.leb_le.
  destruct Hcases as [->|[->|[->|[->|[->|[->|[->|[->|[->| ->]]]]]]]]];
    vm_compute; reflexivity.
Qed.

(** ** Chunking *)

Lemma ceil_div_alt a b : 0 < b -> (a + b - 1) / b = ceil_div a b.
Proof.
  intros Hb. unfold ceil_div.
  pose proof (Z.div_mod (a + b - 1) b ltac:(lia)).
  pose proof (Z.mod_pos_bound (a + b - 1) b Hb).
  pose proof (Z.div_mod (- a) b ltac:(lia)).
  pose proof (Z.mod_pos_bound (- a) b Hb).
  nia.
Qed.

Lemma ceil_div_bounds a b :
  0 < b -> (ceil_div a b - 1) * b < a <= ceil_div a b * b.
Proof.
  intros Hb. unfold ceil_div.
  pose proof (Z.div_mod (- a) b ltac:(lia)).
  pose proof (Z.mod_pos_bound (- a) b Hb).
  nia.
Qed.

Lemma slice_take_drop {A} (l : list A) (a b : Z) :
  0 <= a <= b ->
  slice l a b = take (Z.to_nat (b - a)) (drop (Z.to_nat a) l).
Proof.
  intros Hab. unfold slice, slice_bound.
  destruct (Z.ltb_spec a 0) as [?|_]; [lia|].
  destruct (Z.ltb_spec (b) 0) as [?|_]; [lia|].
  set (n := Z.of_nat (length l)).
  destruct (Z.le_gt_cases n a) as [Hna|Hna].
  - rewrite !drop_ge by lia. by rewrite !take_nil.
  - rewrite (Z.min_l a n) by lia.
    destruct (Z.le_gt_cases b n) as [Hbn|Hbn].
    + by rewrite (Z.min_l b n) by lia.
    + rewrite (Z.min_r b n) by lia.
      rewrite !take_ge; [done| |]; rewrite length_drop; lia.
Qed.

Lemma groups_concat {A} (p m : nat) (l : list A) :
  concat (groups p m l) = take (m * p) l.
Proof.
  unfold groups. induction m as [|m IH]; [done|].
  rewrite seq_S, fmap_app, concat_app, IH. simpl.
  rewrite app_nil_r, take_take_drop. f_equal. lia.
Qed.

Lemma groups_length {A} (p m : nat) (l : list A) : length (groups p m l) = m.
Proof. unfold groups. by rewrite length_fmap, length_seq. Qed.

Lemma groups_lookup {A} (p m k : nat) (l : list A) c :
  groups p m l !! k = Some c -> (k < m)%nat /\ c = take p (drop (k * p) l).
Proof.
  unfold groups. rewrite list_lookup_fmap. intros Hk.
  destruct (seq 0 m !! k) as [j|] eqn:Hj; [|done].
  apply lookup_seq in Hj as [-> ?]. simpl in Hk. split; [done|congruence].
Qed.

(** The tile spec the planner writes reads as the shape it was written
    from; no layout has more than nine columns or rows. *)
Lemma planner_tile_reads (C R : Z) :
  0 <= C <= 9 -> 0 <= R <= 9 -> reads_as (str C +:+ "x" +:+ str R) C R.
Proof.
  intros HC HR. exists (str C), (str R).
  change ("x" +:+ str R) with (String "x" (str R)).
  rewrite split_app.
  2:{ eapply all_chars_impl; [|apply (str_nonneg_plain C); lia].
      intros c. unfold plain. rewrite !andb_true_iff. tauto. }
  rewrite split_plain.
  2:{ eapply all_chars_impl; [|apply (str_nonneg_plain R); lia].
      intros c. unfold plain. rewrite !andb_true_iff. tauto. }
  by rewrite !int_of_str_str by (try apply str_digit; lia).
Qed.

(** Blanks around the numbers do not matter to [int]. *)
Lemma spaced_tile_reads : reads_as "2 x 2" 2 2.
Proof. exists "2 ", " 2". repeat split; vm_compute; reflexivity. Qed.

(** On a concrete tile spec the chunks are the consecutive groups of
    [C * R] images. *)
Lemma chunk_images_groups (imgs : list string) (s : Settings) (C R : Z) :
  1 <= C -> 1 <= R -> reads_as (tile s) C R ->
  _chunk_images imgs s
  = Ok (groups (Z.to_nat (C * R))
          (Z.to_nat (ceil_div (Z.of_nat (length imgs)) (C * R))) imgs).
Proof.
  intros HC HR (c & r & Hsplit & Hc & Hr). unfold _chunk_images.
  assert (nonempty (tile s) = true) as ->.
  { destruct (tile s); [discriminate Hsplit | reflexivity]. }
  rewrite Hsplit, Hc, Hr. simpl.
  assert (0 < C * R) as HP by nia.
  unfold range0.
  destruct (Z.eqb_spec (C * R) 0) as [?|_]; [lia|].
  destruct (Z.ltb_spec 0 (C * R)) as [_|?]; [|lia].
  simpl. rewrite ceil_div_alt by done. f_equal.
  unfold groups. rewrite <- list_fmap_compose.
  apply list_fmap_ext. intros _ k _. simpl.
  rewrite slice_take_drop by nia. f_equal; [lia|f_equal; nia].
Qed.

(** C4. For a tile spec that reads as [C] columns by [R] rows, both at
    least 1, chunking succeeds and gives [ceil(len(images) / (C*R))]
    chunks whose concatenation is the image list; chunk [k] is the [C*R]
    images from position [k*C*R] on, every chunk has between 1 and [C*R]
    images, and every chunk but the last has exactly [C*R]. *)
Theorem chunking_partitions (imgs : list string) (s : Settings) (C R : Z) :
  1 <= C -> 1 <= R -> reads_as (tile s) C R ->
  exists chunks,
    _chunk_images imgs s = Ok chunks
    /\ Z.of_nat (length chunks) = ceil_div (Z.of_nat (length imgs)) (C * R)
    /\ concat chunks = imgs
    /\ forall (k : nat) (c : list string), chunks !! k = Some c ->
         c = take (Z.to_nat (C * R)) (drop (k * Z.to_nat (C * R)) imgs)
         /\ 1 <= Z.of_nat (length c) <= C * R
         /\ ((S k < length chunks)%nat -> Z.of_nat (length c) = C * R).
Proof.
  intros HC HR Ht.
  exists (groups (Z.to_nat (C * R))
            (Z.to_nat (ceil_div (Z.of_nat (length imgs)) (C * R))) imgs).
  split; [apply chunk_images_groups; assumption|].
  assert (0 < C * R) as HP by nia.
  pose proof (ceil_div_bounds (Z.of_nat (length imgs)) (C * R) HP) as Hb.
  set (m := ceil_div (Z.of_nat (length imgs)) (C * R)) in *.
  assert (0 <= m) as Hm by nia.
  rewrite groups_length. split; [lia|]. split.
  - rewrite groups_concat. apply take_ge. nia.
  - intros k c Hk. apply groups_lookup in Hk as [Hkm ->].
    split; [done|]. rewrite length_take, length_drop. nia.
Qed.

(** Nine images on a 2 x 2 grid: three chunks. *)
Lemma chunking_partitions_witness :
  exists chunks,
    _chunk_images nine_images default_settings = Ok chunks
    /\ Z.of_nat (length chunks) = 3
    /\ concat chunks = nine_images.
Proof.
  destruct (chunking_partitions nine_images default_settings 2 2
              ltac:(lia) ltac:(lia)
              (planner_tile_reads 2 2 ltac:(lia) ltac:(lia)))
    as (chunks & Hc & Hl & Hcat & _).
  exists chunks. repeat split; assumption.
Defined.

(** C5. With the empty tile spec of the contact sheet, chunking gives
    exactly one chunk, holding all the images in their order, however
    many there are. *)
Lemma contact_sheet_single_chunk :
  forall (imgs : list string) (s : Settings),
    tile s = "" -> _chunk_images imgs s = Ok [imgs].
Proof. intros imgs s Ht. unfold _chunk_images. rewrite Ht. reflexivity. Qed.

(** Nine images on a contact sheet: one chunk. *)
Lemma contact_sheet_single_chunk_witness :
  _chunk_images nine_images contact_settings = Ok [nine_images].
Proof.
  apply (contact_sheet_single_chunk nine_images contact_settings). reflexivity.
Defined.

(** C6 fails as stated: for the contact sheet an empty image list gives
    one chunk, not zero. *)
Lemma empty_contact_sheet_counterexample :
  _chunk_images [] contact_settings = Ok [[]]
  /\ length ([[]] : list (list string)) = 1%nat.
Proof. split; reflexivity. Qed.

(** C6, amended. Chunking an empty image list gives no chunk at all for
    a concrete tile spec, and a single empty chunk for the contact
    sheet. *)
Theorem chunking_nothing (s : Settings) :
  (forall C R : Z,
     1 <= C -> 1 <= R -> reads_as (tile s) C R ->
     _chunk_images [] s = Ok [])
  /\ (tile s = "" -> _chunk_images [] s = Ok [[]]).
Proof.
  split.
  - intros C R HC HR Ht.
    rewrite (chunk_images_groups [] s C R HC HR Ht). reflexivity.
  - intros Ht. unfold _chunk_images. rewrite Ht. reflexivity.
Qed.

(** No image, on a 2 x 2 grid and on a contact sheet. *)
Lemma chunking_nothing_witness :
  _chunk_images [] default_settings = Ok []
  /\ _chunk_images [] contact_settings = Ok [[]].
Proof.
  split.
  - destruct (chunking_nothing default_settings) as [Hgrid _].
    apply (Hgrid 2 2); [lia | lia |].
    apply (planner_tile_reads 2 2); lia.
  - destruct (chunking_nothing contact_settings) as [_ Hauto].
    apply Hauto. reflexivity.
Defined.

(** ** The layout planner *)

Lemma default_gathered : _gather_settings default_form None = Ok default_settings.
Proof. vm_compute. reflexivity. Qed.

Lemma contact_gathered :
  _gather_settings contact_form (Some 72) = Ok contact_settings.
Proof. vm_compute. reflexivity. Qed.

Lemma a4_draft_gathered :
  _gather_settings a4_draft_form None = Ok a4_draft_settings.
Proof. vm_compute. reflexivity. Qed.

Lemma gather_settings_inv (self : Form) (o : option Z) (s : Settings) :
  _gather_settings self o = Ok s ->
  exists pw ph cols rows,
    paper_inches self = Ok (pw, ph)
    /\ grid_shape self = Ok (cols, rows)
    /\ override_or o (index DPI_CHOICES (dpi_row self)) = Ok (dpi s)
    /\ int_of_float (border_row self) = Ok (border s)
    /\ int_of_float (spacing_row self) = Ok (spacing s)
    /\ int_of_float (margin_row self) = Ok (margin s)
    /\ pixels pw (dpi s) = Ok (canvas_w s)
    /\ pixels ph (dpi s) = Ok (canvas_h s)
    /\ cell_size (canvas_w s) (canvas_h s) cols rows
         (border s) (spacing s) (margin s) = (tile s, cell_w s, cell_h s)
    /\ pdf s = pdf_row self.
Proof.
  unfold _gather_settings, paper_inches, grid_shape, pixels. intros H.
  bind_inv H. injection H as <-.
  cbn [dpi border spacing margin canvas_w canvas_h tile cell_w cell_h pdf].
  exists n1, n2, z, z0.
  unfold mbind, result_bind. rewrite E0, E2, E5, E10, E11, E12, E13, E14.
  repeat split; reflexivity.
Qed.

(** The converse of [gather_settings_inv]: what the planner returns
    once every step succeeds. *)
Lemma gather_settings_intro (self : Form) (o : option Z) (pw ph : number)
  (cols rows d b sp m cw ch : Z) :
  paper_inches self = Ok (pw, ph) ->
  override_or o (index DPI_CHOICES (dpi_row self)) = Ok d ->
  grid_shape self = Ok (cols, rows) ->
  int_of_float (border_row self) = Ok b ->
  int_of_float (spacing_row self) = Ok sp ->
  int_of_float (margin_row self) = Ok m ->
  pixels pw d = Ok cw ->
  pixels ph d = Ok ch ->
  _gather_settings self o
  = Ok {| tile := (cell_size cw ch cols rows b sp m).1.1;
          cell_w := (cell_size cw ch cols rows b sp m).1.2;
          cell_h := (cell_size cw ch cols rows b sp m).2;
          border := b; spacing := sp; margin := m;
          bg := str_or (strip (bg_row self)) "white";
          border_color := str_or (strip (border_color_row self)) "gray";
          canvas_w := cw; canvas_h := ch; dpi := d;
          fill := (fill_row self =? 1)%nat; pdf := pdf_row self |}.
Proof.
  unfold paper_inches, grid_shape, pixels. intros Hp Hd Hg Hb Hsp Hm Hw Hh.
  bind_inv Hp. bind_inv Hg. bind_inv Hw. bind_inv Hh.
  unfold _gather_settings, mbind, result_bind.
  rewrite E, E0. cbv beta iota.
  injection Hp as Hp. rewrite Hp. cbv beta iota.
  rewrite Hd, E2, Hg, Hb, Hsp, Hm, E3, Hw, E4, Hh. cbv beta iota.
  destruct (cell_size cw ch cols rows b sp m) as [[t w] h]. reflexivity.
Qed.

(** The grid branch of [cell_size]. *)
Lemma cell_size_grid (cw ch cols rows b sp m : Z) :
  1 <= cols -> 1 <= rows ->
  cell_size cw ch cols rows b sp m
  = (str cols +:+ "x" +:+ str rows,
     Z.max ((cw - 2 * m - cols * 2 * (b + sp)) / cols) 64,
     Z.max ((ch - 2 * m - rows * 2 * (b + sp)) / rows) 64).
Proof.
  intros Hc Hr. unfold cell_size.
  destruct (Z.ltb_spec 0 cols); [|lia].
  destruct (Z.ltb_spec 0 rows); [|lia]. reflexivity.
Qed.

(** The contact-sheet branch of [cell_size]. *)
Lemma cell_size_auto (cw ch cols rows b sp m : Z) :
  cols <= 0 \/ rows <= 0 ->
  cell_size cw ch cols rows b sp m = ("", (cw - 2 * m) / 6, (cw - 2 * m) / 6).
Proof.
  intros Hc. unfold cell_size.
  destruct (Z.ltb_spec 0 cols); destruct (Z.ltb_spec 0 rows);
    simpl; try reflexivity; lia.
Qed.

(** C1. For a form whose layout is a concrete grid shape of at least one
    column and one row, whatever its border, spacing and margin rows
    hold: once the paper, the resolution and the three spin values are
    read, the planner returns settings that carry the canvas of that
    paper at that resolution and the border, spacing and margin of the
    form, with the cell width
    [floor((canvas_w - 2*margin - cols*2*(border+spacing)) / cols)]
    raised to at least 64, the cell height the same with the canvas
    height and the rows, and the tile spec the decimal columns, the
    letter x and the decimal rows.  And whatever settings the planner
    returns for such a form are of this kind, so that neither cell
    dimension is ever below 64, however negative the quotient is. *)
Theorem grid_cell_size (self : Form) (o : option Z) (cols rows : Z) :
  grid_shape self = Ok (cols, rows) -> 1 <= cols -> 1 <= rows ->
  (forall (pw ph : number) (d cw ch b sp m : Z),
     paper_inches self = Ok (pw, ph) ->
     override_or o (index DPI_CHOICES (dpi_row self)) = Ok d ->
     pixels pw d = Ok cw -> pixels ph d = Ok ch ->
     int_of_float (border_row self) = Ok b ->
     int_of_float (spacing_row self) = Ok sp ->
     int_of_float (margin_row self) = Ok m ->
     exists s,
       _gather_settings self o = Ok s
       /\ canvas_w s = cw /\ canvas_h s = ch
       /\ border s = b /\ spacing s = sp /\ margin s = m
       /\ cell_w s = Z.max ((cw - 2 * m - cols * 2 * (b + sp)) / cols) 64
       /\ cell_h s = Z.max ((ch - 2 * m - rows * 2 * (b + sp)) / rows) 64
       /\ tile s = str cols +:+ "x" +:+ str rows)
  /\ (forall s : Settings,
        _gather_settings self o = Ok s ->
        (exists pw ph,
           paper_inches self = Ok (pw, ph)
           /\ pixels pw (dpi s) = Ok (canvas_w s)
           /\ pixels ph (dpi s) = Ok (canvas_h s))
        /\ int_of_float (border_row self) = Ok (border s)
        /\ int_of_float (spacing_row self) = Ok (spacing s)
        /\ int_of_float (margin_row self) = Ok (margin s)
        /\ cell_w s
           = Z.max ((canvas_w s - 2 * margin s
                     - cols * 2 * (border s + spacing s)) / cols) 64
        /\ cell_h s
           = Z.max ((canvas_h s - 2 * margin s
                     - rows * 2 * (border s + spacing s)) / rows) 64
        /\ tile s = str cols +:+ "x" +:+ str rows
        /\ 64 <= cell_w s /\ 64 <= cell_h s).
Proof.
  intros Hg Hc Hr. split.
  - intros pw ph d cw ch b sp m Hp Hd Hw Hh Hb Hsp Hm.
    eexists. split.
    { by apply (gather_settings_intro self o pw ph cols rows d b sp m cw ch). }
    cbn [canvas_w canvas_h border spacing margin cell_w cell_h tile].
    rewrite cell_size_grid by assumption. by repeat split.
  - intros s Hs.
    apply gather_settings_inv in Hs
      as (pw & ph & c & r & Hp & Hg' & _ & Hb & Hsp & Hm & Hw & Hh & Hcell & _).
    rewrite Hg in Hg'. injection Hg' as <- <-.
    rewrite cell_size_grid in Hcell by assumption.
    injection Hcell as Ht Hcw Hch. rewrite <- Ht, <- Hcw, <- Hch.
    split; [by exists pw, ph|].
    repeat split; try assumption; try reflexivity; lia.
Qed.

(** The default form, where the cells fit, and a form whose border,
    spacing and margin leave less than nothing: the clamp applies to
    both dimensions. *)
Lemma grid_cell_size_witness :
  (exists s,
     _gather_settings default_form None = Ok s
     /\ border s = 2 /\ spacing s = 4 /\ margin s = 20
     /\ canvas_w s = 2481 /\ canvas_h s = 3507
     /\ cell_w s = 1208 /\ cell_h s = 1721 /\ tile s = "2x2")
  /\ (exists s,
        _gather_settings tight_form None = Ok s
        /\ border s = 50 /\ spacing s = 50 /\ margin s = 200
        /\ canvas_w s = 600 /\ canvas_h s = 900
        /\ cell_w s = 64 /\ cell_h s = 64 /\ tile s = "2x2").
Proof.
  split.
  - destruct (grid_cell_size default_form None 2 2 eq_refl
                ltac:(lia) ltac:(lia)) as [Hrun _].
    destruct (Hrun (PyFloat 8.27) (PyFloat 11.69) 300 2481 3507 2 4 20
                eq_refl eq_refl ltac:(vm_compute; reflexivity)
                ltac:(vm_compute; reflexivity)
                ltac:(vm_compute; reflexivity)
                ltac:(vm_compute; reflexivity)
                ltac:(vm_compute; reflexivity))
      as (s & Hs & Hcw & Hch & Hb & Hsp & Hm & Hw & Hh & Ht).
    exists s. rewrite Hw, Hh, Ht. by repeat split.
  - destruct (grid_cell_size tight_form None 2 2 eq_refl
                ltac:(lia) ltac:(lia)) as [Hrun _].
    destruct (Hrun (PyInt 4) (PyInt 6) 150 600 900 50 50 200
                eq_refl eq_refl ltac:(vm_compute; reflexivity)
                ltac:(vm_compute; reflexivity)
                ltac:(vm_compute; reflexivity)
                ltac:(vm_compute; reflexivity)
                ltac:(vm_compute; reflexivity))
      as (s & Hs & Hcw & Hch & Hb & Hsp & Hm & Hw & Hh & Ht).
    exists s. rewrite Hw, Hh, Ht. by repeat split.
Defined.

Lemma paper_agrees_all (i : nat) : paper_agrees i = true.
Proof.
  destruct i as [|[|[|[|[|[|[|[|[|?]]]]]]]]]; vm_compute; reflexivity.
Qed.

Lemma pixels_eqb_eq inches d v : pixels_eqb inches d v = true -> pixels inches d = Ok v.
Proof.
  unfold pixels_eqb. destruct (pixels inches d); [|discriminate].
  intros ->%Z.eqb_eq. reflexivity.
Qed.

Lemma canvas_exact (self : Form) (pw ph : number) (d : Z) :
  paper_inches self = Ok (pw, ph) -> In d PLANNED_DPI ->
  exists x y,
    paper_exact self = Ok (x, y)
    /\ pixels pw d = Ok (x * d / 100)
    /\ pixels ph d = Ok (y * d / 100)
    /\ 400 <= x.
Proof.
  unfold paper_inches, paper_exact. intros H Hd.
  pose proof (paper_agrees_all (paper_row self)) as Hok.
  unfold paper_agrees in Hok.
  destruct (index PAPER_NAMES (paper_row self)) as [n|] eqn:En;
    [|discriminate H].
  unfold mbind, result_bind in *.
  destruct (getitem PAPERS n) as [[a b]|]; [|discriminate H].
  destruct (getitem PAPERS_EXACT n) as [[x y]|]; [|discriminate Hok].
  apply andb_true_iff in Hok as [Hok Hy%Z.leb_le].
  apply andb_true_iff in Hok as [Hok Hx%Z.leb_le].
  rewrite forallb_forall in Hok. specialize (Hok d Hd).
  apply andb_true_iff in Hok as [Ha%pixels_eqb_eq Hb%pixels_eqb_eq].
  destruct (Nat.eqb (orient_row self) 1); injection H as <- <-;
    eexists _, _; repeat split; eassumption.
Qed.

Lemma dpi_choice_planned (k : nat) (d : Z) :
  index DPI_CHOICES k = Ok d -> In d PLANNED_DPI.
Proof.
  unfold index. destruct (DPI_CHOICES !! k) as [d'|] eqn:E; [|discriminate].
  intros [= <-]. right. apply list_elem_of_In. by eapply list_elem_of_lookup_2.
Qed.

Lemma index_raises {A} (l : list A) (i : nat) (e : error) :
  index l i = Raise e -> e = IndexError /\ (length l <= i)%nat.
Proof.
  unfold index. destruct (l !! i) eqn:E; [discriminate|].
  intros [= <-]. split; [reflexivity|]. by apply lookup_ge_None.
Qed.

Lemma index_succeeds {A} (l : list A) (i : nat) :
  (i < length l)%nat -> exists a, index l i = Ok a.
Proof.
  intros Hi. unfold index.
  destruct (lookup_lt_is_Some_2 l i Hi) as [a ->]. by exists a.
Qed.

Lemma index_bound {A} (l : list A) (i : nat) (a : A) :
  index l i = Ok a -> (i < length l)%nat.
Proof.
  unfold index. destruct (l !! i) eqn:E; [|discriminate].
  intros _. by eapply lookup_lt_Some.
Qed.

Lemma paper_known (i : nat) (n : string) :
  index PAPER_NAMES i = Ok n -> exists a b, getitem PAPERS n = Ok (a, b).
Proof.
  intros Hn. pose proof (paper_agrees_all i) as H.
  unfold paper_agrees in H. rewrite Hn in H.
  destruct (getitem PAPERS n) as [[a b]|]; [by exists a, b | discriminate].
Qed.

Lemma layout_known (i : nat) (n : string) :
  index LAYOUT_NAMES i = Ok n -> exists c r, getitem LAYOUTS n = Ok (c, r).
Proof.
  destruct i as [|[|[|[|[|[|[|?]]]]]]]; intros [= <-]; by eexists _, _.
Qed.

Lemma int_of_float_raises (x : float) (e : error) :
  int_of_float x = Raise e -> e = OverflowError \/ e = ValueError.
Proof.
  unfold int_of_float. destruct (Prim2SF x); intros [= <-]; auto.
Qed.

Lemma mul_raises (a b : number) (e : error) :
  mul a b = Raise e -> e = OverflowError.
Proof.
  unfold mul, float_of_int, mbind, result_bind.
  destruct a, b; try discriminate;
    destruct (is_infinity _); cbv beta iota; congruence.
Qed.

Lemma int_of_number_raises (x : number) (e : error) :
  int_of_number x = Raise e -> e = OverflowError \/ e = ValueError.
Proof. destruct x; [discriminate | apply int_of_float_raises]. Qed.

Lemma override_raises (o : option Z) (i : nat) (e : error) :
  override_or o (index DPI_CHOICES i) = Raise e ->
  e = IndexError /\ (3 <= i)%nat.
Proof.
  unfold override_or. destruct o as [d|]; [destruct (d =? 0); [|discriminate]|];
    apply index_raises.
Qed.

(** Whatever the planner raises, it is not a [KeyError]. *)
Lemma gather_settings_no_key_error (self : Form) (o : option Z) :
  _gather_settings self o <> Raise KeyError.
Proof.
  unfold _gather_settings, mbind, result_bind. intros H.
  destruct (index PAPER_NAMES (paper_row self)) as [n|e] eqn:E1.
  2:{ apply index_raises in E1 as [-> _]. discriminate H. }
  destruct (paper_known _ _ E1) as (a & b & Hab). rewrite Hab in H.
  cbv beta iota in H.
  destruct (if (orient_row self =? 1)%nat then (b, a) else (a, b)) as [pw ph].
  destruct (override_or o _) as [d|e] eqn:E2.
  2:{ apply override_raises in E2 as [-> _]. discriminate H. }
  destruct (index LAYOUT_NAMES (layout_row self)) as [ln|e] eqn:E3.
  2:{ apply index_raises in E3 as [-> _]. discriminate H. }
  destruct (layout_known _ _ E3) as (c & r & Hcr). rewrite Hcr in H.
  cbv beta iota in H.
  destruct (int_of_float (border_row self)) as [bd|e] eqn:E4.
  2:{ apply int_of_float_raises in E4 as [-> | ->]; discriminate H. }
  destruct (int_of_float (spacing_row self)) as [sp|e] eqn:E5.
  2:{ apply int_of_float_raises in E5 as [-> | ->]; discriminate H. }
  destruct (int_of_float (margin_row self)) as [mg|e] eqn:E6.
  2:{ apply int_of_float_raises in E6 as [-> | ->]; discriminate H. }
  destruct (mul pw (PyInt d)) as [w|e] eqn:E7.
  2:{ apply mul_raises in E7 as ->. discriminate H. }
  destruct (int_of_number w) as [cw|e] eqn:E8.
  2:{ apply int_of_number_raises in E8 as [-> | ->]; discriminate H. }
  destruct (mul ph (PyInt d)) as [h|e] eqn:E9.
  2:{ apply mul_raises in E9 as ->. discriminate H. }
  destruct (int_of_number h) as [ch|e] eqn:E10.
  2:{ apply int_of_number_raises in E10 as [-> | ->]; discriminate H. }
  destruct (cell_size cw ch c r bd sp mg) as [[t cw'] ch']. discriminate H.
Qed.

Lemma paper_inches_valid (self : Form) :
  (paper_row self < 9)%nat -> exists pw ph, paper_inches self = Ok (pw, ph).
Proof.
  intros Hi. unfold paper_inches, mbind, result_bind.
  destruct (index_succeeds PAPER_NAMES (paper_row self) Hi) as [n Hn].
  rewrite Hn. destruct (paper_known _ _ Hn) as (a & b & ->). cbv beta iota.
  destruct (orient_row self =? 1)%nat; by eexists _, _.
Qed.

Lemma grid_shape_valid (self : Form) :
  (layout_row self < 7)%nat -> exists c r, grid_shape self = Ok (c, r).
Proof.
  intros Hi. unfold grid_shape, mbind, result_bind.
  destruct (index_succeeds LAYOUT_NAMES (layout_row self) Hi) as [n Hn].
  rewrite Hn. by apply layout_known in Hn.
Qed.

(** C3 fails as stated: A4 at 150 dpi is 11.69 * 150 = 1753.5 pixels
    high, which the code truncates to 1753 and [round] takes to 1754. *)
Lemma canvas_rounding_counterexample :
  planned_canvas a4_draft_form None = Ok (1240, 1753)
  /\ rounded_canvas a4_draft_form 150 = Ok (1240, 1754)
  /\ planned_canvas a4_draft_form None <> rounded_canvas a4_draft_form 150.
Proof.
  assert (planned_canvas a4_draft_form None = Ok (1240, 1753)) as Hp
    by (vm_compute; reflexivity).
  assert (rounded_canvas a4_draft_form 150 = Ok (1240, 1754)) as Hr
    by (vm_compute; reflexivity).
  repeat split; try assumption. rewrite Hp, Hr. discriminate.
Qed.

(** C3, amended. The settings the planner returns carry, as resolution,
    the choice of the DPI row of the form, or the override when one is
    given, and as canvas [int(width_in * dpi)] by [int(height_in * dpi)]
    for the paper of the paper row: the floating-point products
    truncated toward zero, with width and height swapped before
    multiplying when the orientation is landscape; at every resolution
    the handlers plan with (the three choices of the DPI row, and 72 for
    previews) this is the floor of the exact decimal product.  And the
    planner does return settings for every paper, orientation and
    resolution the three rows offer, once the layout row and the spin
    rows are in order as well. *)
Theorem canvas_truncates (self : Form) (o : option Z) :
  (forall s : Settings,
     _gather_settings self o = Ok s ->
     (o = None -> DPI_CHOICES !! dpi_row self = Some (dpi s))
     /\ (forall d, o = Some d -> d <> 0 -> dpi s = d)
     /\ exists pw ph,
          paper_inches self = Ok (pw, ph)
          /\ pixels pw (dpi s) = Ok (canvas_w s)
          /\ pixels ph (dpi s) = Ok (canvas_h s)
          /\ (o = None \/ o = Some 72 -> In (dpi s) PLANNED_DPI)
          /\ (In (dpi s) PLANNED_DPI ->
              exists x y,
                paper_exact self = Ok (x, y)
                /\ canvas_w s = x * dpi s / 100
                /\ canvas_h s = y * dpi s / 100))
  /\ (o = None \/ o = Some 72 ->
      (paper_row self < 9)%nat -> (dpi_row self < 3)%nat ->
      (layout_row self < 7)%nat ->
      (exists b, int_of_float (border_row self) = Ok b) ->
      (exists sp, int_of_float (spacing_row self) = Ok sp) ->
      (exists m, int_of_float (margin_row self) = Ok m) ->
      exists s, _gather_settings self o = Ok s).
Proof.
  split.
  - intros s Hs.
    apply gather_settings_inv in Hs
      as (pw & ph & c & r & Hp & _ & Hdpi & _ & _ & _ & Hw & Hh & _).
    split; [|split].
    + intros ->. simpl in Hdpi. unfold index in Hdpi.
      destruct (DPI_CHOICES !! dpi_row self); [|discriminate Hdpi].
      by injection Hdpi as ->.
    + intros d -> Hd. simpl in Hdpi.
      destruct (Z.eqb_spec d 0); [contradiction|]. by injection Hdpi as ->.
    + exists pw, ph. repeat split; try assumption.
      * intros [-> | ->]; simpl in Hdpi.
        -- by eapply dpi_choice_planned.
        -- injection Hdpi as <-. by left.
      * intros Hd.
        destruct (canvas_exact self pw ph (dpi s) Hp Hd)
          as (x & y & Hx & Hxw & Hyh & _).
        exists x, y. split; [assumption|]. split; congruence.
  - intros Ho Hp Hd Hl [b Hb] [sp Hsp] [m Hm].
    destruct (paper_inches_valid self Hp) as (pw & ph & Hpi).
    destruct (grid_shape_valid self Hl) as (c & r & Hg).
    destruct (index_succeeds DPI_CHOICES (dpi_row self) Hd) as [d Hdi].
    assert (exists d', override_or o (index DPI_CHOICES (dpi_row self)) = Ok d'
                       /\ In d' PLANNED_DPI) as (d' & Hd' & Hin).
    { destruct Ho as [-> | ->].
      - exists d. split; [exact Hdi | by eapply dpi_choice_planned].
      - exists 72. split; [reflexivity | by left]. }
    destruct (canvas_exact self pw ph d' Hpi Hin) as (x & y & _ & Hw & Hh & _).
    eexists. by eapply gather_settings_intro.
Qed.

(** A4 at 300 dpi is 2481 x 3507, and at 150 dpi 1240 x 1753, where the
    height 1753.5 is cut. *)
Lemma canvas_truncates_witness :
  (exists s,
     _gather_settings default_form None = Ok s
     /\ dpi s = 300 /\ canvas_w s = 2481 /\ canvas_h s = 3507)
  /\ (exists s,
        _gather_settings a4_draft_form None = Ok s
        /\ dpi s = 150 /\ canvas_w s = 1240 /\ canvas_h s = 1753).
Proof.
  split.
  - destruct (canvas_truncates default_form None) as [Hall Hex].
    destruct Hex as [s Hs];
      try (simpl; lia); try (eexists; vm_compute; reflexivity);
      [by left|].
    destruct (Hall s Hs) as (Hrow & _ & pw & ph & _ & _ & _ & Hin & Hexact).
    specialize (Hrow eq_refl). injection Hrow as Hd.
    destruct (Hexact (Hin (or_introl eq_refl))) as (x & y & Hxy & Hw & Hh).
    vm_compute in Hxy. injection Hxy as <- <-.
    exists s. rewrite Hw, Hh, <- Hd. by repeat split.
  - destruct (canvas_truncates a4_draft_form None) as [Hall Hex].
    destruct Hex as [s Hs];
      try (simpl; lia); try (eexists; vm_compute; reflexivity);
      [by left|].
    destruct (Hall s Hs) as (Hrow & _ & pw & ph & _ & _ & _ & Hin & Hexact).
    specialize (Hrow eq_refl). injection Hrow as Hd.
    destruct (Hexact (Hin (or_introl eq_refl))) as (x & y & Hxy & Hw & Hh).
    vm_compute in Hxy. injection Hxy as <- <-.
    exists s. rewrite Hw, Hh, <- Hd. by repeat split.
Defined.

(** C2 fails as stated: the preview of a contact sheet on 4 x 6 in paper
    has cells of 41 x 41 pixels. *)
Lemma cell_floor_counterexample :
  _gather_settings contact_form (Some 72) = Ok contact_settings
  /\ cell_w contact_settings = 41 /\ cell_h contact_settings = 41
  /\ ~ 64 <= cell_w contact_settings.
Proof. split; [apply contact_gathered|]. simpl. lia. Qed.

(** C2, amended. With a concrete tile spec both cell dimensions are at
    least 64.  With the empty tile spec of the contact sheet the cell is
    square, its side is [floor((canvas_w - 2*margin) / 6)] and it is not
    raised to 64: it is at least 64 exactly when
    [canvas_w - 2*margin >= 384].  That holds for every request to save
    (no DPI override) whose margin is within the 0..100 of the form, in
    either mode. *)
Theorem cell_floor_by_mode (self : Form) (o : option Z) (s : Settings) :
  _gather_settings self o = Ok s ->
  (tile s <> "" -> 64 <= cell_w s /\ 64 <= cell_h s)
  /\ (tile s = "" ->
      cell_w s = (canvas_w s - 2 * margin s) / 6
      /\ cell_h s = cell_w s
      /\ (64 <= cell_w s <-> 384 <= canvas_w s - 2 * margin s))
  /\ (o = None -> 0 <= margin s <= 100 -> 64 <= cell_w s /\ 64 <= cell_h s).
Proof.
  intros Hs.
  apply gather_settings_inv in Hs
    as (pw & ph & c & r & Hp & _ & Hd & _ & _ & _ & Hw & Hh & Hcell & _).
  assert (tile s = "" ->
          cell_w s = (canvas_w s - 2 * margin s) / 6 /\ cell_h s = cell_w s)
    as Hauto.
  { intros Ht. unfold cell_size in Hcell.
    destruct ((0 <? c) && (0 <? r)).
    - injection Hcell as Hc _ _. rewrite Ht in Hc.
      pose proof (str_nonempty c). destruct (str c); discriminate.
    - injection Hcell as _ <- <-. done. }
  assert (tile s <> "" -> 64 <= cell_w s /\ 64 <= cell_h s) as Hgrid.
  { intros Ht. unfold cell_size in Hcell.
    destruct ((0 <? c) && (0 <? r)).
    - injection Hcell as _ <- <-. lia.
    - injection Hcell as Hc _ _. congruence. }
  split; [assumption|]. split.
  - intros Ht. destruct (Hauto Ht) as [Hcw Hch]. repeat split; try assumption.
    + intros H64. rewrite Hcw in H64.
      pose proof (Z.mul_div_le (canvas_w s - 2 * margin s) 6 ltac:(lia)). lia.
    + intros H384. rewrite Hcw. apply Z.div_le_lower_bound; lia.
  - intros -> Hm.
    destruct (decide (tile s = "")) as [Ht|Ht]; [|by apply Hgrid].
    destruct (Hauto Ht) as [Hcw Hch]. rewrite Hch, Hcw.
    simpl in Hd. pose proof (dpi_choice_planned _ _ Hd) as Hin.
    destruct (canvas_exact self pw ph (dpi s) Hp Hin) as (x & y & _ & Hxw & _ & Hx).
    assert (150 <= dpi s) as H150.
    { unfold index in Hd.
      destruct (dpi_row self) as [|[|[|?]]]; simpl in Hd; simplify_eq; lia. }
    assert (600 <= canvas_w s).
    { rewrite Hw in Hxw. injection Hxw as ->.
      apply Z.div_le_lower_bound; nia. }
    assert (64 <= (canvas_w s - 2 * margin s) / 6)
      by (apply Z.div_le_lower_bound; lia).
    lia.
Qed.

(** The contact-sheet preview and the default 2 x 2 grid. *)
Lemma cell_floor_by_mode_witness :
  cell_w contact_settings
  = (canvas_w contact_settings - 2 * margin contact_settings) / 6
  /\ cell_h contact_settings = cell_w contact_settings
  /\ 64 <= cell_w default_settings /\ 64 <= cell_h default_settings.
Proof.
  destruct (cell_floor_by_mode contact_form (Some 72) contact_settings
              contact_gathered) as (_ & Hauto & _).
  destruct (Hauto eq_refl) as (Hw & Hh & _).
  destruct (cell_floor_by_mode default_form None default_settings
              default_gathered) as (Hgrid & _ & _).
  destruct (Hgrid ltac:(discriminate)) as (Hw' & Hh').
  repeat split; assumption.
Defined.

Lemma gather_preview_dpi (f : Form) (s : Settings) :
  _gather_settings f (Some 72) = Ok s -> dpi s = 72.
Proof.
  intros Hs. apply gather_settings_inv in Hs
    as (pw & ph & c & r & _ & _ & Hd & _). simpl in Hd. congruence.
Qed.

Lemma gather_ignores_dpi_row (f : Form) (k : nat) :
  _gather_settings (with_dpi_row k f) (Some 72) = _gather_settings f (Some 72).
Proof. reflexivity. Qed.

(** ** Events of the handlers *)

Section Events.

Context `{OS}.

Lemma bind_run {A B} (m : M A) (f : A -> M B) (st : State) :
  (m ≫= f) st
  = match m st with
    | (evs, st', Return a) =>
        let '(evs', st'', r) := f a st' in (evs ++ evs', st'', r)
    | (evs, st', Throw e) => (evs, st', Throw e)
    end.
Proof. reflexivity. Qed.

Lemma run_pages_cons s pattern i chunk rest paths :
  run_pages s pattern i (chunk :: rest) paths
  = (dest ← lift (format_page format_field pattern (i + 1));
     _ ← _run_montage chunk s dest;
     run_pages s pattern (i + 1) rest (paths ++ [dest])).
Proof. reflexivity. Qed.

Lemma save_pages_cons s p stem ext i chunk rest :
  save_pages s p stem ext i (chunk :: rest)
  = (q ← lift (with_name p (stem +:+ "-" +:+ str i +:+ ext));
     _ ← _run_montage chunk s (to_str q);
     save_pages s p stem ext (i + 1) rest).
Proof. reflexivity. Qed.

Lemma close_preview_run (st : State) :
  close_preview st = ([ClosePreview], closed st, Return tt).
Proof. reflexivity. Qed.

Lemma emits_ret {A} P (a : A) : emits P (mret a).
Proof. intros st. constructor. Qed.

Lemma emits_lift {A} P (r : result A) : emits P (lift r).
Proof. intros st. unfold lift. destruct r; constructor. Qed.

Lemma emits_emit P e : P e -> emits P (emit e).
Proof. intros He st. simpl. by constructor. Qed.

Lemma emits_get P : emits P get.
Proof. intros st. constructor. Qed.

Lemma emits_put P st' : emits P (put st').
Proof. intros st. constructor. Qed.

Lemma emits_which P prog : emits P (shutil_which prog).
Proof. intros st. constructor. Qed.

Lemma emits_mkdtemp P prefix : emits P (tempfile_mkdtemp prefix).
Proof. intros st. unfold tempfile_mkdtemp. destruct (mkdtemp _ _). constructor. Qed.

Lemma emits_run P cmd input :
  (forall r, P (Run cmd input r)) -> emits P (subprocess_run cmd input).
Proof.
  intros HP st. unfold subprocess_run. destruct (spawn _ _ _). simpl.
  by constructor.
Qed.

Lemma emits_bind {A B} P (m : M A) (f : A -> M B) :
  emits P m -> (forall a, emits P (f a)) -> emits P (m ≫= f).
Proof.
  intros Hm Hf st. rewrite bind_run. specialize (Hm st).
  destruct (m st) as [[evs st'] [a|e]]; [|exact Hm].
  specialize (Hf a st'). destruct (f a st') as [[evs' st''] r].
  simpl in *. by apply Forall_app.
Qed.

Lemma emits_bind_lift {A B} P (r : result A) (f : A -> M B) :
  (forall a, r = Ok a -> emits P (f a)) -> emits P (lift r ≫= f).
Proof.
  intros Hf st. rewrite bind_run. unfold lift. destruct r as [a|e].
  - specialize (Hf a eq_refl st). destruct (f a st) as [[evs st'] r]. exact Hf.
  - constructor.
Qed.

Lemma emits_try {A} P (body : M A) (handler : list Byte.byte -> M A) :
  emits P body -> (forall err, emits P (handler err)) ->
  emits P (try_except body handler).
Proof.
  intros Hb Hh st. unfold try_except. specialize (Hb st).
  destruct (body st) as [[evs st'] [a|[e|c rc o err]]]; try exact Hb.
  specialize (Hh err st'). destruct (handler err st') as [[evs' st''] r].
  simpl in *. by apply Forall_app.
Qed.

Lemma emits_if {A} P (b : bool) (m1 m2 : M A) :
  emits P m1 -> emits P m2 -> emits P (if b then m1 else m2).
Proof. by destruct b. Qed.

End Events.

(** One step of a proof that a computation emits only events of a kind. *)
Ltac emits_step :=
  first
    [ apply emits_ret | apply emits_lift | apply emits_get | apply emits_put
    | apply emits_which | apply emits_mkdtemp
    | apply emits_bind; [|intros ?]
    | apply emits_try; [|intros ?]
    | apply emits_if
    | apply emits_emit; simpl; try done
    | apply emits_run; intros ?; simpl; try done ].

Section Runs.

Context `{OS}.

Lemma emits_run_montage P imgs s dest :
  (forall i r, P (Run (cmd1 imgs s) i r)) ->
  (forall i r, P (Run (cmd2 s dest) i r)) ->
  emits P (_run_montage imgs s dest).
Proof. intros H1 H2. unfold _run_montage. repeat emits_step; auto. Qed.

Lemma emits_run_pages P s pattern chunks :
  (forall imgs i r, P (Run (cmd1 imgs s) i r)) ->
  (forall dest i r, P (Run (cmd2 s dest) i r)) ->
  forall i paths, emits P (run_pages s pattern i chunks paths).
Proof.
  intros H1 H2. induction chunks as [|chunk rest IH]; intros i paths; simpl.
  - apply emits_ret.
  - apply emits_bind; [apply emits_lift | intros dest].
    apply emits_bind; [by apply emits_run_montage | intros _; apply IH].
Qed.

Lemma emits_run_all_pages P self s pattern :
  (forall imgs i r, P (Run (cmd1 imgs s) i r)) ->
  (forall dest i r, P (Run (cmd2 s dest) i r)) ->
  emits P (_run_all_pages self s pattern).
Proof.
  intros H1 H2. unfold _run_all_pages. repeat emits_step.
  by apply emits_run_pages.
Qed.

Lemma emits_close_preview P : P ClosePreview -> emits P close_preview.
Proof. intros HP. unfold close_preview. repeat emits_step. Qed.

Lemma emits_show_preview P pages :
  P ClosePreview -> (forall shown, P (PresentPreview pages shown)) ->
  emits P (_show_preview pages).
Proof.
  intros H1 H2. unfold _show_preview. repeat emits_step.
Qed.

Lemma emits_check_ready P self :
  (forall t, P (Toast t)) -> emits P (_check_ready self).
Proof.
  intros HP. unfold _check_ready, add_toast.
  case_bool_decide; repeat emits_step; auto.
Qed.

End Runs.

(** ** Failing child processes *)

Section Failures.

Context `{OS}.

Lemma calm_ret {A} (a : A) : calm (mret a).
Proof. intros st. split; [constructor | discriminate]. Qed.

Lemma calm_lift {A} (r : result A) : calm (lift r).
Proof. intros st. unfold lift. destruct r; (split; [constructor | discriminate]). Qed.

Lemma calm_emit e : succeeded e -> calm (emit e).
Proof. intros He st. split; [by repeat constructor | discriminate]. Qed.

Lemma calm_get : calm get.
Proof. intros st. split; [constructor | discriminate]. Qed.

Lemma calm_put st' : calm (put st').
Proof. intros st. split; [constructor | discriminate]. Qed.

Lemma calm_which prog : calm (shutil_which prog).
Proof. intros st. split; [constructor | discriminate]. Qed.

Lemma calm_mkdtemp prefix : calm (tempfile_mkdtemp prefix).
Proof.
  intros st. unfold tempfile_mkdtemp. destruct (mkdtemp _ _).
  split; [constructor | discriminate].
Qed.

Lemma calm_bind {A B} (m : M A) (f : A -> M B) :
  calm m -> (forall a, calm (f a)) -> calm (m ≫= f).
Proof.
  intros Hm Hf st. rewrite bind_run. destruct (Hm st) as [Hev Hr].
  destruct (m st) as [[evs st'] [a|e]]; simpl in *.
  - destruct (Hf a st') as [Hev' Hr'].
    destruct (f a st') as [[evs' st''] r]. simpl in *.
    split; [by apply Forall_app | assumption].
  - split; [assumption|]. intros c rc o err [= ->]. by eapply Hr.
Qed.

Lemma calm_if {A} (b : bool) (m1 m2 : M A) :
  calm m1 -> calm m2 -> calm (if b then m1 else m2).
Proof. by destruct b. Qed.

Lemma calm_add_toast t : calm (add_toast t).
Proof. by apply calm_emit. Qed.

Lemma calm_close_preview : calm close_preview.
Proof.
  unfold close_preview.
  apply calm_bind; [apply calm_get | intros st].
  apply calm_bind; [by apply calm_emit | intros _]. apply calm_put.
Qed.

Lemma calm_show_preview pages : calm (_show_preview pages).
Proof.
  unfold _show_preview.
  apply calm_bind; [apply calm_get | intros st].
  apply calm_bind;
    [apply calm_if; [apply calm_close_preview | apply calm_ret] | intros _].
  apply calm_bind; [apply calm_get | intros st'].
  apply calm_bind; [apply calm_put | intros _].
  apply calm_bind; [apply calm_lift | intros first].
  by apply calm_emit.
Qed.

Lemma calm_check_ready self : calm (_check_ready self).
Proof.
  unfold _check_ready. case_bool_decide.
  - apply calm_bind; [apply calm_add_toast | intros _; apply calm_ret].
  - apply calm_bind; [apply calm_which | intros found].
    apply calm_if; [|apply calm_ret].
    apply calm_bind; [apply calm_add_toast | intros _; apply calm_ret].
Qed.

Lemma tidy_calm {A} (m : M A) : calm m -> forall st, tidy (m st).
Proof.
  intros Hm st. destruct (Hm st) as [Hev Hr].
  destruct (m st) as [[evs st'] [a|[e|c rc o err]]]; simpl in *; try assumption.
  by destruct (Hr c rc o err).
Qed.

Lemma tidy_run cmd input st : tidy (subprocess_run cmd input st).
Proof.
  unfold subprocess_run. destruct (spawn _ _ _) as [w r].
  destruct (Z.eqb_spec (returncode r) 0) as [Hr|Hr]; simpl.
  - by repeat constructor.
  - exists [], input, r. by repeat split.
Qed.

Lemma tidy_bind {A B} (m : M A) (f : A -> M B) :
  (forall st, tidy (m st)) -> (forall a st, tidy (f a st)) ->
  forall st, tidy ((m ≫= f) st).
Proof.
  intros Hm Hf st. rewrite bind_run. specialize (Hm st).
  destruct (m st) as [[evs st'] [a|e]].
  - specialize (Hf a st').
    destruct (f a st') as [[evs' st''] [b|[e|c rc o err]]]; simpl in *.
    + by apply Forall_app.
    + by apply Forall_app.
    + destruct Hf as (pre & i & r & -> & Hpre & Hrc & Herr).
      exists (evs ++ pre), i, r. rewrite <- app_assoc.
      repeat split; try assumption. by apply Forall_app.
  - destruct e; exact Hm.
Qed.

Lemma tidy_run_montage imgs s dest st : tidy (_run_montage imgs s dest st).
Proof.
  unfold _run_montage. apply tidy_bind; [apply tidy_run|]. intros r1.
  apply tidy_bind; [apply tidy_run|]. intros _. apply tidy_calm, calm_ret.
Qed.

Lemma tidy_run_pages s pattern chunks :
  forall i paths st, tidy (run_pages s pattern i chunks paths st).
Proof.
  induction chunks as [|chunk rest IH]; intros i paths.
  - apply tidy_calm, calm_ret.
  - rewrite run_pages_cons.
    apply tidy_bind; [apply tidy_calm, calm_lift|]. intros dest.
    apply tidy_bind; [apply tidy_run_montage|]. intros _. apply IH.
Qed.

Lemma tidy_run_all_pages self s pattern st :
  tidy (_run_all_pages self s pattern st).
Proof.
  revert st. unfold _run_all_pages.
  apply tidy_bind; [apply tidy_calm, calm_lift|]. intros chunks.
  apply tidy_run_pages.
Qed.

Lemma tidy_save_pages s p stem ext chunks :
  forall i st, tidy (save_pages s p stem ext i chunks st).
Proof.
  induction chunks as [|chunk rest IH]; intros i.
  - apply tidy_calm, calm_ret.
  - rewrite save_pages_cons.
    apply tidy_bind; [apply tidy_calm, calm_lift|]. intros q.
    apply tidy_bind; [apply tidy_run_montage|]. intros _. apply IH.
Qed.

Lemma failure_after_clean (evs evs' pre post : list Event) (x : Event) :
  Forall succeeded evs -> ~ succeeded x ->
  evs ++ evs' = pre ++ x :: post ->
  exists pre', pre = evs ++ pre' /\ evs' = pre' ++ x :: post.
Proof.
  intros Hev Hx. revert pre.
  induction Hev as [|e evs He Hev IH]; intros pre Heq; simpl in *.
  - by exists pre.
  - destruct pre as [|p pre]; simpl in Heq; injection Heq as -> Heq.
    + contradiction.
    + destruct (IH pre Heq) as (pre' & -> & ->). by exists pre'.
Qed.

Lemma settled_clean evs (st : State) r :
  Forall succeeded evs -> settled (evs, st, r).
Proof.
  intros Hev pre c i cp post Heq Hrc. simpl in Heq. subst evs.
  apply Forall_app in Hev as [_ Hev]. inversion Hev; subst. contradiction.
Qed.

Lemma settled_failed pre c i r (st : State) :
  Forall succeeded pre -> returncode r <> 0 ->
  settled (pre ++ [Run c i r; Toast (error_title r)], st, Return tt).
Proof.
  intros Hpre Hrc pre' c' i' r' post Heq Hrc'. simpl in Heq.
  destruct (failure_after_clean pre _ pre' post (Run c' i' r') Hpre Hrc' Heq)
    as (k & -> & Hk).
  destruct k as [|a [|b k]]; simpl in Hk.
  - injection Hk as <- <- <- <-. rewrite app_nil_r. repeat split; assumption.
  - discriminate Hk.
  - injection Hk as _ _ Hk. destruct k; discriminate Hk.
Qed.

Lemma settled_bind {A} (m : M A) (f : A -> M unit) :
  calm m -> (forall a st, settled (f a st)) ->
  forall st, settled ((m ≫= f) st).
Proof.
  intros Hm Hf st. rewrite bind_run. destruct (Hm st) as [Hev Hr].
  destruct (m st) as [[evs st'] [a|e]]; simpl in *.
  - specialize (Hf a st'). destruct (f a st') as [[evs' st''] r].
    intros pre c i cp post Heq Hrc. simpl in Heq.
    destruct (failure_after_clean evs evs' pre post _ Hev
                (fun Hs : succeeded (Run c i cp) => Hrc Hs) Heq)
      as (k & -> & Hk).
    destruct (Hf k c i cp post Hk Hrc) as (Hk' & Hpost & Hres).
    repeat split; try assumption. by apply Forall_app.
  - by apply settled_clean.
Qed.

(** [try: body except CalledProcessError: toast], then a continuation
    that does nothing once the toast is shown. *)
Lemma settled_try {A} (body : M A) (a0 : A) (k : A -> M unit) :
  (forall st, tidy (body st)) ->
  (forall a, calm (k a)) -> k a0 = mret tt ->
  forall st,
    settled ((try_except body (fun err => _ ← error_toast err; mret a0)
              ≫= k) st).
Proof.
  intros Hb Hk Hk0 st. rewrite bind_run. unfold try_except.
  specialize (Hb st).
  destruct (body st) as [[evs st'] [a|[e|c rc o err]]]; simpl in Hb.
  - destruct (Hk a st') as [Hev' _].
    destruct (k a st') as [[evs' st''] r]. simpl in *.
    apply settled_clean. by apply Forall_app.
  - by apply settled_clean.
  - destruct Hb as (pre & i & r & -> & Hpre & Hrc & <-).
    simpl. rewrite Hk0. simpl. rewrite !app_nil_r, <- app_assoc. simpl.
    by apply settled_failed.
Qed.

(** [try: body except CalledProcessError: toast] as the last thing a
    handler does. *)
Lemma settled_try_last (body : M unit) :
  (forall st, tidy (body st)) ->
  forall st, settled (try_except body error_toast st).
Proof.
  intros Hb st. unfold try_except. specialize (Hb st).
  destruct (body st) as [[evs st'] [a|[e|c rc o err]]]; simpl in Hb.
  - by apply settled_clean.
  - by apply settled_clean.
  - destruct Hb as (pre & i & r & -> & Hpre & Hrc & <-).
    simpl. rewrite <- app_assoc. simpl. by apply settled_failed.
Qed.

Lemma settled_on_preview self st : settled (_on_preview self st).
Proof.
  revert st. unfold _on_preview.
  apply settled_bind; [apply calm_check_ready | intros ready].
  destruct ready; simpl; [|intros st; apply settled_clean; constructor].
  apply settled_bind; [apply calm_lift | intros s].
  apply settled_bind; [apply calm_mkdtemp | intros tmpdir].
  apply settled_try.
  - apply tidy_bind; [apply tidy_run_all_pages|].
    intros pages. apply tidy_calm, calm_ret.
  - intros [pages|]; [apply calm_show_preview | apply calm_ret].
  - reflexivity.
Qed.

Lemma settled_on_save_ready self dest s st :
  settled (_on_save_ready self dest s st).
Proof.
  revert st. unfold _on_save_ready.
  destruct dest as [dest|]; [|intros st; apply settled_clean; constructor].
  apply settled_bind; [apply calm_lift | intros chunks].
  apply settled_try_last.
  apply tidy_bind.
  - destruct (pdf s).
    + apply tidy_bind; [apply tidy_calm, calm_mkdtemp | intros tmpdir].
      apply tidy_bind; [apply tidy_run_all_pages | intros page_files].
      apply tidy_bind; [apply tidy_run | intros _].
      apply tidy_calm, calm_add_toast.
    + destruct (length chunks =? 1)%nat.
      * apply tidy_bind; [apply tidy_calm, calm_lift | intros chunk].
        apply tidy_bind; [apply tidy_run_montage | intros _].
        apply tidy_calm, calm_add_toast.
      * apply tidy_bind; [apply tidy_save_pages | intros _].
        apply tidy_calm, calm_add_toast.
  - intros _. apply tidy_bind; [apply tidy_calm, calm_get | intros st'].
    apply tidy_calm, calm_if; [apply calm_close_preview | apply calm_ret].
Qed.

End Failures.

(** C7. In a preview and in a save alike, when a child process (the
    compose or the fit-to-canvas stage of a page, or the merge into a
    document) exits with a status other than 0, no child process before
    it had failed, nothing is run after it (no later page, no retry): the
    only thing that follows is the error toast, whose excerpt of the
    diagnostic output is at most 120 characters long, and the handler
    returns normally. *)
Theorem first_failure_aborts `{OS} (self : Window) (dest : option string)
  (s : Settings) (st : State) (out : list Event * State * outcome unit)
  (pre post : list Event) (cmd : list string)
  (input : option (list Byte.byte)) (r : CompletedProcess) :
  out = _on_preview self st \/ out = _on_save_ready self dest s st ->
  out.1.1 = pre ++ Run cmd input r :: post ->
  returncode r <> 0 ->
  Forall succeeded pre
  /\ post = [Toast ("Error: " +:+ error_excerpt (stderr r))]
  /\ (String.length (error_excerpt (stderr r)) <= 120)%nat
  /\ out.2 = Return tt.
Proof.
  intros Hout Hev Hrc.
  assert (settled out) as Hs.
  { destruct Hout as [-> | ->];
      [apply settled_on_preview | apply settled_on_save_ready]. }
  destruct (Hs pre cmd input r post Hev Hrc) as (Hpre & Hpost & Hres).
  repeat split; try assumption. apply prefix_of_length.
Qed.

(** The fourth child process of a three-page preview fails: the toast
    follows and the third page is never started. *)
Lemma first_failure_aborts_witness :
  let out := @_on_preview failing_os nine_window (initial_state failing_os 0%nat) in
  drop 4 out.1.1 = [Toast "Error: montage: boom"] /\ out.2 = Return tt.
Proof.
  intros out.
  destruct (out.1.1 !! 3%nat) as [[| c i r | | |]|] eqn:E;
    try (vm_compute in E; discriminate E).
  assert (out.1.1 = take 3 out.1.1 ++ Run c i r :: drop 4 out.1.1) as Hev.
  { symmetry. by apply take_drop_middle. }
  assert (returncode r <> 0) as Hrc.
  { vm_compute in E. injection E as _ _ <-. discriminate. }
  destruct (first_failure_aborts (H := failing_os) nine_window None
              a4_draft_settings (initial_state failing_os 0%nat) out
              _ _ c i r (or_introl eq_refl) Hev Hrc)
    as (_ & Hpost & _ & Hres).
  split; [|exact Hres]. rewrite Hpost.
  vm_compute in E. injection E as _ _ <-. reflexivity.
Defined.

(** ** Preconditions and previews *)

(** C8. When the image list is empty or [magick] is not on the search
    path, a preview and a request to generate do one thing only: they
    show the toast of [_check_ready].  Nothing is read from the form (the
    outcome is the same for every form, also one that
    [_gather_settings] would reject), no child process is started and the
    state is unchanged. *)
Theorem precondition_failure `{OS} (self : Window) (st : State) :
  images self = [] \/ which (os st) "magick" = None ->
  _on_preview self st = ([Toast (not_ready_title self)], st, Return tt)
  /\ _on_generate self st = ([Toast (not_ready_title self)], st, Return tt).
Proof.
  intros Hpre. unfold _on_preview, _on_generate, _check_ready, not_ready_title.
  case_bool_decide as Himg.
  - split; reflexivity.
  - destruct Hpre as [?|Hw]; [contradiction|].
    rewrite !bind_run. unfold shutil_which. rewrite Hw. split; reflexivity.
Qed.

(** A preview without ImageMagick, and a request to generate without
    images. *)
Lemma precondition_failure_witness :
  @_on_preview bare_os nine_window (initial_state bare_os 0%nat)
  = ([Toast "ImageMagick not found - install it first"],
     initial_state bare_os 0%nat, Return tt)
  /\ @_on_generate working_os empty_window (initial_state working_os 0%nat)
     = ([Toast "Add some images first"], initial_state working_os 0%nat,
        Return tt).
Proof.
  split.
  - apply (precondition_failure (H := bare_os) nine_window
             (initial_state bare_os 0%nat)). right. reflexivity.
  - apply (precondition_failure (H := working_os) empty_window
             (initial_state working_os 0%nat)). left. reflexivity.
Defined.

(** C10. A preview gathers its settings with the DPI forced to 72: the
    settings have [dpi = 72], canvas and cells are computed from 72, the
    preview does not depend on the choice of the DPI row, and every child
    process it starts has a command line built from those settings. *)
Theorem preview_plans_at_72 `{OS} (self : Window) (st : State) :
  (forall s, _gather_settings (form self) (Some 72) = Ok s ->
     dpi s = 72
     /\ exists pw ph cols rows,
          paper_inches (form self) = Ok (pw, ph)
          /\ grid_shape (form self) = Ok (cols, rows)
          /\ pixels pw 72 = Ok (canvas_w s)
          /\ pixels ph 72 = Ok (canvas_h s)
          /\ cell_size (canvas_w s) (canvas_h s) cols rows
               (border s) (spacing s) (margin s)
             = (tile s, cell_w s, cell_h s))
  /\ (forall k,
        _on_preview {| images := images self;
                       form := with_dpi_row k (form self) |} st
        = _on_preview self st)
  /\ Forall (planned_at_72 self) (_on_preview self st).1.1.
Proof.
  split; [|split].
  - intros s Hs. pose proof (gather_preview_dpi _ _ Hs) as Hd.
    split; [assumption|].
    apply gather_settings_inv in Hs
      as (pw & ph & c & r & Hp & Hg & _ & _ & _ & _ & Hw & Hh & Hcell & _).
    rewrite Hd in Hw, Hh. by exists pw, ph, c, r.
  - intros k. reflexivity.
  - revert st. change (emits (planned_at_72 self) (_on_preview self)).
    unfold _on_preview.
    apply emits_bind; [by apply emits_check_ready | intros ready].
    apply emits_if; [apply emits_ret|].
    apply emits_bind_lift. intros s Hs.
    pose proof (gather_preview_dpi _ _ Hs) as Hd.
    apply emits_bind; [apply emits_mkdtemp | intros tmpdir].
    apply emits_bind.
    + apply emits_try.
      * apply emits_bind; [|intros pages; apply emits_ret].
        apply emits_run_all_pages; intros; exists s; eauto.
      * intros err. apply emits_bind; [|intros _; apply emits_ret].
        by apply emits_emit.
    + intros [pages|]; [by apply emits_show_preview | apply emits_ret].
Qed.

(** The preview of the default form: an A4 canvas of 595 x 841. *)
Lemma preview_plans_at_72_witness :
  planned_canvas default_form (Some 72) = Ok (595, 841)
  /\ Forall (planned_at_72 nine_window)
       (@_on_preview working_os nine_window
          (initial_state working_os 0%nat)).1.1.
Proof.
  destruct (preview_plans_at_72 (H := working_os) nine_window
              (initial_state working_os 0%nat)) as (_ & _ & Hev).
  split; [vm_compute; reflexivity | exact Hev].
Defined.

(** ** Numbered pages *)

Lemma name_noslash (dest : string) :
  all_chars noslash (name (Path dest)) = true.
Proof.
  unfold name, Path. simpl.
  pose proof (split_no_sep "/" dest) as Hs.
  assert (Forall (fun p => all_chars noslash p = true)
            (List.filter is_component (split "/" dest))) as Hf.
  { rewrite Forall_forall in Hs |- *. intros p Hp.
    apply list_elem_of_In, filter_In in Hp as [Hp _].
    apply Hs. by apply list_elem_of_In. }
  induction Hf as [|p [|q ps] Hp Hps IH]; simpl; auto.
Qed.

Lemma stem_noslash dest : all_chars noslash (stem (Path dest)) = true.
Proof.
  unfold stem. pose proof (name_noslash dest) as Hn.
  destruct (rfind _ _) as [i|]; [|assumption].
  destruct (_ && _); [|assumption]. by apply all_chars_substring.
Qed.

Lemma suffix_noslash dest : all_chars noslash (suffix (Path dest)) = true.
Proof.
  unfold suffix. pose proof (name_noslash dest) as Hn.
  destruct (rfind _ _) as [i|]; [|reflexivity].
  destruct (_ && _); [|reflexivity]. by apply all_chars_substring.
Qed.

Lemma str_noslash z : all_chars noslash (str z) = true.
Proof.
  destruct z as [|p|p]; [reflexivity| |].
  - eapply all_chars_impl; [|apply (str_nonneg_plain (Z.pos p)); lia].
    intros c. unfold plain, noslash. rewrite !andb_true_iff. tauto.
  - rewrite str_neg. simpl.
    eapply all_chars_impl; [|apply digits_of_uint].
    intros c Hc. apply isdigit_plain in Hc. revert Hc.
    unfold plain, noslash. rewrite !andb_true_iff. tauto.
Qed.

Lemma page_name_noslash dest i : all_chars noslash (page_name dest i) = true.
Proof.
  unfold page_name. rewrite !all_chars_app.
  rewrite stem_noslash, str_noslash. simpl.
  unfold str_or. pose proof (suffix_noslash dest).
  destruct (nonempty (suffix (Path dest))); [assumption | reflexivity].
Qed.

Lemma page_name_shape dest i :
  exists a b, page_name dest i = a +:+ String "-" b.
Proof. unfold page_name. by eexists _, _. Qed.

Lemma dash_is_component a b : is_component (a +:+ String "-" b) = true.
Proof.
  unfold is_component. destruct a as [|c a]; [reflexivity|]. simpl.
  destruct (Ascii.eqb c "."); [|reflexivity]. by destruct a.
Qed.

Lemma noslash_root s : all_chars noslash s = true -> root_of s = "".
Proof.
  destruct s as [|c r]; [reflexivity|]. simpl.
  rewrite andb_true_iff. intros [Hc _].
  destruct c as [[] [] [] [] [] [] [] []]; try reflexivity; discriminate Hc.
Qed.

Lemma noslash_endswith s : all_chars noslash s = true -> endswith s "/" = false.
Proof.
  intros Hs. unfold endswith.
  destruct (_ <=? _)%nat; [|reflexivity]. simpl.
  destruct (String.eqb_spec (substring (String.length s - 1) 1 s) "/") as [E|]; [|reflexivity].
  pose proof (all_chars_substring noslash s Hs (String.length s - 1) 1) as Hsub.
  rewrite E in Hsub. discriminate Hsub.
Qed.

Lemma with_name_page (dest : string) (i : Z) :
  nonempty (name (Path dest)) = true ->
  with_name (Path dest) (page_name dest i)
  = Ok {| root := root (Path dest);
          parts := removelast (parts (Path dest)) ++ [page_name dest i] |}.
Proof.
  intros Hn. unfold with_name. rewrite Hn. simpl negb at 1. cbv iota.
  pose proof (page_name_noslash dest i) as Hp.
  destruct (page_name_shape dest i) as (a & b & Hab).
  assert (nonempty (page_name dest i) = true) as Hne.
  { rewrite Hab. by destruct a. }
  rewrite Hne, (noslash_endswith _ Hp). simpl.
  rewrite (noslash_root _ Hp). simpl.
  rewrite (split_plain "/" _ Hp). simpl.
  rewrite Hab at 1. rewrite dash_is_component. reflexivity.
Qed.

(** A final component is its stem followed by its suffix. *)
Lemma stem_suffix (p : PurePath) : name p = stem p +:+ suffix p.
Proof.
  unfold stem, suffix. destruct (rfind "." (name p)) as [i|].
  - destruct (_ && _).
    + symmetry. apply substring_split.
    + symmetry. apply append_empty_r.
  - symmetry. apply append_empty_r.
Qed.

Section Saving.

Context `{OS}.

Lemma run_montage_run imgs s dest (st : State) :
  _run_montage imgs s dest st
  = let '(w1, r1) := spawn (os st) (cmd1 imgs s) None in
    let st1 := {| os := w1; _preview_win := _preview_win st;
                  _preview_pages := _preview_pages st;
                  _preview_idx := _preview_idx st |} in
    if returncode r1 =? 0 then
      let '(w2, r2) := spawn w1 (cmd2 s dest) (Some (stdout r1)) in
      let st2 := {| os := w2; _preview_win := _preview_win st;
                    _preview_pages := _preview_pages st;
                    _preview_idx := _preview_idx st |} in
      (page_events s imgs dest (r1, r2), st2,
       if returncode r2 =? 0 then Return tt
       else Throw (CalledProcessError (cmd2 s dest) (returncode r2)
                     (stdout r2) (stderr r2)))
    else
      ([Run (cmd1 imgs s) None r1], st1,
       Throw (CalledProcessError (cmd1 imgs s) (returncode r1)
                (stdout r1) (stderr r1))).
Proof.
  unfold _run_montage. rewrite bind_run. unfold subprocess_run at 1.
  destruct (spawn (os st) (cmd1 imgs s) None) as [w1 r1].
  destruct (returncode r1 =? 0); [|reflexivity].
  rewrite bind_run. unfold subprocess_run. simpl os.
  destruct (spawn w1 (cmd2 s dest) (Some (stdout r1))) as [w2 r2].
  destruct (returncode r2 =? 0); reflexivity.
Qed.

Lemma run_montage_succeeded imgs s dest (st : State) :
  Forall succeeded (_run_montage imgs s dest st).1.1 ->
  exists rs,
    (_run_montage imgs s dest st).1.1 = page_events s imgs dest rs
    /\ (_run_montage imgs s dest st).2 = Return tt
    /\ _preview_win (_run_montage imgs s dest st).1.2 = _preview_win st.
Proof.
  rewrite run_montage_run.
  destruct (spawn (os st) (cmd1 imgs s) None) as [w1 r1].
  destruct (Z.eqb_spec (returncode r1) 0) as [E1|E1].
  2:{ simpl. intros Hev. inversion Hev; subst. contradiction. }
  destruct (spawn w1 (cmd2 s dest) (Some (stdout r1))) as [w2 r2].
  destruct (Z.eqb_spec (returncode r2) 0) as [E2|E2]; simpl.
  2:{ intros Hev. inversion Hev as [|? ? _ Hev']; subst.
      inversion Hev'; subst. contradiction. }
  intros _. by exists (r1, r2).
Qed.

Lemma save_pages_succeeded s dest chunks :
  nonempty (name (Path dest)) = true ->
  forall i (st : State),
    let out := save_pages s (Path dest) (stem (Path dest))
                 (str_or (suffix (Path dest)) ".jpg") i chunks st in
    Forall succeeded out.1.1 ->
    exists results,
      length results = length chunks
      /\ out.1.1 = pages_events s dest i chunks results
      /\ out.2 = Return tt
      /\ _preview_win out.1.2 = _preview_win st.
Proof.
  intros Hn. induction chunks as [|chunk rest IH]; intros i st out Hev.
  - by exists [].
  - subst out. revert Hev. rewrite save_pages_cons, bind_run.
    fold (page_name dest i). rewrite (with_name_page dest i Hn).
    unfold lift. fold (page_path dest i). rewrite bind_run.
    pose proof (run_montage_succeeded chunk s (page_path dest i) st) as Hm.
    destruct (_run_montage chunk s (page_path dest i) st)
      as [[evs st'] [[]|e]]; simpl in Hm.
    + specialize (IH (i + 1) st').
      destruct (save_pages s (Path dest) (stem (Path dest))
                  (str_or (suffix (Path dest)) ".jpg") (i + 1) rest st')
        as [[evs' st''] r]. simpl in *.
      intros Hev. apply Forall_app in Hev as [Hev1 Hev2].
      destruct (Hm Hev1) as (rs & -> & _ & Hw).
      destruct (IH Hev2) as (results & Hlen & -> & -> & Hw').
      exists (rs :: results). simpl. rewrite Hlen.
      repeat split; congruence.
    + simpl. intros Hev. destruct (Hm Hev) as (rs & _ & Hr & _). discriminate Hr.
Qed.

(** The last branch of [_on_save_ready], run. *)
Lemma save_ready_pages_run (self : Window) (dest : string)
  (s : Settings) (st : State) (chunks : list (list string)) :
  pdf s = false ->
  _chunk_images (images self) s = Ok chunks ->
  (length chunks =? 1)%nat = false ->
  _on_save_ready self (Some dest) s st
  = let '(evs, st', r) :=
      save_pages s (Path dest) (stem (Path dest))
        (str_or (suffix (Path dest)) ".jpg") 1 chunks st in
    match r with
    | Return _ =>
        (evs ++ Toast ("Saved " +:+ str (Z.of_nat (length chunks))
                       +:+ " files")
                :: (if _preview_win st' then [ClosePreview] else []),
         if _preview_win st' then closed st' else st', Return tt)
    | Throw (Builtin e) => (evs, st', Throw (Builtin e))
    | Throw (CalledProcessError _ _ _ err) =>
        (evs ++ [Toast ("Error: " +:+ error_excerpt err)], st', Return tt)
    end.
Proof.
  intros Hpdf Hc Hone.
  unfold _on_save_ready. rewrite bind_run, Hc. unfold lift.
  unfold try_except. rewrite Hpdf, Hone. rewrite !bind_run.
  destruct (save_pages s (Path dest) (stem (Path dest))
              (str_or (suffix (Path dest)) ".jpg") 1 chunks st)
    as [[evs st'] [[]|[e|c rc o err]]]; try reflexivity.
  unfold add_toast, emit. cbv beta iota. rewrite bind_run. unfold get.
  cbv beta iota.
  destruct (_preview_win st'); rewrite ?close_preview_run;
    cbn -[str String.append]; rewrite <- ?app_assoc; reflexivity.
Qed.

End Saving.

Lemma output_files_pages s dest chunks :
  forall i results,
    length results = length chunks ->
    output_files (pages_events s dest i chunks results)
    = (fun k : nat => page_path dest (i + Z.of_nat k)) <$> seq 0 (length chunks).
Proof.
  induction chunks as [|chunk rest IH]; intros i [|rs results] Hlen;
    try discriminate Hlen; [reflexivity|].
  simpl. f_equal.
  - f_equal. lia.
  - injection Hlen as Hlen. unfold output_files in IH. rewrite (IH _ _ Hlen).
    rewrite <- seq_shift, <- list_fmap_compose.
    apply list_fmap_ext. intros _ k _. simpl. f_equal. lia.
Qed.

(** C9 fails as stated: for a destination without extension the files
    are not the destination with the index inserted, they also get the
    extension [.jpg]. *)
Lemma numbered_pages_counterexample :
  output_files
    (@_on_save_ready working_os nine_window (Some "/home/u/grid")
       default_settings (initial_state working_os 0%nat)).1.1
  = ["/home/u/grid-1.jpg"; "/home/u/grid-2.jpg"; "/home/u/grid-3.jpg"]
  /\ inserted_path "/home/u/grid" <$> [1; 2; 3]
     = ["/home/u/grid-1"; "/home/u/grid-2"; "/home/u/grid-3"]
  /\ output_files
       (@_on_save_ready working_os nine_window (Some "/home/u/grid")
          default_settings (initial_state working_os 0%nat)).1.1
     <> inserted_path "/home/u/grid" <$> [1; 2; 3].
Proof.
  assert (output_files
            (@_on_save_ready working_os nine_window (Some "/home/u/grid")
               default_settings (initial_state working_os 0%nat)).1.1
          = ["/home/u/grid-1.jpg"; "/home/u/grid-2.jpg"; "/home/u/grid-3.jpg"])
    as Hcode by (vm_compute; reflexivity).
  assert (inserted_path "/home/u/grid" <$> [1; 2; 3]
          = ["/home/u/grid-1"; "/home/u/grid-2"; "/home/u/grid-3"])
    as Hspec by (vm_compute; reflexivity).
  repeat split; try assumption. rewrite Hcode, Hspec. discriminate.
Qed.

(** C9, amended. Saving more than one chunk outside document mode, to
    a destination with a final component and with every child process
    succeeding, renders chunk [i] (from 1) with the two stages of
    [_run_montage] to the sibling of the destination named
    [stem-i.ext], where [stem] and [ext] are the stem and the suffix of
    the destination and [ext] is [.jpg] when the destination has no
    suffix; one file per chunk is written, in the order of the chunks,
    then the toast with their number is shown. *)
Theorem save_numbers_pages `{OS} (self : Window) (dest : string)
  (s : Settings) (st : State) (chunks : list (list string)) :
  pdf s = false ->
  _chunk_images (images self) s = Ok chunks ->
  (1 < length chunks)%nat ->
  nonempty (name (Path dest)) = true ->
  Forall succeeded (_on_save_ready self (Some dest) s st).1.1 ->
  exists results,
    length results = length chunks
    /\ (_on_save_ready self (Some dest) s st).1.1
       = pages_events s dest 1 chunks results
         ++ Toast ("Saved " +:+ str (Z.of_nat (length chunks)) +:+ " files")
            :: (if _preview_win st then [ClosePreview] else [])
    /\ output_files (_on_save_ready self (Some dest) s st).1.1
       = (fun k : nat => page_path dest (1 + Z.of_nat k))
           <$> seq 0 (length chunks)
    /\ (_on_save_ready self (Some dest) s st).2 = Return tt
    /\ name (Path dest) = stem (Path dest) +:+ suffix (Path dest).
Proof.
  intros Hpdf Hc Hlen Hn.
  assert ((length chunks =? 1)%nat = false) as Hone by (apply Nat.eqb_neq; lia).
  pose proof (save_pages_succeeded s dest chunks Hn 1 st) as Hsp.
  rewrite (save_ready_pages_run self dest s st chunks Hpdf Hc Hone).
  destruct (save_pages s (Path dest) (stem (Path dest))
              (str_or (suffix (Path dest)) ".jpg") 1 chunks st)
    as [[evs st'] [[]|[e|c rc o err]]]; simpl in Hsp;
    cbn -[str String.append pages_events output_files]; intros Hev.
  - apply Forall_app in Hev as [Hev _].
    destruct (Hsp Hev) as (results & Hl & -> & _ & <-).
    exists results. repeat split; try assumption;
      [|exact (stem_suffix (Path dest))].
    unfold output_files. rewrite omap_app.
    fold (output_files (pages_events s dest 1 chunks results)).
    rewrite (output_files_pages s dest chunks 1 results Hl).
    destruct (_preview_win st'); simpl; by rewrite app_nil_r.
  - destruct (Hsp Hev) as (? & _ & _ & Hr & _). discriminate Hr.
  - apply Forall_app in Hev as [Hev _].
    destruct (Hsp Hev) as (? & _ & _ & Hr & _). discriminate Hr.
Qed.

(** Nine images on a 2 x 2 grid saved as [grid.jpg]: three files. *)
Lemma save_numbers_pages_witness :
  output_files
    (@_on_save_ready working_os nine_window (Some "/home/u/grid.jpg")
       default_settings (initial_state working_os 0%nat)).1.1
  = ["/home/u/grid-1.jpg"; "/home/u/grid-2.jpg"; "/home/u/grid-3.jpg"].
Proof.
  assert (_chunk_images (images nine_window) default_settings = Ok nine_chunks)
    as Hc by (vm_compute; reflexivity).
  assert (1 < length nine_chunks)%nat as Hlen by (simpl; lia).
  assert (Forall succeeded
            (@_on_save_ready working_os nine_window (Some "/home/u/grid.jpg")
               default_settings (initial_state working_os 0%nat)).1.1) as Hev.
  { vm_compute. repeat constructor. }
  destruct (save_numbers_pages (H := working_os) nine_window
              "/home/u/grid.jpg" default_settings
              (initial_state working_os 0%nat) nine_chunks
              eq_refl Hc Hlen eq_refl Hev) as (results & _ & _ & Hout & _).
  rewrite Hout. vm_compute. reflexivity.
Defined.

(** * Further properties *)

(** ** The image list *)

Lemma foldl_add_file (self : ImageList.t) (files : list (option string)) :
  ImageList.images (foldl ImageList.add_file self files)
  = ImageList.images self ++ ImageList.fresh (ImageList.images self) files
  /\ ImageList.listbox (foldl ImageList.add_file self files)
     = ImageList.listbox self
       ++ (ImageList.row_of
             <$> ImageList.fresh (ImageList.images self) files)
  /\ ImageList.img_stack (foldl ImageList.add_file self files)
     = ImageList.img_stack self.
Proof.
  revert self. induction files as [|[p|] rest IH]; intros self; simpl.
  - by rewrite !app_nil_r.
  - destruct (nonempty p && negb (bool_decide (p ∈ ImageList.images self))).
    + destruct (IH (ImageList._add_image_row
                      {| ImageList.images := ImageList.images self ++ [p];
                         ImageList.listbox := ImageList.listbox self;
                         ImageList.img_stack := ImageList.img_stack self |} p))
        as (Hi & Hl & Hs).
      rewrite Hi, Hl, Hs. simpl. by rewrite <- !app_assoc.
    + apply IH.
  - apply IH.
Qed.

Lemma fresh_elem_of (seen : list string) (files : list (option string)) p :
  p ∈ ImageList.fresh seen files
  <-> Some p ∈ files /\ nonempty p = true /\ p ∉ seen.
Proof.
  revert seen. induction files as [|[q|] rest IH]; intros seen; simpl.
  - split; [intros H; by apply elem_of_nil in H|].
    intros [H _]. by apply elem_of_nil in H.
  - destruct (nonempty q) eqn:Hq; simpl.
    + case_bool_decide as Hin; simpl.
      * rewrite IH, elem_of_cons. split.
        -- intros (? & ? & ?). auto.
        -- intros ([[= ->]|?] & ? & ?); [contradiction | auto].
      * rewrite elem_of_cons, IH, elem_of_cons, elem_of_app, list_elem_of_singleton.
        split.
        -- intros [->|(? & ? & Hn)]; [auto|]. split; [auto|]. split; [auto|].
           intros ?. apply Hn. auto.
        -- intros ([[= ->]|?] & ? & ?); [auto|].
           destruct (decide (p = q)) as [->|Hne]; [auto|]. right.
           split; [auto|]. split; [auto|]. intros [?|?]; auto.
    + rewrite IH, elem_of_cons. split.
      * intros (? & ? & ?). auto.
      * intros ([[= ->]|?] & Hp & ?); [congruence | auto].
  - rewrite IH, elem_of_cons. split.
    + intros (? & ? & ?). auto.
    + intros ([[=]|?] & ? & ?). auto.
Qed.

Lemma fresh_NoDup (seen : list string) (files : list (option string)) :
  NoDup (ImageList.fresh seen files).
Proof.
  revert seen. induction files as [|[q|] rest IH]; intros seen; simpl.
  - constructor.
  - destruct (nonempty q && negb (bool_decide (q ∈ seen))); [|apply IH].
    constructor; [|apply IH].
    rewrite fresh_elem_of. intros (_ & _ & Hn). apply Hn.
    apply elem_of_app. right. by apply list_elem_of_singleton.
  - apply IH.
Qed.

Lemma fresh_sublist (seen : list string) (files : list (option string)) :
  sublist (Some <$> ImageList.fresh seen files) files.
Proof.
  revert seen. induction files as [|[q|] rest IH]; intros seen; simpl.
  - constructor.
  - destruct (nonempty q && negb (bool_decide (q ∈ seen))); simpl.
    + apply sublist_skip, IH.
    + apply sublist_cons, IH.
  - apply sublist_cons, IH.
Qed.

Lemma fresh_none (seen : list string) (files : list (option string)) :
  (forall p, Some p ∈ files -> nonempty p = true -> p ∈ seen) ->
  ImageList.fresh seen files = [].
Proof.
  intros H. destruct (ImageList.fresh seen files) as [|p l] eqn:E; [done|].
  assert (p ∈ ImageList.fresh seen files) as Hp by (rewrite E; left).
  apply fresh_elem_of in Hp as (Hin & Hne & Hn). destruct Hn. auto.
Qed.

Lemma update_visibility_images (self : ImageList.t) :
  ImageList.images (ImageList._update_visibility self) = ImageList.images self.
Proof. reflexivity. Qed.

Lemma filter_absent (x : string) (l : list string) :
  x ∉ l -> filter (fun y => y <> x) l = l.
Proof.
  induction l as [|y l IH]; intros Hx; [reflexivity|].
  apply not_elem_of_cons in Hx as [Hne Hx].
  rewrite filter_cons_True by congruence. by rewrite (IH Hx).
Qed.

Lemma remove_filter (x : string) (l : list string) :
  NoDup l -> x ∈ l ->
  ImageList.remove x l = Ok (filter (fun y => y <> x) l).
Proof.
  induction 1 as [|y l Hy Hl IH]; intros Hx.
  - by apply elem_of_nil in Hx.
  - simpl. case_bool_decide as E.
    + subst y. rewrite filter_cons_False by (intros H; by apply H).
      f_equal. symmetry. by apply filter_absent.
    + apply elem_of_cons in Hx as [->|Hx]; [contradiction|].
      rewrite (IH Hx). simpl. by rewrite filter_cons_True.
Qed.

Lemma remove_absent (x : string) (l : list string) :
  x ∉ l -> ImageList.remove x l = Raise ValueError.
Proof.
  induction l as [|y l IH]; intros Hx; [reflexivity|]. simpl.
  apply not_elem_of_cons in Hx as [Hne Hx].
  case_bool_decide; [congruence|]. by rewrite (IH Hx).
Qed.

Lemma remove_row_filter (x : string) (l : list string) :
  NoDup l ->
  ImageList.remove_row (ImageList.row_of x) (ImageList.row_of <$> l)
  = ImageList.row_of <$> filter (fun y => y <> x) l.
Proof.
  induction 1 as [|y l Hy Hl IH]; [reflexivity|].
  rewrite fmap_cons. cbn [ImageList.remove_row].
  case_bool_decide as E.
  - assert (y = x) as -> by (by injection E).
    rewrite filter_cons_False by (intros H; by apply H).
    f_equal. symmetry. by apply filter_absent.
  - assert (y <> x) by (intros ->; by apply E).
    rewrite filter_cons_True by done. rewrite fmap_cons. f_equal. apply IH.
Qed.

Lemma remove_appended (x : string) (l : list string) :
  x ∉ l -> ImageList.remove x (l ++ [x]) = Ok l.
Proof.
  induction l as [|y l IH]; intros Hx.
  - cbn. by rewrite bool_decide_eq_true_2.
  - apply not_elem_of_cons in Hx as [Hy Hl].
    rewrite <- app_comm_cons. cbn [ImageList.remove].
    rewrite bool_decide_eq_false_2 by congruence. by rewrite (IH Hl).
Qed.

Lemma remove_row_appended (x : string) (l : list string) :
  x ∉ l ->
  ImageList.remove_row (ImageList.row_of x)
    ((ImageList.row_of <$> l) ++ [ImageList.row_of x])
  = ImageList.row_of <$> l.
Proof.
  induction l as [|y l IH]; intros Hx.
  - cbn. by rewrite bool_decide_eq_true_2.
  - apply not_elem_of_cons in Hx as [Hy Hl].
    rewrite fmap_cons, <- app_comm_cons. cbn [ImageList.remove_row].
    rewrite bool_decide_eq_false_2; [by rewrite (IH Hl)|].
    intros [= ? ?]. congruence.
Qed.

Lemma clear_rows_nil (l : list ImageList.ActionRow) : ImageList.clear_rows l = [].
Proof. induction l; auto. Qed.

(** X1. The handlers of the image list keep it consistent, from the
    empty window on: no path is listed twice, none is empty, the list box
    has one row per image in the same order, and the list is the visible
    page exactly when there is an image. *)
Theorem image_list_consistent (self : ImageList.t)
  (files : option (list (option string))) (path : string)
  (self' : ImageList.t) :
  ImageList.consistent self ->
  ImageList.consistent ImageList.initial
  /\ ImageList.consistent (ImageList._on_files_ready self files)
  /\ ImageList.consistent (ImageList._on_clear self)
  /\ (ImageList._on_remove_image self path (ImageList.row_of path) = Ok self'
      -> ImageList.consistent self').
Proof.
  intros (Hnd & Hne & Hrows & Hvis).
  split; [by repeat split; constructor|]. split; [|split].
  - destruct files as [files|]; [|by repeat split]. simpl.
    destruct (foldl_add_file self files) as (Hi & Hl & _).
    unfold ImageList.consistent. simpl. rewrite Hi, Hl, Hrows.
    split; [|split; [|split]].
    + apply NoDup_app. split; [assumption|]. split; [|apply fresh_NoDup].
      intros x Hx. rewrite fresh_elem_of. intros (_ & _ & Hn). contradiction.
    + apply Forall_app. split; [assumption|].
      apply Forall_forall. intros x. rewrite fresh_elem_of. by intros (_ & ? & _).
    + by rewrite fmap_app.
    + reflexivity.
  - unfold ImageList._on_clear, ImageList.consistent. simpl.
    rewrite clear_rows_nil. repeat split; constructor.
  - unfold ImageList._on_remove_image.
    destruct (decide (path ∈ ImageList.images self)) as [Hin|Hin].
    + rewrite (remove_filter _ _ Hnd Hin). simpl. intros [= <-].
      unfold ImageList.consistent. simpl.
      split; [|split; [|split]].
      * by apply NoDup_filter.
      * apply Forall_forall. intros x [_ Hx]%list_elem_of_filter.
        rewrite Forall_forall in Hne. by apply Hne.
      * rewrite Hrows. by apply remove_row_filter.
      * reflexivity.
    + rewrite (remove_absent _ _ Hin). discriminate.
Qed.

Lemma image_list_consistent_witness :
  ImageList.consistent
    (ImageList._on_files_ready ImageList.initial
       (Some [Some "/p/1.jpg"; None; Some "/p/1.jpg"; Some "/p/2.jpg"])).
Proof.
  apply (image_list_consistent ImageList.initial
           (Some [Some "/p/1.jpg"; None; Some "/p/1.jpg"; Some "/p/2.jpg"])
           "/p/1.jpg" ImageList.initial).
  repeat split; constructor.
Defined.

(** X2. Confirming a selection appends to the image list, after the
    images already there and in the order of the selection, exactly the
    selected paths that are not empty and not listed yet, each once;
    confirming the same selection again changes nothing, and a cancelled
    dialog changes nothing either. *)
Theorem files_ready_adds_fresh (self : ImageList.t)
  (files : list (option string)) :
  exists new,
    ImageList.images (ImageList._on_files_ready self (Some files))
    = ImageList.images self ++ new
    /\ NoDup new
    /\ sublist (Some <$> new) files
    /\ (forall p, p ∈ new
          <-> Some p ∈ files /\ p <> "" /\ p ∉ ImageList.images self)
    /\ ImageList._on_files_ready
         (ImageList._on_files_ready self (Some files)) (Some files)
       = ImageList._on_files_ready self (Some files)
    /\ ImageList._on_files_ready self None = self.
Proof.
  exists (ImageList.fresh (ImageList.images self) files).
  destruct (foldl_add_file self files) as (Hi & Hl & Hs).
  split; [exact Hi|]. split; [apply fresh_NoDup|].
  split; [apply fresh_sublist|]. split; [|split; [|reflexivity]].
  - intros p. rewrite fresh_elem_of.
    assert (nonempty p = true <-> p <> "") as ->; [|done].
    destruct p; simpl; split; congruence.
  - cbn [ImageList._on_files_ready].
    set (g := foldl ImageList.add_file self files) in *.
    destruct (foldl_add_file (ImageList._update_visibility g) files)
      as (Hi' & Hl' & Hs').
    rewrite update_visibility_images in Hi', Hl'.
    assert (ImageList.fresh (ImageList.images g) files = []) as Hnone.
    { apply fresh_none. intros p Hp Hne. rewrite Hi.
      destruct (decide (p ∈ ImageList.images self)) as [?|Hn].
      - apply elem_of_app. by left.
      - apply elem_of_app. right. by apply fresh_elem_of. }
    rewrite Hnone, app_nil_r in Hi', Hl'.
    assert (foldl ImageList.add_file (ImageList._update_visibility g) files
            = ImageList._update_visibility g) as ->.
    { destruct (foldl ImageList.add_file (ImageList._update_visibility g)
                  files) as [i l st].
      simpl in Hi', Hl', Hs'. subst i l st. reflexivity. }
    reflexivity.
Qed.

(** X3. Removing a listed image takes exactly that path out of the image
    list and its row out of the list box, leaving the others in order;
    for a path that is not listed [list.remove] raises; and removing an
    image just added gives back the window as it was. *)
Theorem remove_image_exact (self : ImageList.t) (path : string) :
  ImageList.consistent self ->
  (path ∈ ImageList.images self ->
   exists self',
     ImageList._on_remove_image self path (ImageList.row_of path) = Ok self'
     /\ ImageList.images self'
        = filter (fun p => p <> path) (ImageList.images self)
     /\ (path ∉ ImageList.images self')
     /\ S (length (ImageList.images self')) = length (ImageList.images self))
  /\ (path ∉ ImageList.images self ->
      (forall row,
         ImageList._on_remove_image self path row = Raise ValueError)
      /\ (path <> "" ->
          ImageList._on_remove_image
            (ImageList._on_files_ready self (Some [Some path]))
            path (ImageList.row_of path)
          = Ok self)).
Proof.
  intros (Hnd & Hne & Hrows & Hvis). split.
  - intros Hin. unfold ImageList._on_remove_image.
    rewrite (remove_filter _ _ Hnd Hin). simpl. eexists. split; [reflexivity|].
    simpl. split; [reflexivity|]. split.
    + rewrite list_elem_of_filter. intros [H _]. by apply H.
    + clear Hne Hrows Hvis. induction Hnd as [|y l Hy Hl IH].
      * by apply elem_of_nil in Hin.
      * destruct (decide (y = path)) as [->|Hyp].
        -- rewrite filter_cons_False by (intros H; by apply H). simpl. f_equal.
           f_equal. by apply filter_absent.
        -- rewrite filter_cons_True by done. simpl. f_equal.
           apply IH. apply elem_of_cons in Hin as [->|?]; [contradiction|done].
  - intros Hnin. split.
    + intros row. unfold ImageList._on_remove_image.
      by rewrite (remove_absent _ _ Hnin).
    + intros Hpath. simpl.
      assert (nonempty path = true) as Hp by (by destruct path).
      rewrite Hp. rewrite bool_decide_eq_false_2 by done. simpl.
      unfold ImageList._on_remove_image. simpl.
      rewrite (remove_appended _ _ Hnin). simpl.
      rewrite Hrows, (remove_row_appended _ _ Hnin), <- Hrows.
      unfold ImageList._update_visibility. simpl. rewrite <- Hvis.
      by destruct self.
Qed.

Lemma remove_image_exact_witness :
  ImageList._on_remove_image
    (ImageList._on_files_ready ImageList.initial (Some [Some "/p/1.jpg"]))
    "/p/1.jpg" (ImageList.row_of "/p/1.jpg")
  = Ok ImageList.initial.
Proof.
  assert (ImageList.consistent ImageList.initial) as Hc
    by (repeat split; constructor).
  destruct (remove_image_exact ImageList.initial "/p/1.jpg" Hc) as [_ Habs].
  destruct (Habs ltac:(apply not_elem_of_nil)) as [_ Hback].
  apply Hback. discriminate.
Defined.

(** ** Paging through the preview *)

Lemma item_lookup {A} (l : list A) (i : Z) :
  0 <= i < Z.of_nat (length l) ->
  exists x, l !! Z.to_nat i = Some x /\ PreviewNav.item l i = Ok x.
Proof.
  intros Hi. unfold PreviewNav.item, index.
  destruct (Z.ltb_spec i 0); [lia|].
  destruct (lookup_lt_is_Some_2 l (Z.to_nat i) ltac:(lia)) as [x Hx].
  exists x. by rewrite Hx.
Qed.

(** A consistent preview is determined by its pages and its index. *)
Lemma nav_consistent_eq (p q : PreviewNav.t) :
  PreviewNav.consistent p -> PreviewNav.consistent q ->
  PreviewNav._preview_pages p = PreviewNav._preview_pages q ->
  PreviewNav._preview_idx p = PreviewNav._preview_idx q ->
  p = q.
Proof.
  intros (_ & Hp & Hnp) (_ & Hq & Hnq) Hpages Hidx.
  destruct p as [pp pi ps pn], q as [qp qi qs qn]. simpl in *. subst qp qi.
  rewrite Hp in Hq. injection Hq as ->. by rewrite Hnp, Hnq.
Qed.

Lemma nav_step (p : PreviewNav.t) (d : Z) :
  PreviewNav.consistent p ->
  exists q,
    PreviewNav._on_preview_nav p d = Ok q
    /\ PreviewNav.consistent q
    /\ PreviewNav._preview_pages q = PreviewNav._preview_pages p
    /\ PreviewNav._preview_idx q
       = Z.max 0 (Z.min (PreviewNav._preview_idx p + d)
                    (Z.of_nat (length (PreviewNav._preview_pages p)) - 1)).
Proof.
  intros (Hi & Hshown & Hnav). unfold PreviewNav._on_preview_nav.
  set (n := Z.of_nat (length (PreviewNav._preview_pages p))) in *.
  set (idx := Z.max 0 (Z.min (PreviewNav._preview_idx p + d) (n - 1))).
  assert (0 <= idx < n) as Hidx by (subst idx; lia).
  destruct (item_lookup (PreviewNav._preview_pages p) idx Hidx)
    as (x & Hx & ->).
  simpl. eexists. split; [reflexivity|].
  unfold PreviewNav._update_preview_nav, PreviewNav.consistent. rewrite Hnav.
  destruct (1 <? length (PreviewNav._preview_pages p))%nat eqn:E; simpl;
    rewrite ?E; fold n; repeat split; try assumption; try lia.
Qed.

(** X4. Once a preview of at least one page is shown, no click on the
    navigation buttons can raise or leave the pages: after any clicks,
    with any step, the index is that of a page, the picture shows that
    page, and the label and the buttons, present exactly when there is
    more than one page, say where one is.  With no page at all
    [_show_preview] raises [IndexError]. *)
Theorem preview_nav_consistent (pages : list string) (directions : list Z) :
  pages <> [] ->
  exists p q,
    PreviewNav._show_preview pages = Ok p
    /\ PreviewNav._preview_idx p = 0
    /\ PreviewNav.clicks p directions = Ok q
    /\ PreviewNav.consistent q
    /\ PreviewNav._preview_pages q = pages
    /\ PreviewNav._show_preview [] = Raise IndexError.
Proof.
  intros Hpages.
  assert (exists p, PreviewNav._show_preview pages = Ok p
                    /\ PreviewNav._preview_idx p = 0
                    /\ PreviewNav.consistent p
                    /\ PreviewNav._preview_pages p = pages)
    as (p & Hp & Hidx & Hc & Hpp).
  { unfold PreviewNav._show_preview.
    assert (0 <= 0 < Z.of_nat (length pages)) as H0
      by (destruct pages; [done | simpl; lia]).
    destruct (item_lookup pages 0 H0) as (x & Hx & ->). simpl.
    eexists. split; [reflexivity|].
    unfold PreviewNav._update_preview_nav, PreviewNav.consistent.
    destruct (1 <? length pages)%nat eqn:E; simpl; rewrite ?E;
      repeat split; try assumption; lia. }
  exists p.
  assert (forall ds p0, PreviewNav.consistent p0 ->
            PreviewNav._preview_pages p0 = pages ->
            exists q, PreviewNav.clicks p0 ds = Ok q
                      /\ PreviewNav.consistent q
                      /\ PreviewNav._preview_pages q = pages) as Hclicks.
  { induction ds as [|d ds IH]; intros p0 Hc0 Hp0; simpl.
    - by exists p0.
    - destruct (nav_step p0 d Hc0) as (q & -> & Hq & Hqp & _). simpl.
      apply IH; [assumption | congruence]. }
  destruct (Hclicks directions p Hc Hpp) as (q & Hq & Hqc & Hqp).
  exists q. split; [exact Hp|]. split; [exact Hidx|]. split; [exact Hq|].
  split; [exact Hqc|]. split; [exact Hqp | reflexivity].
Qed.

Lemma preview_nav_consistent_witness :
  exists p q,
    PreviewNav._show_preview ["a.png"; "b.png"; "c.png"] = Ok p
    /\ PreviewNav.clicks p [1; 1; 1; -1] = Ok q
    /\ PreviewNav.consistent q.
Proof.
  destruct (preview_nav_consistent ["a.png"; "b.png"; "c.png"] [1; 1; 1; -1]
              ltac:(discriminate))
    as (p & q & Hp & _ & Hq & Hc & _).
  exists p, q. split; [exact Hp|]. split; [exact Hq | exact Hc].
Defined.

(** X5. In a consistent preview the next button is sensitive exactly
    when there is a later page and the previous button exactly when
    there is an earlier one; a click forward where there is a later page
    moves one page on and a click back then returns to the same state,
    while a click forward on the last page, or back on the first, changes
    nothing. *)
Theorem preview_nav_steps (p : PreviewNav.t) :
  PreviewNav.consistent p ->
  let n := Z.of_nat (length (PreviewNav._preview_pages p)) in
  let i := PreviewNav._preview_idx p in
  (forall bar, PreviewNav.nav p = Some bar ->
     (PreviewNav.next_sensitive bar = true <-> i < n - 1)
     /\ (PreviewNav.prev_sensitive bar = true <-> 0 < i)
     /\ PreviewNav.page_label bar = str (i + 1) +:+ " / " +:+ str n)
  /\ (i < n - 1 ->
      exists q,
        PreviewNav._on_preview_nav p 1 = Ok q
        /\ PreviewNav._preview_idx q = i + 1
        /\ PreviewNav._on_preview_nav q (-1) = Ok p)
  /\ (i = n - 1 -> PreviewNav._on_preview_nav p 1 = Ok p)
  /\ (i = 0 -> PreviewNav._on_preview_nav p (-1) = Ok p).
Proof.
  intros Hc n i. pose proof Hc as (Hi & Hshown & Hnav). fold n i in Hi.
  split; [|split; [|split]].
  - intros bar Hbar. rewrite Hnav in Hbar.
    destruct (1 <? length (PreviewNav._preview_pages p))%nat; [|discriminate].
    injection Hbar as <-. simpl. fold n i.
    rewrite Z.ltb_lt, Z.ltb_lt. done.
  - intros Hlt. destruct (nav_step p 1 Hc) as (q & Hq & Hqc & Hqp & Hqi).
    exists q. split; [assumption|]. fold n i in Hqi.
    split; [lia|].
    destruct (nav_step q (-1) Hqc) as (r & Hr & Hrc & Hrp & Hri).
    rewrite Hr. f_equal. apply nav_consistent_eq; try assumption.
    + congruence.
    + rewrite Hri, Hqp, Hqi. fold n i. lia.
  - intros Hlast. destruct (nav_step p 1 Hc) as (q & Hq & Hqc & Hqp & Hqi).
    rewrite Hq. f_equal. apply nav_consistent_eq; try assumption.
    rewrite Hqi. fold n i. lia.
  - intros Hfirst. destruct (nav_step p (-1) Hc) as (q & Hq & Hqc & Hqp & Hqi).
    rewrite Hq. f_equal. apply nav_consistent_eq; try assumption.
    rewrite Hqi. fold n i. lia.
Qed.

Lemma preview_nav_steps_witness :
  exists q,
    PreviewNav._on_preview_nav PreviewNav.two_pages 1 = Ok q
    /\ PreviewNav._preview_idx q = 0 + 1
    /\ PreviewNav._on_preview_nav q (-1) = Ok PreviewNav.two_pages.
Proof.
  assert (PreviewNav.consistent PreviewNav.two_pages) as Hc.
  { unfold PreviewNav.consistent. simpl. repeat split; lia. }
  destruct (preview_nav_steps PreviewNav.two_pages Hc) as (_ & Hfwd & _).
  apply Hfwd. simpl. lia.
Defined.

(** ** More on the layout planner *)

(** X6. A request to save can plan exactly the forms whose three combo
    rows have a selection in range and whose three spin rows hold a
    number [int] accepts: then [_gather_settings] returns settings, and
    with a selection out of range it raises [IndexError]; whatever the
    form and the DPI override, it never raises [KeyError]. *)
Theorem gather_settings_domain (self : Form) :
  ((exists s, _gather_settings self None = Ok s)
   <-> (paper_row self < 9)%nat /\ (dpi_row self < 3)%nat
       /\ (layout_row self < 7)%nat
       /\ (exists b, int_of_float (border_row self) = Ok b)
       /\ (exists sp, int_of_float (spacing_row self) = Ok sp)
       /\ (exists m, int_of_float (margin_row self) = Ok m))
  /\ ((9 <= paper_row self)%nat \/ (3 <= dpi_row self)%nat
      \/ (7 <= layout_row self)%nat ->
      _gather_settings self None = Raise IndexError)
  /\ (forall o, _gather_settings self o <> Raise KeyError).
Proof.
  split; [|split; [|apply gather_settings_no_key_error]].
  - split.
    + intros [s Hs]. pose proof Hs as Hinv.
      apply gather_settings_inv in Hinv
        as (pw & ph & c & r & Hp & Hg & Hd & Hb & Hsp & Hm & _).
      unfold paper_inches in Hp. bind_inv Hp.
      unfold grid_shape in Hg. bind_inv Hg. simpl in Hd.
      repeat match goal with
             | H : index _ _ = Ok _ |- _ => apply index_bound in H
             end.
      eauto 10.
    + intros (Hp & Hd & Hl & [b Hb] & [sp Hsp] & [m Hm]).
      destruct (paper_inches_valid self Hp) as (pw & ph & Hpi).
      destruct (grid_shape_valid self Hl) as (c & r & Hg).
      destruct (index_succeeds DPI_CHOICES (dpi_row self) Hd) as [d Hdi].
      destruct (canvas_exact self pw ph d Hpi (dpi_choice_planned _ _ Hdi))
        as (x & y & _ & Hw & Hh & _).
      eexists. by eapply gather_settings_intro.
  - intros Hbad. unfold _gather_settings, mbind, result_bind.
    destruct (index PAPER_NAMES (paper_row self)) as [n|e] eqn:E1.
    2:{ by apply index_raises in E1 as [-> _]. }
    destruct (paper_known _ _ E1) as (a & b & ->). cbv beta iota.
    destruct (if (orient_row self =? 1)%nat then (b, a) else (a, b)) as [pw ph].
    apply index_bound in E1. simpl in E1.
    cbn [override_or].
    destruct (index DPI_CHOICES (dpi_row self)) as [d|e] eqn:E2.
    2:{ by apply index_raises in E2 as [-> _]. }
    apply index_bound in E2. simpl in E2.
    destruct (index LAYOUT_NAMES (layout_row self)) as [ln|e] eqn:E3.
    2:{ by apply index_raises in E3 as [-> _]. }
    apply index_bound in E3. simpl in E3. lia.
Qed.

Lemma gather_settings_domain_witness :
  exists s, _gather_settings default_form None = Ok s.
Proof.
  destruct (gather_settings_domain default_form) as [[_ Hok] _].
  apply Hok. simpl.
  repeat split; try lia; eexists; vm_compute; reflexivity.
Defined.

(** X7. Choosing landscape instead of portrait swaps the two canvas
    dimensions and changes neither the resolution nor the tile spec; on
    a square grid it swaps the two cell dimensions as well. *)
Theorem landscape_swaps_canvas (self : Form) (o : option Z) (s : Settings) :
  orient_row self <> 1%nat ->
  _gather_settings self o = Ok s ->
  exists s',
    _gather_settings (with_orient_row 1 self) o = Ok s'
    /\ canvas_w s' = canvas_h s /\ canvas_h s' = canvas_w s
    /\ dpi s' = dpi s /\ tile s' = tile s
    /\ (forall c, grid_shape self = Ok (c, c) -> 0 < c ->
          cell_w s' = cell_h s /\ cell_h s' = cell_w s).
Proof.
  intros Ho Hs.
  apply gather_settings_inv in Hs
    as (pw & ph & c & r & Hp & Hg & Hd & Hb & Hsp & Hm & Hw & Hh & Hcell & _).
  assert (paper_inches (with_orient_row 1 self) = Ok (ph, pw)) as Hp'.
  { unfold paper_inches in *.
    cbn [with_orient_row orient_row paper_row Nat.eqb].
    destruct (orient_row self =? 1)%nat eqn:E;
      [by apply Nat.eqb_eq in E|].
    unfold mbind, result_bind in *.
    destruct (index PAPER_NAMES (paper_row self)); [|discriminate].
    destruct (getitem PAPERS _) as [[x y]|]; [|discriminate].
    simplify_eq. reflexivity. }
  eexists. split.
  { eapply (gather_settings_intro (with_orient_row 1 self) o); eassumption. }
  simpl. repeat split.
  - unfold cell_size in *.
    destruct ((0 <? c) && (0 <? r)) eqn:E.
    + injection Hcell as <- _ _. reflexivity.
    + injection Hcell as <- _ _. reflexivity.
  - rewrite Hg in H. injection H as <- <-.
    rewrite cell_size_grid in Hcell |- * by lia.
    injection Hcell as _ _ <-. reflexivity.
  - rewrite Hg in H. injection H as <- <-.
    rewrite cell_size_grid in Hcell |- * by lia.
    injection Hcell as _ <- _. reflexivity.
Qed.

Lemma landscape_swaps_canvas_witness :
  exists s',
    _gather_settings (with_orient_row 1 default_form) None = Ok s'
    /\ canvas_w s' = 3507 /\ canvas_h s' = 2481.
Proof.
  destruct (landscape_swaps_canvas default_form None default_settings
              ltac:(discriminate) default_gathered)
    as (s' & Hs' & Hw & Hh & _).
  exists s'. repeat split; assumption.
Defined.

(** X8. On a concrete grid the cells the planner computes fit the
    canvas, with their borders, their spacing and the two margins,
    exactly when the clamp to 64 is not needed; they then leave fewer
    pixels over than there are columns (or rows).  When the clamp is
    needed the tiled cells are larger than the canvas. *)
Theorem grid_fits_canvas (self : Form) (o : option Z) (s : Settings)
  (cols rows : Z) :
  _gather_settings self o = Ok s ->
  grid_shape self = Ok (cols, rows) -> 1 <= cols -> 1 <= rows ->
  (tiled cols (cell_w s) (border s) (spacing s) (margin s) <= canvas_w s
   <-> 64 <= (canvas_w s - 2 * margin s
              - cols * 2 * (border s + spacing s)) / cols)
  /\ (tiled rows (cell_h s) (border s) (spacing s) (margin s) <= canvas_h s
      <-> 64 <= (canvas_h s - 2 * margin s
                 - rows * 2 * (border s + spacing s)) / rows)
  /\ (tiled cols (cell_w s) (border s) (spacing s) (margin s) <= canvas_w s
      -> canvas_w s
         < tiled cols (cell_w s) (border s) (spacing s) (margin s) + cols)
  /\ (tiled rows (cell_h s) (border s) (spacing s) (margin s) <= canvas_h s
      -> canvas_h s
         < tiled rows (cell_h s) (border s) (spacing s) (margin s) + rows).
Proof.
  intros Hs Hg Hc Hr.
  apply gather_settings_inv in Hs
    as (pw & ph & c & r & _ & Hg' & _ & _ & _ & _ & _ & _ & Hcell & _).
  rewrite Hg in Hg'. injection Hg' as <- <-.
  rewrite cell_size_grid in Hcell by assumption.
  injection Hcell as _ Hw Hh. unfold tiled. rewrite <- Hw, <- Hh.
  set (X := canvas_w s - 2 * margin s - cols * 2 * (border s + spacing s)).
  set (Y := canvas_h s - 2 * margin s - rows * 2 * (border s + spacing s)).
  pose proof (Z.div_mod X cols ltac:(lia)) as HX.
  pose proof (Z.mod_pos_bound X cols ltac:(lia)) as HX'.
  pose proof (Z.div_mod Y rows ltac:(lia)) as HY.
  pose proof (Z.mod_pos_bound Y rows ltac:(lia)) as HY'.
  repeat split; intros; subst X Y; nia.
Qed.

Lemma grid_fits_canvas_witness :
  tiled 2 1208 2 4 20 <= 2481 /\ 2481 < tiled 2 1208 2 4 20 + 2.
Proof.
  destruct (grid_fits_canvas default_form None default_settings 2 2
              default_gathered eq_refl ltac:(lia) ltac:(lia))
    as (Hw & _ & Hwaste & _).
  simpl in Hw, Hwaste. split; [apply Hw; vm_compute; discriminate|].
  apply Hwaste. apply Hw. vm_compute. discriminate.
Defined.

(** Every layout is a grid with at least one column and one row, or the
    contact sheet, which is the last one and has no shape. *)
Lemma layout_shapes (self : Form) (c r : Z) :
  grid_shape self = Ok (c, r) ->
  (layout_row self <> 6%nat /\ 1 <= c <= 5 /\ 1 <= r <= 5)
  \/ (layout_row self = 6%nat /\ c = 0 /\ r = 0).
Proof.
  unfold grid_shape.
  destruct (layout_row self) as [|[|[|[|[|[|[|?]]]]]]];
    intros Hg; vm_compute in Hg; try discriminate Hg;
    injection Hg as <- <-;
    first [ left; repeat split; (lia || congruence)
          | right; repeat split; (lia || congruence) ].
Qed.

(** X9. Chunking never fails on the settings the planner returns,
    whatever the form, the DPI override and the images: the chunks
    concatenate to the image list, there are at most as many of them as
    images (one, holding every image, for the contact sheet, which is
    the seventh layout), and when there is an image there is a chunk and
    no chunk is empty. *)
Theorem planned_chunks_cover (self : Form) (o : option Z) (s : Settings)
  (imgs : list string) :
  _gather_settings self o = Ok s ->
  exists chunks,
    _chunk_images imgs s = Ok chunks
    /\ concat chunks = imgs
    /\ (length chunks <= Nat.max 1 (length imgs))%nat
    /\ (imgs <> [] -> chunks <> [] /\ Forall (fun c => c <> []) chunks)
    /\ (layout_row self = 6%nat -> chunks = [imgs])
    /\ (layout_row self <> 6%nat -> imgs = [] -> chunks = []).
Proof.
  intros Hs.
  apply gather_settings_inv in Hs
    as (pw & ph & c & r & _ & Hg & _ & _ & _ & _ & _ & _ & Hcell & _).
  destruct (layout_shapes self c r Hg)
    as [(Hl & Hc & Hr) | (Hl & -> & ->)].
  - rewrite cell_size_grid in Hcell by lia. injection Hcell as Ht _ _.
    pose proof (planner_tile_reads c r ltac:(lia) ltac:(lia)) as Hreads.
    rewrite Ht in Hreads.
    rewrite (chunk_images_groups imgs s c r ltac:(lia) ltac:(lia) Hreads).
    eexists. split; [reflexivity|].
    assert (0 < c * r) as HP by nia.
    pose proof (ceil_div_bounds (Z.of_nat (length imgs)) (c * r) HP) as Hb.
    set (m := ceil_div (Z.of_nat (length imgs)) (c * r)) in *.
    assert (0 <= m) as Hm by nia.
    rewrite groups_length. split; [|split; [|split; [|split]]].
    + rewrite groups_concat. apply take_ge. nia.
    + nia.
    + intros Hne. assert (0 < length imgs)%nat as Hlen.
      { destruct imgs; [done | simpl; lia]. }
      split.
      * intros Hnil. apply (f_equal length) in Hnil.
        rewrite groups_length in Hnil. simpl in Hnil. nia.
      * apply Forall_lookup. intros k ch Hk.
        apply groups_lookup in Hk as [Hkm ->]. intros Hnil.
        apply (f_equal length) in Hnil.
        rewrite length_take, length_drop in Hnil. simpl in Hnil. nia.
    + intros ?. contradiction.
    + intros _ ->. subst m. reflexivity.
  - rewrite cell_size_auto in Hcell by lia. injection Hcell as Ht _ _.
    unfold _chunk_images. rewrite <- Ht. simpl.
    eexists. split; [reflexivity|]. simpl. rewrite app_nil_r.
    repeat split; try done; try lia.
    by repeat constructor.
Qed.

Lemma planned_chunks_cover_witness :
  exists chunks,
    _chunk_images nine_images default_settings = Ok chunks
    /\ concat chunks = nine_images /\ (length chunks <= 9)%nat.
Proof.
  destruct (planned_chunks_cover default_form None default_settings
              nine_images default_gathered)
    as (chunks & Hc & Hcat & Hlen & _).
  exists chunks. repeat split; assumption.
Defined.

(** X10. On a tile spec the planner never writes, chunking fails or
    loses the images: a spec whose capacity [C * R] is zero raises
    [ValueError], as does a spec that is not empty and has no [x] in it;
    a spec whose capacity is negative gives no chunk at all, whatever
    the images. *)
Theorem chunk_images_degenerate (imgs : list string) (s : Settings) :
  (forall C R, reads_as (tile s) C R -> C * R = 0 ->
     _chunk_images imgs s = Raise ValueError)
  /\ (forall C R, reads_as (tile s) C R -> C * R < 0 ->
        _chunk_images imgs s = Ok [])
  /\ (tile s <> "" ->
      all_chars (fun c => negb (Ascii.eqb c "x")) (tile s) = true ->
      _chunk_images imgs s = Raise ValueError).
Proof.
  split; [|split].
  - intros C R (c & r & Hsplit & Hc & Hr) Hz. unfold _chunk_images.
    assert (nonempty (tile s) = true) as ->.
    { destruct (tile s); [discriminate Hsplit | reflexivity]. }
    rewrite Hsplit, Hc, Hr. simpl. unfold range0. rewrite Hz. reflexivity.
  - intros C R (c & r & Hsplit & Hc & Hr) Hneg. unfold _chunk_images.
    assert (nonempty (tile s) = true) as ->.
    { destruct (tile s); [discriminate Hsplit | reflexivity]. }
    rewrite Hsplit, Hc, Hr. simpl. unfold range0.
    destruct (Z.eqb_spec (C * R) 0) as [?|_]; [lia|].
    destruct (Z.ltb_spec 0 (C * R)) as [?|_]; [lia|]. simpl.
    set (n := Z.of_nat (length imgs)).
    assert ((n + C * R + 1) / (C * R) <= 0) as Hq.
    { pose proof (Z.div_mod (n + C * R + 1) (C * R) ltac:(lia)).
      pose proof (Z.mod_neg_bound (n + C * R + 1) (C * R) Hneg).
      assert (0 <= n) by (subst n; lia). nia. }
    replace (Z.to_nat ((n + C * R + 1) / (C * R))) with 0%nat by lia.
    reflexivity.
  - intros Hne Hx. unfold _chunk_images.
    assert (nonempty (tile s) = true) as ->.
    { destruct (tile s); [contradiction | reflexivity]. }
    by rewrite (split_plain "x" (tile s) Hx).
Qed.

Lemma chunk_images_degenerate_witness :
  _chunk_images nine_images (with_tile "0x3" default_settings)
  = Raise ValueError
  /\ _chunk_images nine_images (with_tile "-2x2" default_settings) = Ok [].
Proof.
  split.
  - destruct (chunk_images_degenerate nine_images
                (with_tile "0x3" default_settings)) as (Hzero & _).
    apply (Hzero 0 3); [|reflexivity].
    apply (planner_tile_reads 0 3); lia.
  - destruct (chunk_images_degenerate nine_images
                (with_tile "-2x2" default_settings)) as (_ & Hneg & _).
    apply (Hneg (-2) 2); [|reflexivity].
    exists "-2", "2". repeat split; vm_compute; reflexivity.
Defined.

(** ** The colours *)

Lemma lstrip_starts s : starts_solid (lstrip s) = true.
Proof.
  induction s as [|c r IH]; simpl; [done|].
  destruct (isspace c) eqn:E; [assumption | by simpl; rewrite E].
Qed.

Lemma lstrip_solid s : starts_solid s = true -> lstrip s = s.
Proof.
  destruct s as [|c r]; simpl; [done|].
  by intros ->%negb_true_iff.
Qed.

Lemma rstrip_starts s : starts_solid s = true -> starts_solid (rstrip s) = true.
Proof.
  destruct s as [|c r]; simpl; [done|]. intros Hc.
  destruct (rstrip r); [|assumption].
  apply negb_true_iff in Hc. by rewrite Hc; simpl; rewrite Hc.
Qed.

Lemma rstrip_idem s : rstrip (rstrip s) = rstrip s.
Proof.
  induction s as [|c r IH]; simpl; [done|].
  destruct (rstrip r) as [|a r'] eqn:E.
  - destruct (isspace c) eqn:Ec; simpl; [done | by rewrite Ec].
  - change (rstrip (String c (String a r')))
      with (match rstrip (String a r') with
            | EmptyString =>
                if isspace c then EmptyString else String c EmptyString
            | r'' => String c r''
            end).
    by rewrite IH.
Qed.

Lemma strip_idem s : strip (strip s) = strip s.
Proof.
  unfold strip.
  rewrite (lstrip_solid (rstrip (lstrip s))), rstrip_idem; [done|].
  apply rstrip_starts, lstrip_starts.
Qed.

Lemma lstrip_blank s : all_chars isspace s = true -> lstrip s = "".
Proof.
  induction s as [|c r IH]; simpl; [done|].
  intros [-> Hr]%andb_true_iff. auto.
Qed.

Lemma strip_blank s : all_chars isspace s = true -> strip s = "".
Proof. intros Hs. unfold strip. by rewrite lstrip_blank. Qed.

Lemma str_or_strip_fixed s d :
  nonempty d = true -> strip d = d ->
  nonempty (str_or (strip s) d) = true
  /\ strip (str_or (strip s) d) = str_or (strip s) d.
Proof.
  intros Hd Hs. unfold str_or.
  destruct (nonempty (strip s)) eqn:E; [|done].
  split; [done | apply strip_idem].
Qed.

(** X11. The two colours the planner returns are never empty and carry
    no whitespace at either end, whatever is typed in the two rows; a
    row left blank, or holding only whitespace, gives [white] for the
    background and [gray] for the border. *)
Theorem colors_trimmed (self : Form) (o : option Z) (s : Settings) :
  _gather_settings self o = Ok s ->
  nonempty (bg s) = true /\ nonempty (border_color s) = true
  /\ strip (bg s) = bg s /\ strip (border_color s) = border_color s
  /\ (all_chars isspace (bg_row self) = true -> bg s = "white")
  /\ (all_chars isspace (border_color_row self) = true ->
      border_color s = "gray").
Proof.
  intros Hs. pose proof Hs as Hs'.
  apply gather_settings_inv in Hs'
    as (pw & ph & c & r & Hp & Hg & Hd & Hb & Hsp & Hm & Hw & Hh & _).
  rewrite (gather_settings_intro self o _ _ _ _ _ _ _ _ _ _
             Hp Hd Hg Hb Hsp Hm Hw Hh) in Hs.
  injection Hs as <-.
  cbn [bg border_color].
  destruct (str_or_strip_fixed (bg_row self) "white" eq_refl eq_refl)
    as [? ?].
  destruct (str_or_strip_fixed (border_color_row self) "gray" eq_refl eq_refl)
    as [? ?].
  repeat split; try assumption.
  - intros Hblank. by rewrite strip_blank.
  - intros Hblank. by rewrite strip_blank.
Qed.

Lemma colors_trimmed_witness :
  exists s,
    _gather_settings (with_colors "  " " navy " default_form) None = Ok s
    /\ bg s = "white" /\ strip (border_color s) = border_color s.
Proof.
  eexists. split; [vm_compute; reflexivity|].
  destruct (colors_trimmed (with_colors "  " " navy " default_form) None _
              ltac:(vm_compute; reflexivity))
    as (_ & _ & _ & Hc & Hbg & _).
  split; [apply Hbg; reflexivity | exact Hc].
Defined.

(** ** The orientation of the canvas *)

Lemma paper_exact_bounds (self : Form) (x y : Z) :
  paper_exact self = Ok (x, y) ->
  400 <= x <= 1654 /\ 400 <= y <= 1654
  /\ (orient_row self <> 1%nat -> x <= y)
  /\ (orient_row self = 1%nat -> y <= x).
Proof.
  unfold paper_exact.
  destruct (Nat.eqb_spec (orient_row self) 1) as [Ho|Ho];
    destruct (paper_row self) as [|[|[|[|[|[|[|[|[|?]]]]]]]]];
    intros Hp; vm_compute in Hp; try discriminate Hp;
    injection Hp as <- <-; repeat split; intros; (lia || contradiction).
Qed.

Lemma planned_dpi_bounds d : In d PLANNED_DPI -> 72 <= d <= 600.
Proof. simpl. intros [<-|[<-|[<-|[<-|[]]]]]; lia. Qed.

(** X12. At the resolutions the handlers plan with, a portrait canvas is
    never wider than it is high and a landscape canvas never higher than
    it is wide, and both dimensions lie between 288 and 9924 pixels. *)
Theorem canvas_orientation (self : Form) (o : option Z) (s : Settings) :
  _gather_settings self o = Ok s ->
  o = None \/ o = Some 72 ->
  (orient_row self <> 1%nat -> canvas_w s <= canvas_h s)
  /\ (orient_row self = 1%nat -> canvas_h s <= canvas_w s)
  /\ 288 <= canvas_w s <= 9924 /\ 288 <= canvas_h s <= 9924.
Proof.
  intros Hs Ho.
  apply gather_settings_inv in Hs
    as (pw & ph & c & r & Hp & _ & Hdpi & _ & _ & _ & Hw & Hh & _).
  assert (In (dpi s) PLANNED_DPI) as Hd.
  { destruct Ho as [-> | ->]; simpl in Hdpi.
    - by eapply dpi_choice_planned.
    - injection Hdpi as <-. by left. }
  destruct (canvas_exact self pw ph (dpi s) Hp Hd)
    as (x & y & Hx & Hxw & Hyh & _).
  rewrite Hw in Hxw. rewrite Hh in Hyh.
  injection Hxw as ->. injection Hyh as ->.
  apply paper_exact_bounds in Hx as (Hxb & Hyb & Hup & Hdown).
  apply planned_dpi_bounds in Hd.
  repeat split.
  - intros Hor. apply Z.div_le_mono; [lia|]. specialize (Hup Hor). nia.
  - intros Hor. apply Z.div_le_mono; [lia|]. specialize (Hdown Hor). nia.
  - apply Z.div_le_lower_bound; nia.
  - apply Z.div_le_upper_bound; nia.
  - apply Z.div_le_lower_bound; nia.
  - apply Z.div_le_upper_bound; nia.
Qed.

Lemma canvas_orientation_witness :
  canvas_w default_settings <= canvas_h default_settings
  /\ 288 <= canvas_w default_settings <= 9924.
Proof.
  destruct (canvas_orientation default_form None default_settings
              default_gathered (or_introl eq_refl))
    as (Hup & _ & Hw & _).
  split; [apply Hup; discriminate | exact Hw].
Defined.

(** ** The pages of a preview and of a document *)

Lemma step_nobrace (render : field -> Z -> result string) (c : ascii)
  (k : Z) :
  nobrace c = true -> step render k Literal c = Ok (String c "", Literal).
Proof.
  destruct c as [[] [] [] [] [] [] [] []]; intros Hc;
    try discriminate Hc; reflexivity.
Qed.

Lemma format_page_nobrace (render : field -> Z -> result string) (c : ascii)
  (r : string) (k : Z) :
  nobrace c = true ->
  format_page render (String c r) k = String c <$> format_page render r k.
Proof.
  intros Hc. unfold format_page. cbn [scan].
  rewrite (step_nobrace render c k Hc).
  unfold mbind, result_bind. cbv beta iota.
  by destruct (scan render k Literal r).
Qed.

Lemma format_page_prefix (render : field -> Z -> result string)
  (d rest : string) (k : Z) :
  all_chars nobrace d = true ->
  format_page render (d +:+ rest) k
  = String.append d <$> format_page render rest k.
Proof.
  induction d as [|c r IH]; intros Hd.
  - change ("" +:+ rest) with rest. by destruct (format_page render rest k).
  - simpl in Hd. apply andb_true_iff in Hd as [Hc Hr].
    change (String c r +:+ rest) with (String c (r +:+ rest)).
    rewrite (format_page_nobrace render c _ k Hc), (IH Hr).
    by destruct (format_page render rest k).
Qed.

Lemma format_temp_page (render : field -> Z -> result string) (d : string)
  (k : Z) :
  all_chars nobrace d = true ->
  format_page render (d +:+ "page-{page}.png") k
  = Ok (d +:+ "page-" +:+ str k +:+ ".png").
Proof. intros Hd. by rewrite (format_page_prefix render d _ k Hd). Qed.

Lemma split_all_chars (p : ascii -> bool) (sep : ascii) (s : string) :
  all_chars p s = true ->
  Forall (fun x => all_chars p x = true) (split sep s).
Proof.
  induction s as [|c r IH]; simpl; [by repeat constructor|].
  intros [Hc Hr]%andb_true_iff. specialize (IH Hr).
  destruct (Ascii.eqb c sep); [by constructor|].
  destruct (split sep r) as [|a l].
  - repeat constructor. simpl. by rewrite Hc.
  - inversion IH; subst. constructor; [|assumption].
    simpl. by rewrite Hc.
Qed.

Lemma root_of_nobrace (t : string) : all_chars nobrace (root_of t) = true.
Proof.
  unfold root_of.
  destruct t as [|c [|c' [|c'' r]]]; try reflexivity;
    repeat match goal with
      | |- context [match ?a with Ascii _ _ _ _ _ _ _ _ => _ end] =>
          destruct a as [[] [] [] [] [] [] [] []]
      end; reflexivity.
Qed.

Lemma dir_prefix_nobrace (t : string) :
  all_chars nobrace t = true -> all_chars nobrace (dir_prefix t) = true.
Proof.
  intros Ht. unfold dir_prefix, Path. cbn [root parts].
  rewrite all_chars_app, root_of_nobrace. simpl.
  pose proof (split_all_chars nobrace "/" t Ht) as Hs.
  induction Hs as [|a l Ha _ IH]; [reflexivity|].
  simpl. destruct (is_component a); [|assumption].
  cbn [foldr]. rewrite !all_chars_app, Ha, IH. reflexivity.
Qed.

Lemma append_assoc (a b c : string) : (a +:+ b) +:+ c = a +:+ (b +:+ c).
Proof.
  induction a as [|x a IH]; [reflexivity|].
  change (String x ((a +:+ b) +:+ c) = String x (a +:+ (b +:+ c))).
  by rewrite IH.
Qed.

Lemma join_snoc (ps : list string) (x : string) :
  join "/" (ps ++ [x]) = foldr (fun p acc => p +:+ "/" +:+ acc) "" ps +:+ x.
Proof.
  induction ps as [|a l IH]; [reflexivity|].
  change ((a :: l) ++ [x]) with (a :: (l ++ [x])).
  cbn [foldr]. rewrite !append_assoc, <- IH.
  destruct l; reflexivity.
Qed.

(** The pattern both handlers format the page files from. *)
Lemma temp_pattern (t : string) :
  to_str (joinpath (Path t) "page-{page}.png")
  = dir_prefix t +:+ "page-{page}.png".
Proof.
  unfold dir_prefix.
  change (joinpath (Path t) "page-{page}.png")
    with {| root := root (Path t);
            parts := parts (Path t) ++ ["page-{page}.png"] |}.
  unfold to_str. cbn [root parts].
  rewrite append_assoc, <- join_snoc.
  destruct (root (Path t)); [|reflexivity].
  destruct (parts (Path t)); reflexivity.
Qed.

Lemma temp_pages_S (t : string) (n : nat) :
  temp_pages t (S n) = temp_pages t n ++ [temp_page t (1 + Z.of_nat n)].
Proof. unfold temp_pages. by rewrite seq_S, fmap_app. Qed.

Lemma output_files_app (evs evs' : list Event) :
  output_files (evs ++ evs') = output_files evs ++ output_files evs'.
Proof. unfold output_files. apply omap_app. Qed.

Lemma last_cmd2 s dest : last (cmd2 s dest) = Some dest.
Proof. reflexivity. Qed.

Lemma output_files_page s chunk dest rs :
  output_files (page_events s chunk dest rs) = [dest].
Proof. reflexivity. Qed.

Lemma output_files_render s (jobs : list (list string * string)) :
  forall results,
    length results = length jobs ->
    output_files (render_events s jobs results) = jobs.*2.
Proof.
  induction jobs as [|[chunk dest] js IH]; intros [|rs results] Hlen;
    try discriminate Hlen; [reflexivity|].
  cbn [render_events]. rewrite output_files_app, output_files_page.
  injection Hlen as Hlen. by rewrite (IH _ Hlen).
Qed.

Section Pages.

Context `{OS}.

(** The loop of [_run_all_pages] when every child process succeeds. *)
Lemma run_pages_succeeded (s : Settings) (d : string) (chunks : list (list string)) :
  all_chars nobrace d = true ->
  forall (i : Z) (paths : list string) (st : State),
    let out := run_pages s (d +:+ "page-{page}.png") i chunks paths st in
    let new := (fun k : nat => d +:+ "page-" +:+ str (i + 1 + Z.of_nat k)
                                 +:+ ".png") <$> seq 0 (length chunks) in
    Forall succeeded out.1.1 ->
    exists results,
      length results = length chunks
      /\ out.1.1 = render_events s (zip chunks new) results
      /\ out.2 = Return (paths ++ new)
      /\ _preview_win out.1.2 = _preview_win st.
Proof.
  intros Hd. induction chunks as [|chunk rest IH]; intros i paths st out new Hev.
  - exists []. subst out new. simpl. by rewrite app_nil_r.
  - subst out new. revert Hev. rewrite run_pages_cons, bind_run.
    rewrite (format_temp_page format_field d (i + 1) Hd). unfold lift.
    set (dest := d +:+ "page-" +:+ str (i + 1) +:+ ".png").
    rewrite bind_run.
    pose proof (run_montage_succeeded chunk s dest st) as Hm.
    destruct (_run_montage chunk s dest st) as [[evs st'] [[]|e]];
      simpl in Hm.
    + specialize (IH (i + 1) (paths ++ [dest]) st').
      destruct (run_pages s (d +:+ "page-{page}.png") (i + 1) rest
                  (paths ++ [dest]) st') as [[evs' st''] r].
      simpl in IH. cbn [fst snd app]. intros Hev.
      apply Forall_app in Hev as [Hev1 Hev2].
      destruct (Hm Hev1) as (rs & -> & _ & Hw).
      destruct (IH Hev2) as (results & Hlen & -> & -> & Hw').
      exists (rs :: results).
      assert ((fun k : nat => d +:+ "page-" +:+ str (i + 1 + Z.of_nat k)
                               +:+ ".png") <$> seq 0 (length (chunk :: rest))
              = dest :: ((fun k : nat =>
                            d +:+ "page-" +:+ str (i + 1 + 1 + Z.of_nat k)
                              +:+ ".png") <$> seq 0 (length rest))) as ->.
      { cbn [length seq fmap list_fmap]. subst dest. f_equal.
        - replace (i + 1 + Z.of_nat 0) with (i + 1) by lia. reflexivity.
        - rewrite <- seq_shift, <- list_fmap_compose.
          apply list_fmap_ext. intros _ k _. simpl.
          replace (i + 1 + Z.of_nat (S k)) with (i + 1 + 1 + Z.of_nat k)
            by lia.
          reflexivity. }
      cbn [length zip zip_with render_events]. rewrite Hlen, <- app_assoc.
      repeat split; try reflexivity; congruence.
    + cbn [fst snd]. intros Hev.
      destruct (Hm Hev) as (rs & _ & Hr & _). discriminate Hr.
Qed.

(** [_run_all_pages], run. *)
Lemma run_all_pages_run (self : Window) (s : Settings) (pattern : string)
  (st : State) (chunks : list (list string)) :
  _chunk_images (images self) s = Ok chunks ->
  _run_all_pages self s pattern st = run_pages s pattern 0 chunks [] st.
Proof.
  intros Hc. unfold _run_all_pages. rewrite bind_run, Hc. unfold lift.
  by destruct (run_pages s pattern 0 chunks [] st) as [[evs st'] r].
Qed.

Lemma run_all_pages_succeeded (self : Window) (s : Settings) (t : string)
  (st : State) (chunks : list (list string)) :
  all_chars nobrace t = true ->
  _chunk_images (images self) s = Ok chunks ->
  let out := _run_all_pages self s
               (to_str (joinpath (Path t) "page-{page}.png")) st in
  Forall succeeded out.1.1 ->
  exists results,
    length results = length chunks
    /\ out.1.1
       = render_events s (zip chunks (temp_pages t (length chunks))) results
    /\ out.2 = Return (temp_pages t (length chunks))
    /\ _preview_win out.1.2 = _preview_win st.
Proof.
  intros Ht Hc out. subst out.
  rewrite (run_all_pages_run self s _ st chunks Hc), temp_pattern.
  intros Hev.
  destruct (run_pages_succeeded s (dir_prefix t) chunks
              (dir_prefix_nobrace t Ht) 0 [] st Hev)
    as (results & Hlen & Hevs & Hr & Hw).
  exists results. repeat split; assumption.
Qed.

(** The branch of [_on_save_ready] for one image file, run. *)
Lemma save_ready_single_run (self : Window) (dest : string)
  (s : Settings) (st : State) (chunk : list string) :
  pdf s = false ->
  _chunk_images (images self) s = Ok [chunk] ->
  _on_save_ready self (Some dest) s st
  = let '(evs, st', r) := _run_montage chunk s dest st in
    match r with
    | Return _ =>
        (evs ++ Toast ("Saved to " +:+ name (Path dest))
                :: (if _preview_win st' then [ClosePreview] else []),
         if _preview_win st' then closed st' else st', Return tt)
    | Throw (Builtin e) => (evs, st', Throw (Builtin e))
    | Throw (CalledProcessError _ _ _ err) =>
        (evs ++ [Toast ("Error: " +:+ error_excerpt err)], st', Return tt)
    end.
Proof.
  intros Hpdf Hc.
  unfold _on_save_ready. rewrite bind_run, Hc. unfold lift.
  unfold try_except. rewrite Hpdf.
  change (length [chunk] =? 1)%nat with true. cbv iota.
  rewrite !bind_run.
  change (index [chunk] 0) with (Ok chunk). cbv iota beta.
  rewrite bind_run.
  destruct (_run_montage chunk s dest st)
    as [[evs st'] [[]|[e|c rc o err]]]; try reflexivity.
  unfold add_toast, emit. cbv beta iota. rewrite bind_run. unfold get.
  cbv beta iota.
  destruct (_preview_win st'); rewrite ?close_preview_run;
    cbn -[str String.append name Path]; rewrite <- ?app_assoc; reflexivity.
Qed.

(** The branch of [_on_save_ready] for a document, run. *)
Lemma save_ready_pdf_run (self : Window) (dest : string)
  (s : Settings) (st : State) (chunks : list (list string)) :
  pdf s = true ->
  _chunk_images (images self) s = Ok chunks ->
  _on_save_ready self (Some dest) s st
  = try_except
      (_ ← (tmpdir ← tempfile_mkdtemp "photogrid_pdf_";
            page_files ← _run_all_pages self s
                           (to_str (joinpath (Path tmpdir) "page-{page}.png"));
            _ ← subprocess_run (merge_cmd s page_files dest) None;
            add_toast ("Saved " +:+ str (Z.of_nat (length page_files))
                       +:+ "-page PDF"));
       st ← get;
       if _preview_win st then close_preview else mret tt)
      error_toast st.
Proof.
  intros Hpdf Hc.
  unfold _on_save_ready. rewrite bind_run, Hc. unfold lift.
  cbv iota beta. rewrite Hpdf.
  unfold merge_cmd, pdf_dest.
  match goal with
  | |- _ = try_except ?b ?h ?s =>
      by destruct (try_except b h s) as [[evs st'] r]
  end.
Qed.

End Pages.

(** X13. When the path of the temporary directory has no brace,
    [_run_all_pages] returns the files [page-1.png], [page-2.png], ...
    of that directory, one per chunk, exactly when every child process
    it starts succeeds; these are then the files written, in the order
    of the chunks, each chunk rendered by the two stages of
    [_run_montage]. *)
Theorem all_pages_rendered `{OS} (self : Window) (s : Settings) (t : string)
  (st : State) (chunks : list (list string)) :
  all_chars nobrace t = true ->
  _chunk_images (images self) s = Ok chunks ->
  let out := _run_all_pages self s
               (to_str (joinpath (Path t) "page-{page}.png")) st in
  let pages := temp_pages t (length chunks) in
  (Forall succeeded out.1.1 <-> out.2 = Return pages)
  /\ (Forall succeeded out.1.1 ->
      output_files out.1.1 = pages
      /\ exists results,
           length results = length chunks
           /\ out.1.1 = render_events s (zip chunks pages) results).
Proof.
  intros Ht Hc out pages.
  pose proof (run_all_pages_succeeded self s t st chunks Ht Hc) as Hok.
  pose proof (tidy_run_all_pages self s
                (to_str (joinpath (Path t) "page-{page}.png")) st) as Htidy.
  fold out in Hok, Htidy. fold pages in Hok.
  split; [split|].
  - intros Hev. by destruct (Hok Hev) as (results & _ & _ & Hr & _).
  - intros Hr. destruct out as [[evs st'] r]. simpl in Hr. subst r.
    exact Htidy.
  - intros Hev. destruct (Hok Hev) as (results & Hlen & Hevs & _ & _).
    split; [|by exists results].
    rewrite Hevs, output_files_render.
    + apply snd_zip. unfold pages, temp_pages.
      rewrite length_fmap, length_seq. lia.
    + rewrite length_zip_with. unfold pages, temp_pages.
      rewrite length_fmap, length_seq. lia.
Qed.

(** Nine images on a 2 x 2 grid: three page files. *)
Lemma all_pages_rendered_witness :
  (@_run_all_pages working_os nine_window default_settings
     (to_str (joinpath (Path "/tmp/photogrid_x7k2m9qa") "page-{page}.png"))
     (initial_state working_os 0%nat)).2
  = Return ["/tmp/photogrid_x7k2m9qa/page-1.png";
            "/tmp/photogrid_x7k2m9qa/page-2.png";
            "/tmp/photogrid_x7k2m9qa/page-3.png"].
Proof.
  assert (_chunk_images (images nine_window) default_settings = Ok nine_chunks)
    as Hc by (vm_compute; reflexivity).
  destruct (all_pages_rendered (H := working_os) nine_window default_settings
              "/tmp/photogrid_x7k2m9qa" (initial_state working_os 0%nat)
              nine_chunks eq_refl Hc) as [[Hret _] _].
  rewrite Hret; [vm_compute; reflexivity|].
  vm_compute. repeat constructor.
Defined.

(** X14. A request to save images, not a document, whose image list is
    a single chunk renders that chunk to the chosen path itself, as it
    was chosen: when the two child processes succeed, that file is the
    only one written, the toast names its final component, and the
    preview window, if one was open, is closed. *)
Theorem save_single_file `{OS} (self : Window) (dest : string) (s : Settings)
  (st : State) (chunk : list string) :
  pdf s = false ->
  _chunk_images (images self) s = Ok [chunk] ->
  let out := _on_save_ready self (Some dest) s st in
  Forall succeeded out.1.1 ->
  (exists rs,
     out.1.1 = page_events s chunk dest rs
               ++ Toast ("Saved to " +:+ name (Path dest))
                  :: (if _preview_win st then [ClosePreview] else []))
  /\ output_files out.1.1 = [dest]
  /\ out.2 = Return tt
  /\ _preview_win out.1.2 = false.
Proof.
  intros Hpdf Hc out. subst out.
  rewrite (save_ready_single_run self dest s st chunk Hpdf Hc).
  pose proof (run_montage_succeeded chunk s dest st) as Hm.
  destruct (_run_montage chunk s dest st) as [[evs st'] [[]|[e|c rc o err]]];
    simpl in Hm; cbn -[str String.append name Path output_files]; intros Hev.
  - apply Forall_app in Hev as [Hev _].
    destruct (Hm Hev) as (rs & -> & _ & Hw). rewrite Hw.
    split; [by exists rs|]. split; [|split; [reflexivity|]].
    + rewrite output_files_app, output_files_page.
      by destruct (_preview_win st).
    + destruct (_preview_win st) eqn:E; [reflexivity|]. by rewrite Hw.
  - destruct (Hm Hev) as (rs & _ & Hr & _). discriminate Hr.
  - apply Forall_app in Hev as [Hev _].
    destruct (Hm Hev) as (rs & _ & Hr & _). discriminate Hr.
Qed.

(** A contact sheet of nine images: one file. *)
Lemma save_single_file_witness :
  output_files
    (@_on_save_ready working_os contact_window (Some "/home/u/sheet.jpg")
       contact_settings (initial_state working_os 0%nat)).1.1
  = ["/home/u/sheet.jpg"].
Proof.
  destruct (save_single_file (H := working_os) contact_window
              "/home/u/sheet.jpg" contact_settings
              (initial_state working_os 0%nat) nine_images
              eq_refl eq_refl) as (_ & Hout & _).
  - vm_compute. repeat constructor.
  - exact Hout.
Defined.

Lemma lower_app (a b : string) : lower (a +:+ b) = lower a +:+ lower b.
Proof.
  induction a as [|c r IH]; [reflexivity|].
  change (String (lower_char c) (lower (r +:+ b))
          = String (lower_char c) (lower r +:+ lower b)).
  by rewrite IH.
Qed.

Lemma length_append (a b : string) :
  String.length (a +:+ b) = (String.length a + String.length b)%nat.
Proof.
  induction a as [|c r IH]; [reflexivity|].
  change (S (String.length (r +:+ b)) = S (String.length r + String.length b)).
  by rewrite IH.
Qed.

Lemma substring_append (a b : string) :
  substring (String.length a) (String.length b) (a +:+ b) = b.
Proof.
  induction a as [|c r IH]; [apply substring_all | exact IH].
Qed.

Lemma endswith_append (a b : string) : endswith (a +:+ b) b = true.
Proof.
  unfold endswith. rewrite length_append.
  replace (String.length a + String.length b - String.length b)%nat
    with (String.length a) by lia.
  rewrite substring_append, String.eqb_refl.
  apply andb_true_iff. split; [apply Nat.leb_le; lia | reflexivity].
Qed.

Lemma pdf_dest_ends (dest : string) :
  endswith (lower (pdf_dest dest)) ".pdf" = true.
Proof.
  unfold pdf_dest. destruct (endswith (lower dest) ".pdf") eqn:E; simpl.
  - exact E.
  - rewrite lower_app. apply (endswith_append (lower dest) ".pdf").
Qed.

Lemma pdf_dest_idem (dest : string) : pdf_dest (pdf_dest dest) = pdf_dest dest.
Proof.
  unfold pdf_dest at 1. by rewrite pdf_dest_ends.
Qed.

Lemma last_merge_cmd (s : Settings) (pages : list string) (dest : string) :
  last (merge_cmd s pages dest) = Some (pdf_dest dest).
Proof.
  unfold merge_cmd.
  change ["-units"; "PixelsPerInch"; "-density"; str (dpi s); pdf_dest dest]
    with (["-units"; "PixelsPerInch"; "-density"; str (dpi s)]
          ++ [pdf_dest dest]).
  rewrite !app_assoc. apply last_snoc.
Qed.

Lemma temp_pages_length (t : string) (n : nat) : length (temp_pages t n) = n.
Proof. unfold temp_pages. by rewrite length_fmap, length_seq. Qed.

Section Documents.

Context `{OS}.

(** The branch of [_on_save_ready] for a document, run. *)
Lemma save_ready_pdf_eq (self : Window) (dest : string)
  (s : Settings) (st : State) (chunks : list (list string)) :
  pdf s = true ->
  _chunk_images (images self) s = Ok chunks ->
  _on_save_ready self (Some dest) s st
  = let '(w, t) := mkdtemp (os st) "photogrid_pdf_" in
    let st1 := {| os := w; _preview_win := _preview_win st;
                  _preview_pages := _preview_pages st;
                  _preview_idx := _preview_idx st |} in
    let '(evs, st2, r) :=
      _run_all_pages self s
        (to_str (joinpath (Path t) "page-{page}.png")) st1 in
    match r with
    | Return pages =>
        let '(w3, cp) := spawn (os st2) (merge_cmd s pages dest) None in
        let st3 := {| os := w3; _preview_win := _preview_win st2;
                      _preview_pages := _preview_pages st2;
                      _preview_idx := _preview_idx st2 |} in
        if returncode cp =? 0 then
          (evs ++ Run (merge_cmd s pages dest) None cp
                  :: Toast ("Saved " +:+ str (Z.of_nat (length pages))
                            +:+ "-page PDF")
                  :: (if _preview_win st2 then [ClosePreview] else []),
           if _preview_win st2 then closed st3 else st3, Return tt)
        else
          (evs ++ [Run (merge_cmd s pages dest) None cp;
                   Toast ("Error: " +:+ error_excerpt (stderr cp))],
           st3, Return tt)
    | Throw (Builtin e) => (evs, st2, Throw (Builtin e))
    | Throw (CalledProcessError _ _ _ err) =>
        (evs ++ [Toast ("Error: " +:+ error_excerpt err)], st2, Return tt)
    end.
Proof.
  intros Hpdf Hc.
  rewrite (save_ready_pdf_run self dest s st chunks Hpdf Hc).
  unfold try_except, mbind, M_bind, tempfile_mkdtemp.
  destruct (mkdtemp (os st) "photogrid_pdf_") as [w t].
  destruct (_run_all_pages self s
              (to_str (joinpath (Path t) "page-{page}.png")) _)
    as [[evs st2] [pages|[e|c rc o err]]]; try reflexivity.
  - unfold subprocess_run.
    destruct (spawn (os st2) (merge_cmd s pages dest) None) as [w3 cp].
    destruct (returncode cp =? 0).
    + unfold add_toast, emit, get. cbv iota beta.
      destruct (_preview_win st2) eqn:E;
        cbn -[str String.append merge_cmd close_preview]; rewrite ?E;
        rewrite ?close_preview_run;
        cbn -[str String.append merge_cmd];
        rewrite ?app_nil_r, <- ?app_assoc; reflexivity.
    + unfold error_toast, add_toast, emit.
      cbn -[str String.append merge_cmd error_excerpt].
      rewrite ?app_nil_r, <- ?app_assoc. reflexivity.
Qed.

End Documents.

(** X15. A request to save a document renders every chunk to its page
    file in a fresh temporary directory and then merges the page files,
    in their order, with one more child process, at the planned
    resolution; the document is written to the chosen path when that
    ends with [.pdf] in either case and to the chosen path with [.pdf]
    added otherwise, so that its name always ends with [.pdf]. *)
Theorem save_pdf_document `{OS} (self : Window) (dest : string) (s : Settings)
  (st : State) (chunks : list (list string)) :
  pdf s = true ->
  _chunk_images (images self) s = Ok chunks ->
  let t := (mkdtemp (os st) "photogrid_pdf_").2 in
  all_chars nobrace t = true ->
  let out := _on_save_ready self (Some dest) s st in
  let pages := temp_pages t (length chunks) in
  Forall succeeded out.1.1 ->
  (exists results r,
     length results = length chunks
     /\ out.1.1
        = render_events s (zip chunks pages) results
          ++ Run (merge_cmd s pages dest) None r
             :: Toast ("Saved " +:+ str (Z.of_nat (length chunks))
                       +:+ "-page PDF")
             :: (if _preview_win st then [ClosePreview] else []))
  /\ out.2 = Return tt
  /\ last (merge_cmd s pages dest) = Some (pdf_dest dest)
  /\ endswith (lower (pdf_dest dest)) ".pdf" = true
  /\ (endswith (lower dest) ".pdf" = true -> pdf_dest dest = dest).
Proof.
  intros Hpdf Hc t Ht out pages. subst out pages t.
  rewrite (save_ready_pdf_eq self dest s st chunks Hpdf Hc).
  destruct (mkdtemp (os st) "photogrid_pdf_") as [w t]. simpl in Ht.
  cbn [snd]. cbv zeta.
  set (st1 := {| os := w; _preview_win := _preview_win st;
                 _preview_pages := _preview_pages st;
                 _preview_idx := _preview_idx st |}).
  pose proof (run_all_pages_succeeded self s t st1 chunks Ht Hc) as Hok.
  destruct (_run_all_pages self s
              (to_str (joinpath (Path t) "page-{page}.png")) st1)
    as [[evs st2] [pgs|[e|c rc o err]]]; simpl in Hok.
  - destruct (spawn (os st2) (merge_cmd s pgs dest) None) as [w3 cp].
    destruct (Z.eqb_spec (returncode cp) 0) as [Hrc|Hrc]; cbn [fst snd];
      intros Hev; apply Forall_app in Hev as [Hev1 Hev2].
    + destruct (Hok Hev1) as (results & Hlen & -> & [= ->] & Hw).
      rewrite Hw, temp_pages_length.
      split; [by exists results, cp|].
      split; [reflexivity|]. split; [apply last_merge_cmd|].
      split; [apply pdf_dest_ends|].
      intros Hends. unfold pdf_dest. by rewrite Hends.
    + inversion Hev2; subst. contradiction.
  - cbn [fst snd]. intros Hev.
    destruct (Hok Hev) as (results & _ & _ & Hr & _). discriminate Hr.
  - cbn [fst snd]. intros Hev. apply Forall_app in Hev as [Hev _].
    destruct (Hok Hev) as (results & _ & _ & Hr & _). discriminate Hr.
Qed.

(** Nine images on a 2 x 2 grid, saved as a document: three pages, then
    the merge. *)
Lemma save_pdf_document_witness :
  last (@_on_save_ready working_os nine_window (Some "/home/u/Grid.PDF")
          document_settings (initial_state working_os 0%nat)).1.1
  = Some (Toast "Saved 3-page PDF")
  /\ pdf_dest "/home/u/Grid.PDF" = "/home/u/Grid.PDF".
Proof.
  assert (_chunk_images (images nine_window) document_settings = Ok nine_chunks)
    as Hc by (vm_compute; reflexivity).
  destruct (save_pdf_document (H := working_os) nine_window
              "/home/u/Grid.PDF" document_settings
              (initial_state working_os 0%nat) nine_chunks
              eq_refl Hc eq_refl)
    as ((results & r & _ & Hevs) & _ & _ & _ & Hsame).
  - vm_compute. repeat constructor.
  - split; [|apply Hsame; reflexivity].
    rewrite Hevs, last_app. reflexivity.
Defined.

(** ** The request to generate, and the preview *)

(** Chunking succeeds on what the planner returns. *)
Lemma planned_chunks_exist (self : Form) (o : option Z) (s : Settings)
  (imgs : list string) :
  _gather_settings self o = Ok s ->
  exists chunks, _chunk_images imgs s = Ok chunks /\ concat chunks = imgs.
Proof.
  intros Hs.
  apply gather_settings_inv in Hs
    as (pw & ph & c & r & _ & Hg & _ & _ & _ & _ & _ & _ & Hcell & _).
  destruct (layout_shapes self c r Hg)
    as [(Hl & Hc & Hr) | (Hl & -> & ->)].
  - rewrite cell_size_grid in Hcell by lia. injection Hcell as Ht _ _.
    pose proof (planner_tile_reads c r ltac:(lia) ltac:(lia)) as Hreads.
    rewrite Ht in Hreads.
    rewrite (chunk_images_groups imgs s c r ltac:(lia) ltac:(lia) Hreads).
    eexists. split; [reflexivity|].
    assert (0 < c * r) as HP by nia.
    pose proof (ceil_div_bounds (Z.of_nat (length imgs)) (c * r) HP) as Hb.
    rewrite groups_concat. apply take_ge. nia.
  - rewrite cell_size_auto in Hcell by lia. injection Hcell as Ht _ _.
    unfold _chunk_images. rewrite <- Ht. simpl.
    eexists. split; [reflexivity|]. simpl. by rewrite app_nil_r.
Qed.

Section Preview.

Context `{OS}.

Lemma check_ready_run (self : Window) (st : State) :
  images self <> [] -> magick_found st = true ->
  _check_ready self st = ([], st, Return true).
Proof.
  intros Himg Hm. unfold _check_ready.
  case_bool_decide; [contradiction|].
  rewrite bind_run. unfold shutil_which. cbv iota beta.
  unfold magick_found in Hm. rewrite Hm. reflexivity.
Qed.

Lemma show_preview_run (page : string) (rest : list string) (st : State) :
  _show_preview (page :: rest) st
  = ((if _preview_win st then [ClosePreview] else [])
     ++ [PresentPreview (page :: rest) page],
     {| os := os st; _preview_win := true; _preview_pages := page :: rest;
        _preview_idx := 0 |},
     Return tt).
Proof.
  unfold _show_preview. rewrite bind_run. unfold get. cbv iota beta.
  destruct (_preview_win st) eqn:E; reflexivity.
Qed.

(** A preview of a window that is ready, run. *)
Lemma on_preview_run (self : Window) (st : State) (s : Settings) :
  images self <> [] -> magick_found st = true ->
  _gather_settings (form self) (Some 72) = Ok s ->
  _on_preview self st
  = let '(w, t) := mkdtemp (os st) "photogrid_" in
    let st1 := {| os := w; _preview_win := _preview_win st;
                  _preview_pages := _preview_pages st;
                  _preview_idx := _preview_idx st |} in
    let '(evs, st2, r) :=
      _run_all_pages self s
        (to_str (joinpath (Path t) "page-{page}.png")) st1 in
    match r with
    | Return pages =>
        let '(evs', st3, r') := _show_preview pages st2 in
        (evs ++ evs', st3, r')
    | Throw (Builtin e) => (evs, st2, Throw (Builtin e))
    | Throw (CalledProcessError _ _ _ err) =>
        (evs ++ [Toast ("Error: " +:+ error_excerpt err)], st2, Return tt)
    end.
Proof.
  intros Himg Hm Hs. unfold _on_preview.
  rewrite bind_run, (check_ready_run self st Himg Hm). cbv iota beta.
  cbn [negb]. cbv iota. rewrite bind_run, Hs. unfold lift. cbv iota beta.
  rewrite bind_run. unfold tempfile_mkdtemp.
  destruct (mkdtemp (os st) "photogrid_") as [w t]. cbv iota beta.
  rewrite bind_run. unfold try_except. rewrite bind_run.
  destruct (_run_all_pages self s
              (to_str (joinpath (Path t) "page-{page}.png")) _)
    as [[evs st2] [pages|[e|c rc o err]]]; cbv iota beta.
  - unfold mret, M_ret. cbv iota beta.
    destruct (_show_preview pages st2) as [[evs' st3] r'].
    by rewrite !app_nil_l, app_nil_r.
  - reflexivity.
  - unfold error_toast, add_toast, emit. rewrite bind_run. cbv iota beta.
    unfold mret, M_ret. by rewrite !app_nil_l, !app_nil_r.
Qed.

End Preview.

(** X16. A request to generate starts no child process and leaves the
    state as it was.  When the window is ready it plans at the
    resolution of the DPI row and opens the save dialog once, on those
    settings, with [grid.pdf] as the initial name when a document is
    asked for and [grid.jpg] otherwise; a form the planner rejects makes
    it raise what the planner raised, before anything is shown. *)
Theorem generate_opens_dialog `{OS} (self : Window) (st : State) :
  Forall (fun e => is_run e = false) (_on_generate self st).1.1
  /\ (_on_generate self st).1.2 = st
  /\ (images self <> [] -> magick_found st = true ->
      (forall s, _gather_settings (form self) None = Ok s ->
         _on_generate self st
         = ([SaveDialog (if pdf_row (form self) then "grid.pdf"
                         else "grid.jpg") s], st, Return tt))
      /\ (forall e, _gather_settings (form self) None = Raise e ->
            _on_generate self st = ([], st, Throw (Builtin e)))).
Proof.
  assert (images self <> [] -> magick_found st = true ->
          _on_generate self st
          = match _gather_settings (form self) None with
            | Ok s => ([SaveDialog (if pdf s then "grid.pdf" else "grid.jpg") s],
                       st, Return tt)
            | Raise e => ([], st, Throw (Builtin e))
            end) as Hrun.
  { intros Himg Hm. unfold _on_generate.
    rewrite bind_run, (check_ready_run self st Himg Hm). cbv iota beta.
    cbn [negb]. cbv iota. rewrite bind_run. unfold lift.
    by destruct (_gather_settings (form self) None). }
  assert (Forall (fun e => is_run e = false) (_on_generate self st).1.1
          /\ (_on_generate self st).1.2 = st) as [Hev Hst].
  { destruct (decide (images self = [])) as [Himg|Himg].
    - unfold _on_generate, _check_ready. rewrite bind_run.
      case_bool_decide; [|contradiction]. split; [by repeat constructor|done].
    - destruct (magick_found st) eqn:Hm.
      + rewrite (Hrun Himg eq_refl).
        destruct (_gather_settings (form self) None);
          split; by repeat constructor.
      + unfold _on_generate, _check_ready. rewrite bind_run.
        case_bool_decide; [contradiction|]. rewrite bind_run.
        unfold shutil_which. cbv iota beta.
        unfold magick_found in Hm. rewrite Hm.
        split; [by repeat constructor|done]. }
  split; [exact Hev|]. split; [exact Hst|].
  intros Himg Hm. rewrite (Hrun Himg Hm). split.
  - intros s Hs. rewrite Hs.
    apply gather_settings_inv in Hs
      as (? & ? & ? & ? & _ & _ & _ & _ & _ & _ & _ & _ & _ & Hpdf).
    by rewrite Hpdf.
  - intros e He. by rewrite He.
Qed.

Lemma generate_opens_dialog_witness :
  @_on_generate working_os nine_window (initial_state working_os 0%nat)
  = ([SaveDialog "grid.jpg" default_settings],
     initial_state working_os 0%nat, Return tt).
Proof.
  destruct (generate_opens_dialog (H := working_os) nine_window
              (initial_state working_os 0%nat)) as (_ & _ & Hready).
  destruct (Hready ltac:(discriminate) eq_refl) as [Hok _].
  exact (Hok default_settings default_gathered).
Defined.

(** X17. A preview of a window that is ready, on a form the planner
    accepts and with a temporary directory whose path has no brace,
    renders every chunk of the images to its page file; when every child
    process succeeds there is at least one page, a preview that was open
    is closed, and the first page is presented last, after which the
    window holds the page files and shows the first of them. *)
Theorem preview_presents_first_page `{OS} (self : Window) (st : State)
  (s : Settings) :
  images self <> [] -> magick_found st = true ->
  _gather_settings (form self) (Some 72) = Ok s ->
  let t := (mkdtemp (os st) "photogrid_").2 in
  all_chars nobrace t = true ->
  let out := _on_preview self st in
  Forall succeeded out.1.1 ->
  exists chunks results,
    _chunk_images (images self) s = Ok chunks
    /\ chunks <> []
    /\ length results = length chunks
    /\ let pages := temp_pages t (length chunks) in
       out.1.1
       = render_events s (zip chunks pages) results
         ++ (if _preview_win st then [ClosePreview] else [])
         ++ [PresentPreview pages (temp_page t 1)]
       /\ out.2 = Return tt
       /\ _preview_win out.1.2 = true
       /\ _preview_pages out.1.2 = pages
       /\ _preview_idx out.1.2 = 0.
Proof.
  intros Himg Hm Hs t Ht out. subst out t.
  rewrite (on_preview_run self st s Himg Hm Hs).
  destruct (planned_chunks_exist (form self) (Some 72) s (images self) Hs)
    as (chunks & Hc & Hcat).
  assert (chunks <> []) as Hne.
  { intros ->. simpl in Hcat. by symmetry in Hcat. }
  destruct (mkdtemp (os st) "photogrid_") as [w t]. simpl in Ht.
  cbn [snd]. cbv zeta.
  set (st1 := {| os := w; _preview_win := _preview_win st;
                 _preview_pages := _preview_pages st;
                 _preview_idx := _preview_idx st |}).
  pose proof (run_all_pages_succeeded self s t st1 chunks Ht Hc) as Hok.
  destruct (_run_all_pages self s
              (to_str (joinpath (Path t) "page-{page}.png")) st1)
    as [[evs st2] [pgs|[e|c rc o err]]]; simpl in Hok.
  - assert (exists rest, temp_pages t (length chunks)
                         = temp_page t 1 :: rest) as [rest Hrest].
    { destruct chunks; [contradiction|]. by eexists. }
    destruct (_show_preview pgs st2) as [[evs' st3] r'] eqn:Eshow.
    cbn [fst snd]. intros Hev. apply Forall_app in Hev as [Hev1 _].
    destruct (Hok Hev1) as (results & Hlen & -> & [= ->] & Hw).
    rewrite Hrest, show_preview_run in Eshow.
    injection Eshow as <- <- <-. rewrite Hw. cbn [_preview_win st1].
    exists chunks, results. rewrite Hrest. by repeat split.
  - cbn [fst snd]. intros Hev.
    destruct (Hok Hev) as (results & _ & _ & Hr & _). discriminate Hr.
  - cbn [fst snd]. intros Hev. apply Forall_app in Hev as [Hev _].
    destruct (Hok Hev) as (results & _ & _ & Hr & _). discriminate Hr.
Qed.

(** Nine images on a 2 x 2 grid: three pages, the first one shown. *)
Lemma preview_presents_first_page_witness :
  last (@_on_preview working_os nine_window (initial_state working_os 0%nat)).1.1
  = Some (PresentPreview ["/tmp/photogrid_x7k2m9qa/page-1.png";
                          "/tmp/photogrid_x7k2m9qa/page-2.png";
                          "/tmp/photogrid_x7k2m9qa/page-3.png"]
            "/tmp/photogrid_x7k2m9qa/page-1.png").
Proof.
  destruct (preview_presents_first_page (H := working_os) nine_window
              (initial_state working_os 0%nat)
              preview_settings
              ltac:(discriminate) eq_refl ltac:(vm_compute; reflexivity)
              eq_refl)
    as (chunks & results & Hc & _ & _ & Hevs & _).
  - vm_compute. repeat constructor.
  - assert (chunks = nine_chunks) as ->.
    { vm_compute in Hc. by injection Hc as <-. }
    rewrite Hevs, !last_app. reflexivity.
Defined.

(** ** What a failure leaves of the preview *)

Section Keeping.

Context `{OS}.

Lemma same_preview_refl (st : State) : same_preview st st.
Proof. by repeat split. Qed.

Lemma same_preview_trans (st st' st'' : State) :
  same_preview st st' -> same_preview st' st'' -> same_preview st st''.
Proof. intros (? & ? & ?) (? & ? & ?). repeat split; congruence. Qed.

Lemma keeps_ret {A} (a : A) : keeps (mret a).
Proof. intros st. apply same_preview_refl. Qed.

Lemma keeps_lift {A} (r : result A) : keeps (lift r).
Proof. intros st. unfold lift. destruct r; apply same_preview_refl. Qed.

Lemma keeps_emit e : keeps (emit e).
Proof. intros st. apply same_preview_refl. Qed.

Lemma keeps_which prog : keeps (shutil_which prog).
Proof. intros st. apply same_preview_refl. Qed.

Lemma keeps_mkdtemp prefix : keeps (tempfile_mkdtemp prefix).
Proof.
  intros st. unfold tempfile_mkdtemp.
  destruct (mkdtemp (os st) prefix). by repeat split.
Qed.

Lemma keeps_run cmd input : keeps (subprocess_run cmd input).
Proof.
  intros st. unfold subprocess_run.
  destruct (spawn (os st) cmd input). by repeat split.
Qed.

Lemma keeps_bind {A B} (m : M A) (f : A -> M B) :
  keeps m -> (forall a, keeps (f a)) -> keeps (m ≫= f).
Proof.
  intros Hm Hf st. rewrite bind_run. specialize (Hm st).
  destruct (m st) as [[evs st'] [a|e]]; [|exact Hm].
  specialize (Hf a st'). destruct (f a st') as [[evs' st''] r].
  by eapply same_preview_trans.
Qed.

Lemma keeps_run_montage imgs s dest : keeps (_run_montage imgs s dest).
Proof.
  unfold _run_montage. apply keeps_bind; [apply keeps_run | intros r1].
  apply keeps_bind; [apply keeps_run | intros _; apply keeps_ret].
Qed.

Lemma keeps_run_pages s pattern chunks :
  forall i paths, keeps (run_pages s pattern i chunks paths).
Proof.
  induction chunks as [|chunk rest IH]; intros i paths.
  - apply keeps_ret.
  - rewrite run_pages_cons.
    apply keeps_bind; [apply keeps_lift | intros dest].
    apply keeps_bind; [apply keeps_run_montage | intros _; apply IH].
Qed.

Lemma keeps_run_all_pages self s pattern :
  keeps (_run_all_pages self s pattern).
Proof.
  unfold _run_all_pages. apply keeps_bind; [apply keeps_lift | intros chunks].
  apply keeps_run_pages.
Qed.

Lemma keeps_save_pages s p stem ext chunks :
  forall i, keeps (save_pages s p stem ext i chunks).
Proof.
  induction chunks as [|chunk rest IH]; intros i.
  - apply keeps_ret.
  - rewrite save_pages_cons.
    apply keeps_bind; [apply keeps_lift | intros q].
    apply keeps_bind; [apply keeps_run_montage | intros _; apply IH].
Qed.

Lemma keeps_check_ready self : keeps (_check_ready self).
Proof.
  unfold _check_ready. case_bool_decide.
  - apply keeps_bind; [apply keeps_emit | intros _; apply keeps_ret].
  - apply keeps_bind; [apply keeps_which | intros found].
    destruct (negb _); [|apply keeps_ret].
    apply keeps_bind; [apply keeps_emit | intros _; apply keeps_ret].
Qed.

Lemma spares_clean (m : M unit) :
  (forall st, Forall succeeded (m st).1.1) -> spares m.
Proof. intros Hm st Hnot. by destruct Hnot. Qed.

Lemma spares_bind {A} (m : M A) (f : A -> M unit) :
  calm m -> keeps m -> (forall a, spares (f a)) -> spares (m ≫= f).
Proof.
  intros Hcalm Hkeep Hf st. rewrite bind_run.
  destruct (Hcalm st) as [Hev _]. specialize (Hkeep st).
  destruct (m st) as [[evs st'] [a|e]]; cbn [fst snd] in *.
  - specialize (Hf a st'). destruct (f a st') as [[evs' st''] r].
    cbn [fst snd] in *. intros Hnot.
    eapply same_preview_trans; [exact Hkeep|]. apply Hf.
    intros Hev'. destruct Hnot. by apply Forall_app.
  - intros Hnot. contradiction.
Qed.

(** [try: body except CalledProcessError: toast], then a continuation
    that does nothing once the toast is shown. *)
Lemma spares_try {A} (body : M A) (a0 : A) (k : A -> M unit) :
  keeps body -> (forall st, tidy (body st)) ->
  (forall a, calm (k a)) -> k a0 = mret tt ->
  spares (try_except body (fun err => _ ← error_toast err; mret a0) ≫= k).
Proof.
  intros Hkeep Htidy Hcalm Hk0 st. rewrite bind_run. unfold try_except.
  specialize (Hkeep st). specialize (Htidy st).
  destruct (body st) as [[evs st'] [a|[e|c rc o err]]]; simpl in Htidy, Hkeep.
  - destruct (Hcalm a st') as [Hev _].
    destruct (k a st') as [[evs' st''] r]. cbn [fst snd] in *.
    intros Hnot. destruct Hnot. by apply Forall_app.
  - cbn [fst snd]. intros Hnot. contradiction.
  - simpl. rewrite Hk0. simpl. intros _. exact Hkeep.
Qed.

(** [try: body; rest except CalledProcessError: toast] as the last
    thing a handler does, where only [body] starts child processes. *)
Lemma spares_try_last {A} (body : M A) (k : A -> M unit) :
  keeps body -> (forall st, tidy (body st)) -> (forall a, calm (k a)) ->
  spares (try_except (a ← body; k a) error_toast).
Proof.
  intros Hkeep Htidy Hcalm st.
  unfold try_except. rewrite bind_run.
  specialize (Hkeep st). specialize (Htidy st).
  destruct (body st) as [[evs st'] [a|[e|c rc o err]]]; simpl in Htidy, Hkeep.
  - destruct (Hcalm a st') as [Hev Hr].
    destruct (k a st') as [[evs' st''] [[]|[e|c rc o err]]];
      cbn [fst snd] in *; intros Hnot.
    + destruct Hnot. by apply Forall_app.
    + destruct Hnot. by apply Forall_app.
    + by destruct (Hr c rc o err).
  - cbn [fst snd]. intros Hnot. contradiction.
  - unfold error_toast, add_toast, emit. cbn [fst snd]. intros _.
    exact Hkeep.
Qed.

Lemma spares_on_preview self : spares (_on_preview self).
Proof.
  unfold _on_preview.
  apply spares_bind; [apply calm_check_ready | apply keeps_check_ready|].
  intros ready.
  destruct ready; simpl; [|apply spares_clean; intros st; constructor].
  apply spares_bind; [apply calm_lift | apply keeps_lift | intros s].
  apply spares_bind; [apply calm_mkdtemp | apply keeps_mkdtemp | intros tmpdir].
  apply spares_try.
  - apply keeps_bind; [apply keeps_run_all_pages | intros pages].
    apply keeps_ret.
  - apply tidy_bind; [apply tidy_run_all_pages|].
    intros pages. apply tidy_calm, calm_ret.
  - intros [pages|]; [apply calm_show_preview | apply calm_ret].
  - reflexivity.
Qed.

Lemma spares_on_save_ready self dest s : spares (_on_save_ready self dest s).
Proof.
  unfold _on_save_ready.
  destruct dest as [dest|]; [|apply spares_clean; intros st; constructor].
  apply spares_bind; [apply calm_lift | apply keeps_lift | intros chunks].
  apply spares_try_last.
  - destruct (pdf s).
    + apply keeps_bind; [apply keeps_mkdtemp | intros tmpdir].
      apply keeps_bind; [apply keeps_run_all_pages | intros page_files].
      apply keeps_bind; [apply keeps_run | intros _]. apply keeps_emit.
    + destruct (length chunks =? 1)%nat.
      * apply keeps_bind; [apply keeps_lift | intros chunk].
        apply keeps_bind; [apply keeps_run_montage | intros _].
        apply keeps_emit.
      * apply keeps_bind; [apply keeps_save_pages | intros _].
        apply keeps_emit.
  - destruct (pdf s).
    + apply tidy_bind; [apply tidy_calm, calm_mkdtemp | intros tmpdir].
      apply tidy_bind; [apply tidy_run_all_pages | intros page_files].
      apply tidy_bind; [apply tidy_run | intros _].
      apply tidy_calm, calm_add_toast.
    + destruct (length chunks =? 1)%nat.
      * apply tidy_bind; [apply tidy_calm, calm_lift | intros chunk].
        apply tidy_bind; [apply tidy_run_montage | intros _].
        apply tidy_calm, calm_add_toast.
      * apply tidy_bind; [apply tidy_save_pages | intros _].
        apply tidy_calm, calm_add_toast.
  - intros _. apply calm_bind; [apply calm_get | intros st'].
    apply calm_if; [apply calm_close_preview | apply calm_ret].
Qed.

End Keeping.

(** X18. A preview or a save in which a child process fails leaves the
    preview as it was: a preview window that was open stays open, on the
    same pages and at the same page, and none is opened. *)
Theorem failure_keeps_preview `{OS} (self : Window) (dest : option string)
  (s : Settings) (st : State) (out : list Event * State * outcome unit) :
  out = _on_preview self st \/ out = _on_save_ready self dest s st ->
  ~ Forall succeeded out.1.1 ->
  _preview_win out.1.2 = _preview_win st
  /\ _preview_pages out.1.2 = _preview_pages st
  /\ _preview_idx out.1.2 = _preview_idx st.
Proof.
  intros [-> | ->] Hnot.
  - by apply spares_on_preview.
  - by apply spares_on_save_ready.
Qed.

(** The fourth child process of a save fails while a preview is open on
    its second page: it stays open there. *)
Lemma failure_keeps_preview_witness :
  let out := @_on_save_ready failing_os nine_window (Some "/home/u/grid.jpg")
               default_settings (previewing failing_os 0%nat) in
  _preview_win out.1.2 = true /\ _preview_idx out.1.2 = 1.
Proof.
  intros out.
  destruct (failure_keeps_preview (H := failing_os) nine_window
              (Some "/home/u/grid.jpg") default_settings
              (previewing failing_os 0%nat) out (or_intror eq_refl))
    as (Hwin & _ & Hidx).
  - intros Hev.
    destruct (out.1.1 !! 3%nat) as [e|] eqn:E;
      [|vm_compute in E; discriminate E].
    pose proof (Forall_lookup_1 _ _ _ _ Hev E) as Hs.
    vm_compute in E. injection E as <-. discriminate Hs.
  - split; assumption.
Defined.


